(** * libgearman/queue_libsqlite3.c: the sqlite3 queue storage module

    A shallow embedding of the persistent queue backend of gearmand
    ([gearman_queue_libsqlite3_init], [_sqlite_lock], [_sqlite_commit],
    [_sqlite_add], [_sqlite_done], [_sqlite_flush], [_sqlite_replay]) together
    with a model of the part of the sqlite3 driver the module calls.

    The C functions mutate the queue structure through a pointer and talk to
    the driver through its connection; here every function takes the driver
    environment [env] and the structure [gearman_queue_sqlite_st] and returns
    the new ones next to its C return value. *)

From Stdlib Require Import ZArith List String Ascii Bool Lia Permutation.
From Stdlib Require Import Strings.Byte.
Import ListNotations.
Open Scope string_scope.
Open Scope Z_scope.

(** ** C strings *)

Definition bytes := list byte.

Fixpoint string_take (n : nat) (s : string) : string :=
  match n, s with
  | S n', String c s' => String c (string_take n' s')
  | _, _ => EmptyString
  end.

Fixpoint strip_prefix (p s : string) : option string :=
  match p, s with
  | EmptyString, _ => Some s
  | String a p', String b s' => if Ascii.eqb a b then strip_prefix p' s' else None
  | String _ _, EmptyString => None
  end.

Definition between (lo hi : nat) (c : ascii) : bool :=
  let n := nat_of_ascii c in (Nat.leb lo n && Nat.leb n hi)%bool.

Definition is_digit (c : ascii) : bool := between 48 57 c.
Definition is_upper (c : ascii) : bool := between 65 90 c.
Definition is_lower (c : ascii) : bool := between 97 122 c.

(** The characters of a bare SQL identifier. *)
Definition is_ident_char (c : ascii) : bool :=
  (is_digit c || is_upper c || is_lower c || Ascii.eqb c "_")%bool.

Fixpoint all_ident (s : string) : bool :=
  match s with
  | EmptyString => true
  | String c s' => (is_ident_char c && all_ident s')%bool
  end.

(** The longest identifier the text starts with, and what follows it. *)
Fixpoint span_ident (s : string) : string * string :=
  match s with
  | String c s' =>
      if is_ident_char c
      then let (t, rest) := span_ident s' in (String c t, rest)
      else (EmptyString, s)
  | EmptyString => (EmptyString, EmptyString)
  end.

Definition tolower (c : ascii) : ascii :=
  if is_upper c then ascii_of_nat (nat_of_ascii c + 32) else c.

Fixpoint lowercase (s : string) : string :=
  match s with
  | EmptyString => EmptyString
  | String c s' => String (tolower c) (lowercase s')
  end.

(** [strcasecmp a b == 0]. *)
Definition strcaseeq (a b : string) : bool := String.eqb (lowercase a) (lowercase b).

(** [snprintf(buf, n, ...)] where the formatted text is [s]: at most [n - 1]
    characters and the terminator are stored, nothing when [n] is 0, and the
    full length of [s] is returned whatever was stored.  A NULL [buf] stays
    NULL. *)
Definition snprintf (buf : option string) (n : Z) (s : string) : option string * Z :=
  (if n <=? 0 then buf
   else match buf with
        | Some _ => Some (string_take (Z.to_nat (n - 1)) s)
        | None => None
        end,
   Z.of_nat (String.length s)).

(** [size_t] arithmetic wraps around. *)
Definition SIZE_MAX1 : Z := 2 ^ 64.
Definition size_wrap (z : Z) : Z := z mod SIZE_MAX1.
Definition size_of (b : bytes) : Z := Z.of_nat (List.length b).

(** ** The sqlite3 driver *)

Inductive sqlite_rc : Set :=
| SQLITE_OK | SQLITE_ERROR | SQLITE_BUSY | SQLITE_NOMEM | SQLITE_READONLY
| SQLITE_IOERR | SQLITE_FULL | SQLITE_CONSTRAINT | SQLITE_MISUSE
| SQLITE_ROW | SQLITE_DONE.

Definition rc_eqb (a b : sqlite_rc) : bool :=
  match a, b with
  | SQLITE_OK, SQLITE_OK | SQLITE_ERROR, SQLITE_ERROR | SQLITE_BUSY, SQLITE_BUSY
  | SQLITE_NOMEM, SQLITE_NOMEM | SQLITE_READONLY, SQLITE_READONLY
  | SQLITE_IOERR, SQLITE_IOERR | SQLITE_FULL, SQLITE_FULL
  | SQLITE_CONSTRAINT, SQLITE_CONSTRAINT | SQLITE_MISUSE, SQLITE_MISUSE
  | SQLITE_ROW, SQLITE_ROW | SQLITE_DONE, SQLITE_DONE => true
  | _, _ => false
  end.

(** What can go wrong in the driver or the allocator whatever the statement
    is: the outcome of each fallible external call (malloc, realloc,
    sqlite3_open, sqlite3_prepare, sqlite3_step) is read off a plan. *)
Inductive driver_error : Set := EBUSY | ENOMEM | EREADONLY | EIOERR | EFULL.

Definition rc_of_error (x : driver_error) : sqlite_rc :=
  match x with
  | EBUSY => SQLITE_BUSY
  | ENOMEM => SQLITE_NOMEM
  | EREADONLY => SQLITE_READONLY
  | EIOERR => SQLITE_IOERR
  | EFULL => SQLITE_FULL
  end.

(** A stored job: the four columns of the queue table. *)
Record row : Set := mkRow {
  unique_key : bytes;
  function_name : bytes;
  priority : Z;
  data : bytes
}.

Definition catalog := list (string * list row).

Record env : Type := mkEnv {
  tables : catalog;              (* the store, as this connection sees it *)
  journal : option catalog;      (* the tables at BEGIN while a transaction is open *)
  issued : list string;          (* the statement texts handed to sqlite3_prepare *)
  plan : list (option driver_error)  (* outcomes of the fallible calls to come *)
}.

Definition next_outcome (e : env) : option driver_error * env :=
  match plan e with
  | [] => (None, e)
  | f :: rest => (f, mkEnv (tables e) (journal e) (issued e) rest)
  end.

Definition log_statement (text : string) (e : env) : env :=
  mkEnv (tables e) (journal e) (issued e ++ [text])%list (plan e).

Definition set_store (c : catalog) (j : option catalog) (e : env) : env :=
  mkEnv c j (issued e) (plan e).

(** Table names are matched without regard to case. *)
Fixpoint find_table (t : string) (c : catalog) : option (list row) :=
  match c with
  | [] => None
  | (n, rows) :: c' => if strcaseeq n t then Some rows else find_table t c'
  end.

Fixpoint update_table (t : string) (f : list row -> list row) (c : catalog) : catalog :=
  match c with
  | [] => []
  | (n, rows) :: c' =>
      if strcaseeq n t then (n, f rows) :: c' else (n, rows) :: update_table t f c'
  end.

Fixpoint bytes_eqb (a b : bytes) : bool :=
  match a, b with
  | [], [] => true
  | x :: a', y :: b' => (Byte.eqb x y && bytes_eqb a' b')%bool
  | _, _ => false
  end.

Definition has_key (k : bytes) (rows : list row) : bool :=
  existsb (fun r => bytes_eqb (unique_key r) k) rows.

Definition remove_key (k : bytes) (rows : list row) : list row :=
  filter (fun r => negb (bytes_eqb (unique_key r) k)) rows.

Inductive value : Set :=
| Null
| Int (z : Z)
| Text (b : bytes)
| Blob (b : bytes).

Inductive sql : Set :=
| Sql_begin
| Sql_commit
| Sql_rollback
| Sql_select_tables
| Sql_create (t : string)
| Sql_insert (t : string)
| Sql_delete (t : string)
| Sql_delete_all (t : string)
| Sql_delete_true (t : string)
| Sql_select (t : string).

Definition insert_columns : string :=
  " (priority,unique_key,function_name,data) VALUES (?,?,?,?)".
Definition create_columns : string :=
  "(unique_key TEXT PRIMARY KEY,function_name TEXT,priority INTEGER,data BLOB)".
Definition select_columns : string :=
  "SELECT unique_key,function_name,priority,data FROM ".
Definition select_tables : string :=
  "SELECT name FROM sqlite_master WHERE type='table'".

(** A prepared statement: its parsed form, the values bound to its
    parameters, the result rows still to be stepped over, the row the cursor
    is on, and the code of its last evaluation. *)
Record sqlite3_stmt : Set := mkStmt {
  sth_sql : sql;
  sth_bound : list (Z * value);
  sth_pending : list (list value);
  sth_row : list value;
  sth_rc : sqlite_rc
}.

Definition parameters (s : sql) : Z :=
  match s with
  | Sql_insert _ => 4
  | Sql_delete _ => 1
  | _ => 0
  end.

(** [sqlite3_bind_int], [sqlite3_bind_text], [sqlite3_bind_blob]: an index
    the statement does not have is refused and nothing is bound (the module
    does not look at the result).  This is the driver on a text or blob
    within its length limit ([SQLITE_MAX_LENGTH] below, which is also within
    the [int] that the module's [size_t] lengths are converted to): it is
    bound whole.  A longer one the driver refuses, leaving the parameter
    NULL; the properties that say what was stored take the fields
    [within_limit]. *)
Definition sqlite3_bind (sth : option sqlite3_stmt) (i : Z) (v : value)
  : option sqlite3_stmt :=
  match sth with
  | Some s =>
      if ((1 <=? i) && (i <=? parameters (sth_sql s)))%bool
      then Some (mkStmt (sth_sql s) ((i, v) :: sth_bound s) (sth_pending s)
                        (sth_row s) (sth_rc s))
      else Some s
  | None => None
  end.

Fixpoint bound (i : Z) (l : list (Z * value)) : value :=
  match l with
  | [] => Null
  | (j, v) :: l' => if i =? j then v else bound i l'
  end.

Definition value_bytes (v : value) : bytes :=
  match v with
  | Text b | Blob b => b
  | _ => []
  end.

Definition value_int (v : value) : Z :=
  match v with
  | Int z => z
  | _ => 0
  end.

(** [sqlite3_column_text] / [sqlite3_column_blob], [sqlite3_column_bytes]
    and [sqlite3_column_int64] on the row the cursor is on. *)
Definition sqlite3_column (sth : option sqlite3_stmt) (i : nat) : value :=
  match sth with
  | Some s => nth i (sth_row s) Null
  | None => Null
  end.

Definition sqlite3_column_text (sth : option sqlite3_stmt) (i : nat) : bytes :=
  value_bytes (sqlite3_column sth i).
Definition sqlite3_column_blob (sth : option sqlite3_stmt) (i : nat) : bytes :=
  value_bytes (sqlite3_column sth i).
Definition sqlite3_column_bytes (sth : option sqlite3_stmt) (i : nat) : Z :=
  size_of (value_bytes (sqlite3_column sth i)).
Definition sqlite3_column_int64 (sth : option sqlite3_stmt) (i : nat) : Z :=
  value_int (sqlite3_column sth i).

Definition row_values (r : row) : list value :=
  [Text (unique_key r); Text (function_name r); Int (priority r); Blob (data r)].

Definition is_error (rc : sqlite_rc) : bool :=
  match rc with
  | SQLITE_OK | SQLITE_ROW | SQLITE_DONE => false
  | _ => true
  end.

(** [sqlite3_finalize] reports the failure of the statement's last
    evaluation, if it failed. *)
Definition sqlite3_finalize (sth : option sqlite3_stmt) : sqlite_rc :=
  match sth with
  | Some s => if is_error (sth_rc s) then sth_rc s else SQLITE_OK
  | None => SQLITE_OK
  end.

Section Queue.

(** What the driver's tokenizer reserves, how it reads a text as a truth
    value, and the order in which it walks a table are left to the driver:
    everything below holds whatever they are. *)
Variable reserved_word : string -> bool.
Variable text_truth : bytes -> bool.
Variable scan : list row -> list row.

(** A scan yields every row of the table once, in an order of the driver's
    choosing. *)
Hypothesis scan_perm : forall rows : list row, Permutation (scan rows) rows.

Definition first_is_digit (s : string) : bool :=
  match s with
  | String c _ => is_digit c
  | EmptyString => false
  end.

Definition name_ok (t : string) : bool :=
  (negb (String.eqb t "") && negb (first_is_digit t) && negb (reserved_word t))%bool.

(** A statement that starts with [pre] and then names a table: the table and
    the rest of the text. *)
Definition parse_form (pre text : string) : option (string * string) :=
  match strip_prefix pre text with
  | Some s =>
      let (t, rest) := span_ident s in
      if name_ok t then Some (t, rest) else None
  | None => None
  end.

(** The statements this module's format strings can produce, cut short or
    not; any other text is a syntax error. *)
Definition sqlite3_parse (text : string) : option sql :=
  if String.eqb text "BEGIN TRANSACTION" then Some Sql_begin
  else if String.eqb text "COMMIT" then Some Sql_commit
  else if String.eqb text "ROLLBACK" then Some Sql_rollback
  else if String.eqb text select_tables then Some Sql_select_tables
  else
    match parse_form "INSERT INTO " text with
    | Some (t, rest) =>
        if String.eqb rest insert_columns then Some (Sql_insert t) else None
    | None =>
    match parse_form "DELETE FROM " text with
    | Some (t, rest) =>
        if String.eqb rest " WHERE unique_key=?" then Some (Sql_delete t)
        else if String.eqb rest " WHERE unique_key" then Some (Sql_delete_true t)
        else if (String.eqb rest "" || String.eqb rest " ")%bool
             then Some (Sql_delete_all t)
        else None
    | None =>
    match parse_form select_columns text with
    | Some (t, rest) =>
        if String.eqb rest "" then Some (Sql_select t) else None
    | None =>
    match parse_form "CREATE TABLE " text with
    | Some (t, rest) =>
        if String.eqb rest create_columns then Some (Sql_create t) else None
    | None => None
    end end end end.

Definition new_stmt (s : sql) (rows : list (list value)) : sqlite3_stmt :=
  mkStmt s [] rows [] SQLITE_OK.

Definition has_table (t : string) (c : catalog) : bool :=
  match find_table t c with
  | Some _ => true
  | None => false
  end.

(** Name resolution at prepare time; the result rows of a query are the
    table's rows in the driver's scan order. *)
Definition compile (c : catalog) (s : sql) : option sqlite3_stmt :=
  match s with
  | Sql_begin | Sql_commit | Sql_rollback => Some (new_stmt s [])
  | Sql_select_tables =>
      Some (new_stmt s (map (fun nr => [Text (list_byte_of_string (fst nr))]) c))
  | Sql_create t => if has_table t c then None else Some (new_stmt s [])
  | Sql_insert t | Sql_delete t | Sql_delete_all t | Sql_delete_true t =>
      if has_table t c then Some (new_stmt s []) else None
  | Sql_select t =>
      match find_table t c with
      | Some rows => Some (new_stmt s (map row_values (scan rows)))
      | None => None
      end
  end.

(** [sqlite3_prepare(db, zSql, nByte, &sth, NULL)]: the text is read up to
    the terminator, and no further than [nByte] bytes when [nByte] is not
    negative.  An empty text prepares to a NULL statement with SQLITE_OK. *)
Definition sqlite3_prepare (e : env) (db : bool) (zSql : option string) (nByte : Z)
  : sqlite_rc * option sqlite3_stmt * env :=
  match zSql with
  | Some s =>
      let text := if nByte <? 0 then s else string_take (Z.to_nat nByte) s in
      let e := log_statement text e in
      if negb db then (SQLITE_MISUSE, None, e)
      else
        let (f, e) := next_outcome e in
        match f with
        | Some x => (rc_of_error x, None, e)
        | None =>
            if String.eqb text "" then (SQLITE_OK, None, e)
            else
              match sqlite3_parse text with
              | Some s =>
                  match compile (tables e) s with
                  | Some sth => (SQLITE_OK, Some sth, e)
                  | None => (SQLITE_ERROR, None, e)
                  end
              | None => (SQLITE_ERROR, None, e)
              end
        end
  | None => (SQLITE_MISUSE, None, e)
  end.

Definition set_rc (s : sqlite3_stmt) (rc : sqlite_rc) : sqlite3_stmt :=
  mkStmt (sth_sql s) (sth_bound s) (sth_pending s) (sth_row s) rc.

Definition row_of_bound (l : list (Z * value)) : row :=
  mkRow (value_bytes (bound 2 l)) (value_bytes (bound 3 l))
        (value_int (bound 1 l)) (value_bytes (bound 4 l)).

(** One evaluation of a statement that the driver does not refuse. *)
Definition execute (e : env) (s : sqlite3_stmt) : sqlite_rc * sqlite3_stmt * env :=
  match sth_sql s with
  | Sql_begin =>
      match journal e with
      | None => (SQLITE_DONE, s, set_store (tables e) (Some (tables e)) e)
      | Some _ => (SQLITE_ERROR, s, e)
      end
  | Sql_commit =>
      match journal e with
      | Some _ => (SQLITE_DONE, s, set_store (tables e) None e)
      | None => (SQLITE_ERROR, s, e)
      end
  | Sql_rollback =>
      match journal e with
      | Some c => (SQLITE_DONE, s, set_store c None e)
      | None => (SQLITE_ERROR, s, e)
      end
  | Sql_create t =>
      if has_table t (tables e) then (SQLITE_ERROR, s, e)
      else (SQLITE_DONE, s, set_store (tables e ++ [(t, [])])%list (journal e) e)
  | Sql_insert t =>
      let r := row_of_bound (sth_bound s) in
      match find_table t (tables e) with
      | Some rows =>
          if has_key (unique_key r) rows then (SQLITE_CONSTRAINT, s, e)
          else (SQLITE_DONE, s,
                set_store (update_table t (fun rows => (rows ++ [r])%list) (tables e))
                          (journal e) e)
      | None => (SQLITE_ERROR, s, e)
      end
  | Sql_delete t =>
      match bound 1 (sth_bound s) with
      | Text k =>
          (SQLITE_DONE, s,
           set_store (update_table t (remove_key k) (tables e)) (journal e) e)
      | _ => (SQLITE_DONE, s, e)
      end
  | Sql_delete_all t =>
      (SQLITE_DONE, s,
       set_store (update_table t (fun _ => []) (tables e)) (journal e) e)
  | Sql_delete_true t =>
      (SQLITE_DONE, s,
       set_store (update_table t (filter (fun r => negb (text_truth (unique_key r))))
                               (tables e))
                 (journal e) e)
  | Sql_select _ | Sql_select_tables =>
      match sth_pending s with
      | [] => (SQLITE_DONE, mkStmt (sth_sql s) (sth_bound s) [] [] (sth_rc s), e)
      | r :: rest =>
          (SQLITE_ROW, mkStmt (sth_sql s) (sth_bound s) rest r (sth_rc s), e)
      end
  end.

(** [sqlite3_step]: a refused evaluation leaves the store as it is. *)
Definition sqlite3_step (e : env) (sth : option sqlite3_stmt)
  : sqlite_rc * option sqlite3_stmt * env :=
  match sth with
  | Some s =>
      let (f, e) := next_outcome e in
      match f with
      | Some x => (rc_of_error x, Some (set_rc s (rc_of_error x)), e)
      | None =>
          let '(rc, s, e) := execute e s in
          (rc, Some (set_rc s rc), e)
      end
  | None => (SQLITE_MISUSE, None, e)
  end.

(** [realloc(p, size)]: NULL when refused, with the old block left alone. *)
Definition realloc (e : env) (p : option string) : option string * env :=
  let (f, e) := next_outcome e in
  match f with
  | Some _ => (None, e)
  | None => (Some (match p with Some s => s | None => EmptyString end), e)
  end.

(** ** The queue structure and the module's private functions *)

Definition GEARMAN_QUEUE_SQLITE_DEFAULT_TABLE : string := "gearman_queue".
Definition GEARMAN_QUEUE_QUERY_BUFFER : Z := 256.
Definition SQLITE_MAX_TABLE_SIZE : Z := 256.

(** [gearman_queue_sqlite_st].  [db] tells whether the connection pointer is
    set; [query] is NULL or the text the buffer holds. *)
Record gearman_queue_sqlite_st : Set := mkQueue {
  db : bool;
  table : string;
  query : option string;
  query_size : Z;
  in_trans : Z
}.

Definition set_in_trans (queue : gearman_queue_sqlite_st) (n : Z) :=
  mkQueue (db queue) (table queue) (query queue) (query_size queue) n.

Definition set_query (queue : gearman_queue_sqlite_st) (buf : option string) :=
  mkQueue (db queue) (table queue) buf (query_size queue) (in_trans queue).

(** The members of [gearman_return_t] this file names; the enumeration is
    declared in libgearman/constants.h, and a callback may return any other
    member. *)
Inductive gearman_return_t : Set :=
| GEARMAN_SUCCESS
| GEARMAN_MEMORY_ALLOCATION_FAILURE
| GEARMAN_QUEUE_ERROR
| GEARMAN_RETURN_OTHER (code : Z).

Definition gearman_return_eqb (a b : gearman_return_t) : bool :=
  match a, b with
  | GEARMAN_SUCCESS, GEARMAN_SUCCESS
  | GEARMAN_MEMORY_ALLOCATION_FAILURE, GEARMAN_MEMORY_ALLOCATION_FAILURE
  | GEARMAN_QUEUE_ERROR, GEARMAN_QUEUE_ERROR => true
  | GEARMAN_RETURN_OTHER x, GEARMAN_RETURN_OTHER y => x =? y
  | _, _ => false
  end.

Definition _sqlite_query (e : env) (queue : gearman_queue_sqlite_st)
    (text : option string) (text_size : Z)
  : sqlite_rc * option sqlite3_stmt * env :=
  let '(ret, sth, e) := sqlite3_prepare e (db queue) text text_size in
  if negb (rc_eqb ret SQLITE_OK) then (ret, None, e) else (ret, sth, e).

Definition _sqlite_lock (e : env) (queue : gearman_queue_sqlite_st)
  : sqlite_rc * env * gearman_queue_sqlite_st :=
  if negb (in_trans queue =? 0) then
    (* already in transaction *)
    (SQLITE_OK, e, queue)
  else
    let '(ret, sth, e) := _sqlite_query e queue (Some "BEGIN TRANSACTION") (-1) in
    if negb (rc_eqb ret SQLITE_OK) then (ret, e, queue)
    else
      let '(ret, sth, e) := sqlite3_step e sth in
      if negb (rc_eqb ret SQLITE_DONE) then (ret, e, queue)
      else (SQLITE_OK, e, set_in_trans queue (in_trans queue + 1)).

Definition _sqlite_commit (e : env) (queue : gearman_queue_sqlite_st)
  : sqlite_rc * env * gearman_queue_sqlite_st :=
  if in_trans queue =? 0 then
    (* not in transaction *)
    (SQLITE_OK, e, queue)
  else
    let '(ret, sth, e) := _sqlite_query e queue (Some "COMMIT") (-1) in
    if negb (rc_eqb ret SQLITE_OK) then (ret, e, queue)
    else
      let '(ret, sth, e) := sqlite3_step e sth in
      if negb (rc_eqb ret SQLITE_DONE) then (ret, e, queue)
      else (SQLITE_OK, e, set_in_trans queue 0).

(** The block that [_sqlite_add], [_sqlite_done] and [_sqlite_replay] each
    start their statement with: the buffer is reallocated when [needed]
    exceeds [queue->query_size], and is [queue->query] otherwise.  [None]
    when realloc returned NULL. *)
Definition query_buffer (e : env) (queue : gearman_queue_sqlite_st) (needed : Z)
  : option (gearman_queue_sqlite_st * option string) * env :=
  if needed >? query_size queue then
    let (buf, e) := realloc e (query queue) in
    match buf with
    | None => (None, e)
    | Some _ =>
        (Some (mkQueue (db queue) (table queue) buf needed (in_trans queue), buf), e)
    end
  else (Some (queue, query queue), e).

Definition insert_text (t : string) : string := "INSERT INTO " ++ t ++ insert_columns.
Definition delete_text (t : string) : string := "DELETE FROM " ++ t ++ " WHERE unique_key=?".
Definition select_text (t : string) : string := select_columns ++ t.
Definition create_text (t : string) : string := "CREATE TABLE " ++ t ++ create_columns.

Definition _sqlite_add (e : env) (queue : gearman_queue_sqlite_st)
    (unique function_name data : bytes) (priority : Z)
  : gearman_return_t * env * gearman_queue_sqlite_st :=
  let '(ret, e, queue) := _sqlite_lock e queue in
  if negb (rc_eqb ret SQLITE_OK) then (GEARMAN_QUEUE_ERROR, e, queue)
  else
    let query_size :=
      size_wrap ((size_of unique + size_of function_name + size_of data) * 2
                 + GEARMAN_QUEUE_QUERY_BUFFER) in
    let (grown, e) := query_buffer e queue query_size in
    match grown with
    | None => (GEARMAN_MEMORY_ALLOCATION_FAILURE, e, queue)
    | Some (queue, buf) =>
        let (buf, query_size) := snprintf buf query_size (insert_text (table queue)) in
        let queue := set_query queue buf in
        let '(ret, sth, e) := _sqlite_query e queue buf query_size in
        if negb (rc_eqb ret SQLITE_OK) then (GEARMAN_QUEUE_ERROR, e, queue)
        else
          let sth := sqlite3_bind sth 1 (Int priority) in
          let sth := sqlite3_bind sth 2 (Text unique) in
          let sth := sqlite3_bind sth 3 (Text function_name) in
          let sth := sqlite3_bind sth 4 (Blob data) in
          let '(ret, sth, e) := sqlite3_step e sth in
          if negb (rc_eqb ret SQLITE_DONE) then (GEARMAN_QUEUE_ERROR, e, queue)
          else
            let '(ret, e, queue) := _sqlite_commit e queue in
            if negb (rc_eqb ret SQLITE_OK) then (GEARMAN_QUEUE_ERROR, e, queue)
            else (GEARMAN_SUCCESS, e, queue)
    end.

Definition _sqlite_flush (e : env) (queue : gearman_queue_sqlite_st)
  : gearman_return_t * env * gearman_queue_sqlite_st :=
  (GEARMAN_SUCCESS, e, queue).

(** [function_name] is marked unused in the source. *)
Definition _sqlite_done (e : env) (queue : gearman_queue_sqlite_st)
    (unique function_name : bytes)
  : gearman_return_t * env * gearman_queue_sqlite_st :=
  let '(ret, e, queue) := _sqlite_lock e queue in
  if negb (rc_eqb ret SQLITE_OK) then (GEARMAN_QUEUE_ERROR, e, queue)
  else
    let query_size := size_wrap (size_of unique * 2 + GEARMAN_QUEUE_QUERY_BUFFER) in
    let (grown, e) := query_buffer e queue query_size in
    match grown with
    | None => (GEARMAN_MEMORY_ALLOCATION_FAILURE, e, queue)
    | Some (queue, buf) =>
        let (buf, query_size) := snprintf buf query_size (delete_text (table queue)) in
        let queue := set_query queue buf in
        let '(ret, sth, e) := _sqlite_query e queue buf query_size in
        if negb (rc_eqb ret SQLITE_OK) then (GEARMAN_QUEUE_ERROR, e, queue)
        else
          let sth := sqlite3_bind sth 1 (Text unique) in
          let '(ret, sth, e) := sqlite3_step e sth in
          if negb (rc_eqb ret SQLITE_DONE) then (GEARMAN_QUEUE_ERROR, e, queue)
          else
            let '(ret, e, queue) := _sqlite_commit e queue in
            if negb (rc_eqb ret SQLITE_OK) then (GEARMAN_QUEUE_ERROR, e, queue)
            else (GEARMAN_SUCCESS, e, queue)
    end.

(** [gearman_queue_add_fn]: the server's callback, with the state it works
    on made explicit.  It gets the key, the function name, the copied payload
    (each pointer with its size is one byte list here) and the priority. *)
Definition gearman_queue_add_fn (A : Type) : Type :=
  A -> bytes -> bytes -> bytes -> Z -> gearman_return_t * A.

(** [(double)sqlite3_column_int64(sth,2)] converted to the enumeration: exact
    on every value [sqlite3_bind_int] can have stored from the enumeration,
    that is from 0 to [INT_MAX] ([priority_fits] below).  What the conversion
    through [double] gives on another stored integer is the compiler's
    choice; the properties that say which priority is delivered take the
    stored priorities in that range. *)
Definition priority_of_int64 (z : Z) : Z := z.

(** The [while (sqlite3_step(sth) == SQLITE_ROW)] loop of [_sqlite_replay]
    with the [sqlite3_finalize] that follows it on either exit.  [None] when
    the fuel runs out.  The [malloc] of the payload copy is the one
    allocation the module does not check: this is the loop while that
    [malloc] returns memory, and no outcome of the plan is read for it (a
    NULL would go straight into [memcpy]). *)
Fixpoint replay_rows {A : Type} (fuel : nat) (add_fn : gearman_queue_add_fn A)
    (e : env) (sth : option sqlite3_stmt) (a : A)
  : option (gearman_return_t * env * A) :=
  match fuel with
  | O => None
  | S fuel =>
      let '(ret, sth, e) := sqlite3_step e sth in
      if negb (rc_eqb ret SQLITE_ROW) then Some (GEARMAN_SUCCESS, e, a)
      else
        let unique := sqlite3_column_text sth 0 in
        let function_name := sqlite3_column_text sth 1 in
        let priority := priority_of_int64 (sqlite3_column_int64 sth 2) in
        let data_size := sqlite3_column_bytes sth 3 in
        (* malloc(data_size), not checked in the source, and memcpy *)
        let data := firstn (Z.to_nat data_size) (sqlite3_column_blob sth 3) in
        let (gret, a) := add_fn a unique function_name data priority in
        if negb (gearman_return_eqb gret GEARMAN_SUCCESS) then Some (gret, e, a)
        else replay_rows fuel add_fn e sth a
  end.

Definition rows_left (sth : option sqlite3_stmt) : nat :=
  match sth with
  | Some s => List.length (sth_pending s)
  | None => O
  end.

Definition _sqlite_replay {A : Type} (e : env) (queue : gearman_queue_sqlite_st)
    (add_fn : gearman_queue_add_fn A) (a : A)
  : option (gearman_return_t * env * gearman_queue_sqlite_st * A) :=
  let (grown, e) := query_buffer e queue GEARMAN_QUEUE_QUERY_BUFFER in
  match grown with
  | None => Some (GEARMAN_MEMORY_ALLOCATION_FAILURE, e, queue, a)
  | Some (queue, buf) =>
      let (buf, query_size) :=
        snprintf buf GEARMAN_QUEUE_QUERY_BUFFER (select_text (table queue)) in
      let queue := set_query queue buf in
      let '(ret, sth, e) := _sqlite_query e queue buf query_size in
      if negb (rc_eqb ret SQLITE_OK) then Some (GEARMAN_QUEUE_ERROR, e, queue, a)
      else
        match replay_rows (S (rows_left sth)) add_fn e sth a with
        | Some (gret, e, a) => Some (gret, e, queue, a)
        | None => None
        end
  end.
(** ** Initialisation and shutdown *)

(** Modelled from the spec: the configuration module
    ([gearman_conf_module_find], [gearman_conf_module_value]) is not part of
    this file.  A configuration is the list of the options given to the
    "libsqlite3" module ("db": the path of the backing store; "table": the
    table name), in the order [gearman_conf_module_value] hands them out, or
    [None] when there is no such module. *)
Definition gearman_conf_st : Set := option (list (string * string)).

(** What [gearman_st] and the process hold of this module: the registered
    callback argument and callbacks, the queue structure while it is
    allocated, the driver connections not yet closed, and whether a freed
    structure was read or freed again. *)
Record gearman_st : Type := mkGearman {
  queue_fn_arg : bool;
  queue_callbacks : bool;
  queue_block : option gearman_queue_sqlite_st;
  connections : Z;
  undefined : bool;
  driver : env
}.

Definition set_driver (g : gearman_st) (e : env) : gearman_st :=
  mkGearman (queue_fn_arg g) (queue_callbacks g) (queue_block g) (connections g)
            (undefined g) e.

Definition set_block (g : gearman_st) (b : option gearman_queue_sqlite_st) : gearman_st :=
  mkGearman (queue_fn_arg g) (queue_callbacks g) b (connections g) (undefined g)
            (driver g).

Definition set_fn_arg (g : gearman_st) (b : bool) : gearman_st :=
  mkGearman b (queue_callbacks g) (queue_block g) (connections g) (undefined g)
            (driver g).

Definition set_callbacks (g : gearman_st) : gearman_st :=
  mkGearman (queue_fn_arg g) true (queue_block g) (connections g) (undefined g)
            (driver g).

Definition set_undefined (g : gearman_st) : gearman_st :=
  mkGearman (queue_fn_arg g) (queue_callbacks g) (queue_block g) (connections g)
            true (driver g).

Definition set_connections (g : gearman_st) (n : Z) : gearman_st :=
  mkGearman (queue_fn_arg g) (queue_callbacks g) (queue_block g) n (undefined g)
            (driver g).

(** [sqlite3_open(value, &queue->db)]: a connection is handed out even when
    the store cannot be opened, unless the driver is out of memory. *)
Definition sqlite3_open (g : gearman_st) (queue : gearman_queue_sqlite_st)
  : sqlite_rc * gearman_st * gearman_queue_sqlite_st :=
  let (f, e) := next_outcome (driver g) in
  let g := set_driver g e in
  let opened :=
    mkQueue true (table queue) (query queue) (query_size queue) (in_trans queue) in
  match f with
  | Some ENOMEM =>
      (SQLITE_NOMEM, g,
       mkQueue false (table queue) (query queue) (query_size queue) (in_trans queue))
  | Some x => (rc_of_error x, set_connections g (connections g + 1), opened)
  | None => (SQLITE_OK, set_connections g (connections g + 1), opened)
  end.

(** [sqlite3_close(db)]: nothing to do on a NULL connection. *)
Definition sqlite3_close (g : gearman_st) (db : bool) : gearman_st :=
  if db then set_connections g (connections g - 1) else g.

(** [free(queue)]: freeing what is not allocated is undefined. *)
Definition free_queue (g : gearman_st) : gearman_st :=
  match queue_block g with
  | Some _ => set_block g None
  | None => set_undefined g
  end.

Definition gearman_queue_libsqlite3_deinit (g : gearman_st)
  : gearman_return_t * gearman_st :=
  if queue_fn_arg g then
    let g := set_fn_arg g false in
    match queue_block g with
    | Some queue => (GEARMAN_SUCCESS, free_queue (sqlite3_close g (db queue)))
    | None => (GEARMAN_SUCCESS, set_undefined g)
    end
  else
    (* queue is NULL and is dereferenced *)
    (GEARMAN_SUCCESS, set_undefined g).

(** The [while (gearman_conf_module_value(module, &name, &value))] loop of
    [gearman_queue_libsqlite3_init]; [Some ret] when the function returns
    from inside it. *)
Fixpoint init_options (options : list (string * string)) (g : gearman_st)
    (queue : gearman_queue_sqlite_st)
  : option gearman_return_t * gearman_st * gearman_queue_sqlite_st :=
  match options with
  | [] => (None, g, queue)
  | (name, value) :: options =>
      if String.eqb name "db" then
        let '(ret, g, queue) := sqlite3_open g queue in
        if negb (rc_eqb ret SQLITE_OK) then
          let (_, g) := gearman_queue_libsqlite3_deinit (set_block g (Some queue)) in
          (* sqlite3_errmsg(queue->db) reads the freed structure, and
             free(queue) frees it again *)
          (Some GEARMAN_QUEUE_ERROR, free_queue (set_undefined g), queue)
        else init_options options g queue
      else if String.eqb name "table" then
        init_options options g
          (mkQueue (db queue) (string_take (Z.to_nat (SQLITE_MAX_TABLE_SIZE - 1)) value)
                   (query queue) (query_size queue) (in_trans queue))
      else
        let (_, g) := gearman_queue_libsqlite3_deinit (set_block g (Some queue)) in
        (Some GEARMAN_QUEUE_ERROR, g, queue)
  end.

(** The [while (sqlite3_step(sth) == SQLITE_ROW)] loop over the catalog:
    [last] is the local [table], the last name read. *)
Fixpoint scan_catalog (fuel : nat) (e : env) (sth : option sqlite3_stmt)
    (queue : gearman_queue_sqlite_st) (last : option string)
  : option (option string * option sqlite3_stmt * env) :=
  match fuel with
  | O => None
  | S fuel =>
      let '(ret, sth, e) := sqlite3_step e sth in
      if negb (rc_eqb ret SQLITE_ROW) then Some (last, sth, e)
      else
        let name := string_of_list_byte (sqlite3_column_text sth 0) in
        if strcaseeq (table queue) name then Some (Some name, sth, e)
        else scan_catalog fuel e sth queue (Some name)
  end.

Definition gearman_queue_libsqlite3_init (g : gearman_st) (conf : gearman_conf_st)
  : option (gearman_return_t * gearman_st) :=
  let (f, e) := next_outcome (driver g) in
  let g := set_driver g e in
  match f with
  | Some _ => Some (GEARMAN_MEMORY_ALLOCATION_FAILURE, g)
  | None =>
  let queue :=
    mkQueue false
      (string_take (Z.to_nat (SQLITE_MAX_TABLE_SIZE - 1)) GEARMAN_QUEUE_SQLITE_DEFAULT_TABLE)
      None 0 0 in
  let g := set_block g (Some queue) in
  match conf with
  | None => Some (GEARMAN_QUEUE_ERROR, free_queue g)
  | Some module =>
  let g := set_fn_arg g true in
  let '(returned, g, queue) := init_options module g queue in
  match returned with
  | Some ret => Some (ret, g)
  | None =>
  let g := set_block g (Some queue) in
  if negb (db queue) then Some (GEARMAN_QUEUE_ERROR, snd (gearman_queue_libsqlite3_deinit g))
  else
  let '(ret, sth, e) := _sqlite_query (driver g) queue (Some select_tables) (-1) in
  let g := set_driver g e in
  if negb (rc_eqb ret SQLITE_OK)
  then Some (GEARMAN_QUEUE_ERROR, snd (gearman_queue_libsqlite3_deinit g))
  else
  match scan_catalog (S (rows_left sth)) (driver g) sth queue None with
  | None => None
  | Some (found, sth, e) =>
  let g := set_driver g e in
  if negb (rc_eqb (sqlite3_finalize sth) SQLITE_OK)
  then Some (GEARMAN_QUEUE_ERROR, snd (gearman_queue_libsqlite3_deinit g))
  else
  match found with
  | Some _ => Some (GEARMAN_SUCCESS, set_callbacks g)
  | None =>
      let (create, _) := snprintf (Some EmptyString) 1024 (create_text (table queue)) in
      let '(ret, sth, e) :=
        _sqlite_query (driver g) queue create
          (match create with Some s => Z.of_nat (String.length s) | None => 0 end) in
      let g := set_driver g e in
      if negb (rc_eqb ret SQLITE_OK)
      then Some (GEARMAN_QUEUE_ERROR, snd (gearman_queue_libsqlite3_deinit g))
      else
        let '(ret, sth, e) := sqlite3_step (driver g) sth in
        let g := set_driver g e in
        if negb (rc_eqb ret SQLITE_DONE) then
          (* sqlite3_finalize(sth); return GEARMAN_QUEUE_ERROR; *)
          Some (GEARMAN_QUEUE_ERROR, g)
        else if negb (rc_eqb (sqlite3_finalize sth) SQLITE_OK)
        then Some (GEARMAN_QUEUE_ERROR, snd (gearman_queue_libsqlite3_deinit g))
        else Some (GEARMAN_SUCCESS, set_callbacks g)
  end end end end end.

(** ** Notions the properties are stated with *)

(** The transaction flag of the specification. *)
Inductive txn_flag : Set := Idle | Open.

Definition flag_of (queue : gearman_queue_sqlite_st) : txn_flag :=
  if in_trans queue =? 0 then Idle else Open.

(** A handle as initialisation leaves it and the operations keep it: the
    connection is set, and a buffer that was never allocated has size 0. *)
Definition queue_ok (queue : gearman_queue_sqlite_st) : Prop :=
  db queue = true /\ (query queue = None -> query_size queue = 0).

(** The flag agrees with the driver: Open exactly while the driver has a
    transaction open. *)
Definition in_step (e : env) (queue : gearman_queue_sqlite_st) : Prop :=
  in_trans queue = 0 <-> journal e = None.

(** A table name the driver reads as one bare identifier, of at most [room]
    bytes. *)
Definition table_ok (t : string) (room : nat) : Prop :=
  all_ident t = true /\ name_ok t = true /\ (String.length t <= room)%nat.

(** A callback that accepts every row and keeps what it was given. *)
Definition record_row : gearman_queue_add_fn (list row) :=
  fun a unique function_name data priority =>
    (GEARMAN_SUCCESS, (a ++ [mkRow unique function_name priority data])%list).

(** Handing rows to the callback one by one until it refuses one. *)
Fixpoint deliver {A : Type} (add_fn : gearman_queue_add_fn A) (a : A) (rows : list row)
  : gearman_return_t * A :=
  match rows with
  | [] => (GEARMAN_SUCCESS, a)
  | r :: rest =>
      let (gret, a) := add_fn a (unique_key r) (function_name r) (data r) (priority r) in
      if gearman_return_eqb gret GEARMAN_SUCCESS then deliver add_fn a rest
      else (gret, a)
  end.

(** Modelled from the spec: [gearman_job_priority_t] is declared outside this
    file; the specification has it as a closed integer enumeration of three
    members (HIGH, NORMAL, LOW), numbered from 0 as C numbers them. *)
Definition GEARMAN_JOB_PRIORITY_MAX : Z := 3.

Definition valid_priority (p : Z) : Prop := 0 <= p < GEARMAN_JOB_PRIORITY_MAX.

(** The byte lengths of one call fit [size_t] when doubled and padded. *)
Definition sizes_fit (total : Z) : Prop :=
  total * 2 + GEARMAN_QUEUE_QUERY_BUFFER < SIZE_MAX1.

(** The text [sqlite3_prepare] reads from a buffer holding [s]. *)
Definition cut_text (n : Z) (s : string) : string :=
  if n <? 0 then s else string_take (Z.to_nat n) s.

(** The driver and the handle as [_sqlite_lock] leaves them, and the buffer
    failing to grow to [needed] bytes from there. *)
Definition after_lock (e : env) (queue : gearman_queue_sqlite_st)
  : env * gearman_queue_sqlite_st :=
  let '(_, e, queue) := _sqlite_lock e queue in (e, queue).

Definition resize_fails (s : env * gearman_queue_sqlite_st) (needed : Z) : Prop :=
  fst (query_buffer (fst s) (snd s) needed) = None.

(** A text that is empty or starts with the character [c]. *)
Definition starts_with (c : ascii) (s : string) : Prop :=
  match s with
  | EmptyString => True
  | String c' _ => c' = c
  end.

(** The statements the module hands to the driver: BEGIN, COMMIT, and what
    is left in the buffer of an INSERT, a DELETE or a SELECT. *)
Definition module_statement (s : string) : Prop :=
  s = "BEGIN TRANSACTION" \/ s = "COMMIT" \/
  starts_with "I" s \/ starts_with "D" s \/ starts_with "S" s.

Definition issued_since (e e' : env) : Prop :=
  exists new, issued e' = (issued e ++ new)%list /\ Forall module_statement new.


(** What [_sqlite_add] and [_sqlite_done] both do once [_sqlite_lock] went
    through, for the statement [text] of the table, the size [needed] and
    the bindings [binds]. *)
Definition locked_body (text : string -> string) (needed : Z)
    (binds : option sqlite3_stmt -> option sqlite3_stmt)
    (e1 : env) (q1 : gearman_queue_sqlite_st)
  : gearman_return_t * env * gearman_queue_sqlite_st :=
  let (grown, e) := query_buffer e1 q1 needed in
  match grown with
  | None => (GEARMAN_MEMORY_ALLOCATION_FAILURE, e, q1)
  | Some (queue, buf) =>
      let (buf, query_size) := snprintf buf needed (text (table queue)) in
      let queue := set_query queue buf in
      let '(ret, sth, e) := _sqlite_query e queue buf query_size in
      if negb (rc_eqb ret SQLITE_OK) then (GEARMAN_QUEUE_ERROR, e, queue)
      else
        let '(ret, sth, e) := sqlite3_step e (binds sth) in
        if negb (rc_eqb ret SQLITE_DONE) then (GEARMAN_QUEUE_ERROR, e, queue)
        else
          let '(ret, e, queue) := _sqlite_commit e queue in
          if negb (rc_eqb ret SQLITE_OK) then (GEARMAN_QUEUE_ERROR, e, queue)
          else (GEARMAN_SUCCESS, e, queue)
  end.

(** An operation keeps the handle as initialisation left it: well formed,
    and with the flag in step with the driver. *)
Definition keeps_handle (e : env) (queue : gearman_queue_sqlite_st)
    (e' : env) (queue' : gearman_queue_sqlite_st) : Prop :=
  (queue_ok queue -> queue_ok queue') /\ (in_step e queue -> in_step e' queue').

Definition is_dml (s : sql) : Prop :=
  match s with
  | Sql_insert _ | Sql_delete _ | Sql_delete_all _ | Sql_delete_true _ => True
  | _ => False
  end.

(** The calls the server makes on a handle. *)
Inductive call : Set :=
| Call_add (unique function_name data : bytes) (priority : Z)
| Call_done (unique function_name : bytes)
| Call_flush
| Call_replay.

Definition run_call {A : Type} (add_fn : gearman_queue_add_fn A) (c : call)
    (e : env) (queue : gearman_queue_sqlite_st) (a : A)
  : option (gearman_return_t * env * gearman_queue_sqlite_st * A) :=
  match c with
  | Call_add unique function_name data priority =>
      let '(r, e, queue) := _sqlite_add e queue unique function_name data priority in
      Some (r, e, queue, a)
  | Call_done unique function_name =>
      let '(r, e, queue) := _sqlite_done e queue unique function_name in
      Some (r, e, queue, a)
  | Call_flush =>
      let '(r, e, queue) := _sqlite_flush e queue in Some (r, e, queue, a)
  | Call_replay => _sqlite_replay e queue add_fn a
  end.

Fixpoint run_calls {A : Type} (add_fn : gearman_queue_add_fn A) (cs : list call)
    (e : env) (queue : gearman_queue_sqlite_st) (a : A)
  : option (env * gearman_queue_sqlite_st * A) :=
  match cs with
  | [] => Some (e, queue, a)
  | c :: cs =>
      match run_call add_fn c e queue a with
      | Some (_, e, queue, a) => run_calls add_fn cs e queue a
      | None => None
      end
  end.

(** The sizes [_sqlite_add] and [_sqlite_done] ask the buffer to have. *)
Definition add_needed (unique function_name data : bytes) : Z :=
  size_wrap ((size_of unique + size_of function_name + size_of data) * 2
             + GEARMAN_QUEUE_QUERY_BUFFER).

Definition done_needed (unique : bytes) : Z :=
  size_wrap (size_of unique * 2 + GEARMAN_QUEUE_QUERY_BUFFER).

Definition call_needed (c : call) : Z :=
  match c with
  | Call_add unique function_name data _ => add_needed unique function_name data
  | Call_done unique _ => done_needed unique
  | Call_flush => 0
  | Call_replay => GEARMAN_QUEUE_QUERY_BUFFER
  end.

(** The handle apart from its transaction flag. *)
Definition same_but_flag (queue queue' : gearman_queue_sqlite_st) : Prop :=
  db queue' = db queue /\ table queue' = table queue /\
  query queue' = query queue /\ query_size queue' = query_size queue.

(** What an operation that locks first does to the capacity, and how it ends
    when the buffer cannot be grown. *)
Definition capacity_post (needed : Z) (e : env) (queue : gearman_queue_sqlite_st)
    (r : gearman_return_t) (queue' : gearman_queue_sqlite_st) : Prop :=
  query_size queue <= query_size queue' /\
  (query_size queue' <> query_size queue ->
   query_size queue' = needed /\ needed > query_size queue) /\
  (fst (fst (_sqlite_lock e queue)) = SQLITE_OK ->
   resize_fails (after_lock e queue) needed ->
   r = GEARMAN_MEMORY_ALLOCATION_FAILURE /\
   same_but_flag queue queue' /\ flag_of queue' = Open).

(** A text that is empty or starts outside the identifier characters. *)
Definition starts_outside (s : string) : Prop :=
  match s with
  | EmptyString => True
  | String c _ => is_ident_char c = false
  end.

(** The transitions the specification gives the flag: [begin_ok] and
    [commit_ok] tell whether the statement went through. *)
Definition lock_flag (flag : txn_flag) (begin_ok : bool) : txn_flag :=
  match flag with
  | Open => Open
  | Idle => if begin_ok then Open else Idle
  end.

Definition commit_flag (flag : txn_flag) (commit_ok : bool) : txn_flag :=
  match flag with
  | Idle => Idle
  | Open => if commit_ok then Idle else Open
  end.

(** The callback [add_fn] with a record of the rows it was handed. *)
Definition visiting {A : Type} (add_fn : gearman_queue_add_fn A)
  : gearman_queue_add_fn (A * list row) :=
  fun st unique function_name data priority =>
    let (gret, a) := add_fn (fst st) unique function_name data priority in
    (gret, (a, (snd st ++ [mkRow unique function_name priority data])%list)).


(** What a module configuration asks for: whether every option is one the
    module knows, whether a store is named, how many times one is, and the
    table name that the options leave in the handle that starts with [t]. *)
Definition is_db (o : string * string) : bool := String.eqb (fst o) "db".
Definition is_table (o : string * string) : bool := String.eqb (fst o) "table".

Definition known_options (options : list (string * string)) : bool :=
  forallb (fun o => (is_db o || is_table o)%bool) options.

Definition has_db (options : list (string * string)) : bool := existsb is_db options.

Definition opens (options : list (string * string)) : Z :=
  Z.of_nat (List.length (filter is_db options)).

Fixpoint configured_table (options : list (string * string)) (t : string) : string :=
  match options with
  | [] => t
  | o :: options =>
      configured_table options
        (if is_db o then t else if is_table o then string_take 255 (snd o) else t)
  end.

(** The bytes whose doubled sum sizes the buffer of a call. *)
Definition call_bytes (c : call) : Z :=
  match c with
  | Call_add k f d _ => size_of k + size_of f + size_of d
  | Call_done k _ => size_of k
  | _ => 0
  end.

(** The driver's limit on the length of a text or blob (its default,
    [SQLITE_MAX_LENGTH] in sqlite3.c), the fields it binds whole, and the
    stored priorities that [_sqlite_replay] reads back exactly. *)
Definition SQLITE_MAX_LENGTH : Z := 1000000000.
Definition INT_MAX : Z := 2147483647.

Definition within_limit (b : bytes) : Prop := size_of b <= SQLITE_MAX_LENGTH.

Definition priority_fits (p : Z) : Prop := 0 <= p <= INT_MAX.

Definition readable (rows : list row) : Prop :=
  Forall (fun r => priority_fits (priority r)) rows.

(** What the driver is asked next: the outcome of the fallible call after
    [i] others. *)
Definition outcome_at (i : nat) (e : env) : option driver_error :=
  nth i (plan e) None.

(** ** C strings: facts *)

Lemma length_append (a b : string) :
  String.length (a ++ b) = (String.length a + String.length b)%nat.
Proof.
  induction a as [|c a IH]; simpl; [reflexivity|].
  now rewrite IH.
Qed.

Lemma string_take_all (n : nat) (s : string) :
  (String.length s <= n)%nat -> string_take n s = s.
Proof.
  revert n; induction s as [|c s IH]; intros [|n] H; simpl in *; try reflexivity.
  - lia.
  - f_equal. apply IH. lia.
Qed.

Lemma string_take_length (n : nat) (s : string) :
  (String.length (string_take n s) <= n)%nat.
Proof.
  revert s; induction n as [|n IH]; intros [|c s]; simpl; try lia.
  specialize (IH s). lia.
Qed.

Lemma strip_prefix_append (p r : string) : strip_prefix p (p ++ r) = Some r.
Proof.
  induction p as [|c p IH]; simpl; [reflexivity|].
  now rewrite Ascii.eqb_refl.
Qed.

Lemma span_ident_append (t r : string) :
  all_ident t = true -> starts_outside r -> span_ident (t ++ r) = (t, r).
Proof.
  intros Ht Hr. induction t as [|c t IH]; simpl in *.
  - destruct r as [|c r]; simpl in *; [reflexivity|]. now rewrite Hr.
  - apply andb_prop in Ht as [Hc Ht]. rewrite Hc, (IH Ht). reflexivity.
Qed.

Lemma span_ident_all (t : string) :
  all_ident t = true -> span_ident t = (t, EmptyString).
Proof.
  intros Ht. induction t as [|c t IH]; simpl in *; [reflexivity|].
  apply andb_prop in Ht as [Hc Ht]. now rewrite Hc, (IH Ht).
Qed.

(** A text cut inside or after an identifier: either the identifier is whole
    and what follows is a cut of the rest, or nothing follows. *)
Lemma span_ident_cut (t r : string) (n : nat) :
  all_ident t = true -> starts_outside r ->
  (exists m, span_ident (string_take n (t ++ r)) = (t, string_take m r)) \/
  snd (span_ident (string_take n (t ++ r))) = EmptyString.
Proof.
  intros Ht Hr. revert n. induction t as [|c t IH]; intros n; simpl in *.
  - left. exists n. destruct r as [|c r]; destruct n; simpl in *; try reflexivity.
    now rewrite Hr.
  - apply andb_prop in Ht as [Hc Ht]. destruct n as [|n]; simpl.
    + now right.
    + rewrite Hc. destruct (IH Ht n) as [[m Hm]|Hm].
      * left. exists m. now rewrite Hm.
      * right. destruct (span_ident (string_take n (t ++ r))). assumption.
Qed.

Lemma string_take_append (a b : string) (n : nat) :
  string_take (String.length a + n) (a ++ b) = a ++ string_take n b.
Proof.
  induction a as [|c a IH]; simpl; [reflexivity|]. now rewrite IH.
Qed.

Lemma string_take_idem (n : nat) (s : string) :
  string_take (String.length s) (string_take n s) = string_take n s.
Proof.
  apply string_take_all. revert s; induction n as [|n IH]; intros [|c s]; simpl; try lia.
  specialize (IH s). lia.
Qed.

(** ** The driver's parser on the module's statements *)

Lemma parse_begin : sqlite3_parse "BEGIN TRANSACTION" = Some Sql_begin.
Proof. reflexivity. Qed.

Lemma parse_commit : sqlite3_parse "COMMIT" = Some Sql_commit.
Proof. reflexivity. Qed.

Lemma parse_select_tables : sqlite3_parse select_tables = Some Sql_select_tables.
Proof. reflexivity. Qed.

Lemma parse_insert (t : string) :
  all_ident t = true -> name_ok t = true ->
  sqlite3_parse (insert_text t) = Some (Sql_insert t).
Proof.
  intros Hi Hn. unfold sqlite3_parse, insert_text, parse_form. simpl.
  rewrite (span_ident_append t insert_columns Hi) by reflexivity.
  rewrite Hn, String.eqb_refl. reflexivity.
Qed.

Lemma parse_delete (t : string) :
  all_ident t = true -> name_ok t = true ->
  sqlite3_parse (delete_text t) = Some (Sql_delete t).
Proof.
  intros Hi Hn. unfold sqlite3_parse, delete_text, parse_form. simpl.
  rewrite (span_ident_append t " WHERE unique_key=?" Hi) by reflexivity.
  rewrite Hn. reflexivity.
Qed.

Lemma parse_select (t : string) :
  all_ident t = true -> name_ok t = true ->
  sqlite3_parse (select_text t) = Some (Sql_select t).
Proof.
  intros Hi Hn. unfold sqlite3_parse, select_text, parse_form. simpl.
  rewrite (span_ident_all t Hi), Hn. reflexivity.
Qed.

Lemma parse_create (t : string) :
  all_ident t = true -> name_ok t = true ->
  sqlite3_parse (create_text t) = Some (Sql_create t).
Proof.
  intros Hi Hn. unfold sqlite3_parse, create_text, parse_form. simpl.
  rewrite (span_ident_append t create_columns Hi) by reflexivity.
  rewrite Hn, String.eqb_refl. reflexivity.
Qed.

Arguments sqlite3_step : simpl never.
Arguments sqlite3_prepare : simpl never.
Arguments execute : simpl never.
Arguments next_outcome : simpl never.
Arguments log_statement : simpl never.
Arguments _sqlite_query : simpl never.
Arguments _sqlite_lock : simpl never.
Arguments _sqlite_commit : simpl never.
Arguments string_take : simpl nomatch.

(** ** The driver when it refuses nothing *)

Lemma next_outcome_quiet (e : env) : plan e = [] -> next_outcome e = (None, e).
Proof. intros H. unfold next_outcome. now rewrite H. Qed.

Lemma query_quiet (e : env) (queue : gearman_queue_sqlite_st) (text : string) (n : Z)
    (s : sql) (sth : sqlite3_stmt) :
  plan e = [] -> db queue = true ->
  cut_text n text <> EmptyString ->
  sqlite3_parse (cut_text n text) = Some s ->
  compile (tables e) s = Some sth ->
  _sqlite_query e queue (Some text) n
  = (SQLITE_OK, Some sth, log_statement (cut_text n text) e).
Proof.
  intros Hp Hdb Hne Hparse Hc.
  unfold _sqlite_query, sqlite3_prepare. fold (cut_text n text).
  rewrite Hdb. simpl negb. cbv iota.
  rewrite next_outcome_quiet by exact Hp.
  apply String.eqb_neq in Hne. rewrite Hne, Hparse.
  change (tables (log_statement (cut_text n text) e)) with (tables e).
  rewrite Hc. reflexivity.
Qed.

Lemma step_quiet (e : env) (s : sqlite3_stmt) :
  plan e = [] ->
  sqlite3_step e (Some s)
  = (let '(rc, s', e') := execute e s in (rc, Some (set_rc s' rc), e')).
Proof.
  intros Hp. unfold sqlite3_step. now rewrite next_outcome_quiet.
Qed.

Lemma lock_idle (e : env) (queue : gearman_queue_sqlite_st) :
  plan e = [] -> db queue = true -> in_trans queue = 0 -> journal e = None ->
  _sqlite_lock e queue
  = (SQLITE_OK,
     mkEnv (tables e) (Some (tables e)) (issued e ++ ["BEGIN TRANSACTION"])%list [],
     set_in_trans queue 1).
Proof.
  intros Hp Hdb Hi Hj. unfold _sqlite_lock. rewrite Hi. simpl.
  rewrite (query_quiet e queue "BEGIN TRANSACTION" (-1) Sql_begin (new_stmt Sql_begin []));
    try reflexivity; try assumption; try discriminate.
  simpl. rewrite step_quiet by exact Hp.
  unfold execute, log_statement. simpl. rewrite Hj. simpl. unfold set_store. simpl.
  now rewrite Hp.
Qed.

Lemma lock_open (e : env) (queue : gearman_queue_sqlite_st) :
  in_trans queue <> 0 -> _sqlite_lock e queue = (SQLITE_OK, e, queue).
Proof.
  intros Hi. unfold _sqlite_lock. apply Z.eqb_neq in Hi. now rewrite Hi.
Qed.

Lemma commit_open (e : env) (queue : gearman_queue_sqlite_st) (c : catalog) :
  plan e = [] -> db queue = true -> in_trans queue <> 0 -> journal e = Some c ->
  _sqlite_commit e queue
  = (SQLITE_OK,
     mkEnv (tables e) None (issued e ++ ["COMMIT"])%list [],
     set_in_trans queue 0).
Proof.
  intros Hp Hdb Hi Hj. unfold _sqlite_commit. apply Z.eqb_neq in Hi. rewrite Hi.
  rewrite (query_quiet e queue "COMMIT" (-1) Sql_commit (new_stmt Sql_commit []));
    try reflexivity; try assumption; try discriminate.
  simpl. rewrite step_quiet by exact Hp.
  unfold execute, log_statement. simpl. rewrite Hj. simpl. unfold set_store. simpl.
  now rewrite Hp.
Qed.

Lemma plan_log (t : string) (e : env) : plan (log_statement t e) = plan e.
Proof. reflexivity. Qed.

Lemma tables_log (t : string) (e : env) : tables (log_statement t e) = tables e.
Proof. reflexivity. Qed.

Lemma journal_log (t : string) (e : env) : journal (log_statement t e) = journal e.
Proof. reflexivity. Qed.

Lemma issued_log (t : string) (e : env) :
  issued (log_statement t e) = (issued e ++ [t])%list.
Proof. reflexivity. Qed.

Create Rewrite HintDb drv.
#[local] Hint Rewrite plan_log tables_log journal_log issued_log : drv.

(** ** The catalog *)

Lemma find_table_update (t : string) (f : list row -> list row) (c : catalog) :
  find_table t (update_table t f c) = option_map f (find_table t c).
Proof.
  induction c as [|[n rows] c IH]; simpl; [reflexivity|].
  destruct (strcaseeq n t) eqn:E; simpl; rewrite E; [reflexivity|exact IH].
Qed.

Lemma has_table_found (t : string) (c : catalog) (rows : list row) :
  find_table t c = Some rows -> has_table t c = true.
Proof. intros H. unfold has_table. now rewrite H. Qed.

Lemma bytes_eqb_eq (a b : bytes) : bytes_eqb a b = true <-> a = b.
Proof.
  revert b; induction a as [|x a IH]; intros [|y b]; simpl; split; intros H;
    try reflexivity; try discriminate.
  - apply andb_prop in H as [H1 H2]. apply Byte.byte_dec_bl in H1.
    apply IH in H2. now subst.
  - injection H as Hx Hb. subst y b. assert (Byte.eqb x x = true) as -> by now apply Byte.byte_dec_lb.
    now apply IH.
Qed.


Lemma has_key_false (k : bytes) (rows : list row) :
  has_key k rows = false <-> forall r, In r rows -> unique_key r <> k.
Proof.
  unfold has_key. induction rows as [|r rows IH]; simpl.
  - split; [intros _ r []|reflexivity].
  - rewrite orb_false_iff, IH. split.
    + intros [H1 H2] r' [<-|Hin]; [|now apply H2].
      intros E. apply bytes_eqb_eq in E. congruence.
    + intros H. split.
      * destruct (bytes_eqb (unique_key r) k) eqn:E; [|reflexivity].
        apply bytes_eqb_eq in E. exfalso. now apply (H r); [left|].
      * intros r' Hin. apply H. now right.
Qed.

Lemma remove_key_absent (k : bytes) (rows : list row) :
  has_key k rows = false -> remove_key k rows = rows.
Proof.
  unfold has_key, remove_key. induction rows as [|r rows IH]; simpl; [reflexivity|].
  intros H. apply orb_false_iff in H as [H1 H2]. rewrite H1. simpl.
  now rewrite IH.
Qed.

Lemma remove_key_gone (k : bytes) (rows : list row) : has_key k (remove_key k rows) = false.
Proof.
  apply has_key_false. intros r Hin. unfold remove_key in Hin.
  apply filter_In in Hin as [_ H]. apply negb_true_iff in H.
  intros E. apply bytes_eqb_eq in E. congruence.
Qed.

Lemma remove_key_In (k : bytes) (rows : list row) (r : row) :
  In r (remove_key k rows) <-> In r rows /\ unique_key r <> k.
Proof.
  unfold remove_key. rewrite filter_In, negb_true_iff. split; intros [H1 H2]; split; trivial.
  - intros E. apply bytes_eqb_eq in E. congruence.
  - destruct (bytes_eqb (unique_key r) k) eqn:E; [|reflexivity].
    apply bytes_eqb_eq in E. contradiction.
Qed.

(** With keys that are unique, removing a key that is stored removes one row. *)
Lemma remove_key_one (k : bytes) (rows : list row) :
  NoDup (map unique_key rows) -> has_key k rows = true ->
  S (List.length (remove_key k rows)) = List.length rows.
Proof.
  unfold has_key, remove_key. induction rows as [|r rows IH]; simpl; [discriminate|].
  intros Hnd Hk. inversion Hnd as [|x l Hnotin Hnd']; subst.
  destruct (bytes_eqb (unique_key r) k) eqn:E; simpl.
  - apply bytes_eqb_eq in E. f_equal.
    fold (remove_key k rows). rewrite remove_key_absent; [reflexivity|].
    apply has_key_false. intros r' Hin E'. apply Hnotin. rewrite E, <- E'.
    now apply in_map.
  - f_equal. now apply IH.
Qed.


(** ** The operations when the driver refuses nothing *)

Lemma lock_quiet (e : env) (queue : gearman_queue_sqlite_st) :
  plan e = [] -> db queue = true -> in_step e queue ->
  exists e1 n c,
    _sqlite_lock e queue = (SQLITE_OK, e1, set_in_trans queue n) /\
    n <> 0 /\ plan e1 = [] /\ tables e1 = tables e /\ journal e1 = Some c.
Proof.
  intros Hp Hdb Hs. destruct (Z.eq_dec (in_trans queue) 0) as [Hi|Hi].
  - rewrite lock_idle; trivial; [|now apply Hs].
    eexists _, 1, _. split; [reflexivity|]. simpl. repeat split; lia.
  - rewrite lock_open by exact Hi.
    destruct (journal e) as [c|] eqn:Hj; [|now elim Hi; apply Hs].
    exists e, (in_trans queue), c. destruct queue; simpl in *. now repeat split.
Qed.

Lemma grow_quiet (e : env) (queue : gearman_queue_sqlite_st) (needed : Z) :
  plan e = [] -> (query queue = None -> query_size queue = 0) -> 0 < needed ->
  exists size old,
    query_buffer e queue needed
    = (Some (mkQueue (db queue) (table queue) (Some old) size (in_trans queue),
             Some old), e) /\
    needed <= size /\ query_size queue <= size.
Proof.
  intros Hp Hbuf Hn. unfold query_buffer.
  destruct (needed >? query_size queue) eqn:E.
  - unfold realloc. rewrite next_outcome_quiet by exact Hp.
    apply Z.gtb_lt in E.
    eexists needed, _. split; [reflexivity|]. lia.
  - assert (needed <= query_size queue) by (rewrite Z.gtb_ltb in E; apply Z.ltb_ge in E; lia).
    destruct queue as [d t [old|] sz it]; simpl in *.
    + exists sz, old. split; [reflexivity|]. lia.
    + specialize (Hbuf eq_refl). lia.
Qed.

Lemma cut_text_length (s : string) : cut_text (Z.of_nat (String.length s)) s = s.
Proof.
  unfold cut_text. destruct (Z.of_nat (String.length s) <? 0) eqn:E; [reflexivity|].
  rewrite Nat2Z.id. now apply string_take_all.
Qed.

Lemma insert_text_length (t : string) :
  String.length (insert_text t) = (70 + String.length t)%nat.
Proof. unfold insert_text. rewrite !length_append. simpl. lia. Qed.

Lemma delete_text_length (t : string) :
  String.length (delete_text t) = (31 + String.length t)%nat.
Proof. unfold delete_text. rewrite !length_append. simpl. lia. Qed.

Lemma select_text_length (t : string) :
  String.length (select_text t) = (51 + String.length t)%nat.
Proof. unfold select_text. rewrite !length_append. simpl. lia. Qed.

Lemma snprintf_fits (old : string) (n : Z) (s : string) :
  Z.of_nat (String.length s) < n ->
  snprintf (Some old) n s = (Some s, Z.of_nat (String.length s)).
Proof.
  intros H. unfold snprintf.
  destruct (n <=? 0) eqn:E; [apply Z.leb_le in E; lia|].
  rewrite string_take_all; [reflexivity|lia].
Qed.


Lemma done_quiet (e : env) (queue : gearman_queue_sqlite_st)
    (k f : bytes) (rows : list row) :
  plan e = [] -> queue_ok queue -> in_step e queue ->
  table_ok (table queue) 224 ->
  find_table (table queue) (tables e) = Some rows ->
  sizes_fit (size_of k) ->
  exists e1 q1,
    _sqlite_done e queue k f = (GEARMAN_SUCCESS, e1, q1) /\
    plan e1 = [] /\
    tables e1 = update_table (table queue) (remove_key k) (tables e) /\
    journal e1 = None /\
    queue_ok q1 /\ table q1 = table queue /\ in_trans q1 = 0 /\
    query_size queue <= query_size q1.
Proof.
  intros Hp [Hdb Hbuf] Hs (Hid & Hnm & Hlen) Hfind Hfit.
  unfold _sqlite_done.
  destruct (lock_quiet e queue Hp Hdb Hs) as (e1 & n & c & -> & Hn & Hp1 & Ht1 & Hj1).
  simpl negb. cbv iota.
  set (needed := size_wrap _).
  assert (Hneeded : 256 <= needed).
  { unfold needed, sizes_fit, size_wrap, size_of in *. rewrite Z.mod_small.
    - unfold GEARMAN_QUEUE_QUERY_BUFFER. lia.
    - unfold GEARMAN_QUEUE_QUERY_BUFFER in *. lia. }
  destruct (grow_quiet e1 (set_in_trans queue n) needed Hp1) as (size & old & -> & Hsz1 & Hsz2);
    [exact Hbuf|lia|].
  simpl table. rewrite snprintf_fits by (rewrite delete_text_length; lia).
  rewrite (query_quiet e1 _ (delete_text (table queue)) _ (Sql_delete (table queue))
             (new_stmt (Sql_delete (table queue)) []));
    trivial; rewrite ?cut_text_length; try (now apply parse_delete).
  2:{ unfold delete_text. simpl. discriminate. }
  2:{ simpl. rewrite Ht1, (has_table_found _ _ _ Hfind). reflexivity. }
  simpl. rewrite step_quiet by (now autorewrite with drv).
  unfold execute. simpl. autorewrite with drv. rewrite Ht1.
  simpl. rewrite (commit_open _ _ c); simpl; autorewrite with drv; trivial.
  eexists _, _. split; [reflexivity|]. simpl. unfold queue_ok. simpl.
  repeat split; trivial; try discriminate.
Qed.

Lemma replay_rows_quiet {A : Type} (add_fn : gearman_queue_add_fn A) (e : env)
    (t : string) (rows : list row) :
  plan e = [] ->
  forall (extra : nat) (a : A) (b : list (Z * value)) (cur : list value) (rc : sqlite_rc),
    replay_rows (S (List.length rows) + extra) add_fn e
      (Some (mkStmt (Sql_select t) b (map row_values rows) cur rc)) a
    = Some (fst (deliver add_fn a rows), e, snd (deliver add_fn a rows)).
Proof.
  intros Hp. induction rows as [|r rows IH]; intros extra a b cur rc.
  - simpl. rewrite step_quiet by exact Hp. reflexivity.
  - change (S (List.length (r :: rows)) + extra)%nat
      with (S (S (List.length rows) + extra)).
    cbn [replay_rows]. rewrite step_quiet by exact Hp. unfold execute. simpl.
    unfold sqlite3_column_bytes, sqlite3_column_blob, sqlite3_column_text,
      sqlite3_column_int64, priority_of_int64, size_of. simpl.
    rewrite Nat2Z.id, firstn_all.
    destruct (add_fn a (unique_key r) (function_name r) (data r) (priority r)) as [g a1].
    destruct (gearman_return_eqb g GEARMAN_SUCCESS); simpl; [|reflexivity].
    apply IH.
Qed.

Lemma replay_quiet {A : Type} (add_fn : gearman_queue_add_fn A) (a : A)
    (e : env) (queue : gearman_queue_sqlite_st) (rows : list row) :
  plan e = [] -> queue_ok queue ->
  table_ok (table queue) 204 ->
  find_table (table queue) (tables e) = Some rows ->
  exists q1,
    _sqlite_replay e queue add_fn a
    = Some (fst (deliver add_fn a (scan rows)),
            log_statement (select_text (table queue)) e, q1,
            snd (deliver add_fn a (scan rows))) /\
    queue_ok q1 /\ table q1 = table queue /\ in_trans q1 = in_trans queue /\
    query_size queue <= query_size q1.
Proof.
  intros Hp [Hdb Hbuf] (Hid & Hnm & Hlen) Hfind.
  unfold _sqlite_replay.
  destruct (grow_quiet e queue GEARMAN_QUEUE_QUERY_BUFFER Hp Hbuf)
    as (size & old & -> & Hsz1 & Hsz2); [reflexivity|].
  simpl table. rewrite snprintf_fits
    by (rewrite select_text_length; unfold GEARMAN_QUEUE_QUERY_BUFFER; lia).
  rewrite (query_quiet e _ (select_text (table queue)) _ (Sql_select (table queue))
             (new_stmt (Sql_select (table queue)) (map row_values (scan rows))));
    trivial; rewrite ?cut_text_length; try (now apply parse_select).
  2:{ unfold select_text. simpl. discriminate. }
  2:{ simpl. now rewrite Hfind. }
  simpl negb. cbv iota. unfold new_stmt, rows_left. simpl sth_pending.
  rewrite length_map.
  rewrite <- (Nat.add_0_r (S (List.length (scan rows)))).
  rewrite replay_rows_quiet by (now autorewrite with drv).
  eexists. split; [reflexivity|]. unfold queue_ok. simpl.
  repeat split; trivial; try discriminate.
Qed.

Lemma deliver_record (rows acc : list row) :
  deliver record_row acc rows = (GEARMAN_SUCCESS, (acc ++ rows)%list).
Proof.
  revert acc; induction rows as [|r rows IH]; intros acc; simpl.
  - now rewrite app_nil_r.
  - rewrite IH, <- app_assoc. now destruct r.
Qed.

Lemma table_ok_weaken (t : string) (n m : nat) :
  (n <= m)%nat -> table_ok t n -> table_ok t m.
Proof. intros H (H1 & H2 & H3). repeat split; trivial. lia. Qed.


Lemma within_limit_fits_key (k : bytes) : within_limit k -> sizes_fit (size_of k).
Proof.
  unfold within_limit, sizes_fit, SQLITE_MAX_LENGTH, GEARMAN_QUEUE_QUERY_BUFFER, SIZE_MAX1.
  lia.
Qed.

(** ** Round trip and completion *)


(** X21. On a handle in step with the driver whose table name is a bare
    identifier of at most 204 bytes, with the driver and the allocator
    refusing nothing, a key within the driver's length limit and stored
    priorities that are read back exactly: [_sqlite_done] returns
    GEARMAN_SUCCESS whether or not the key is stored; the table then holds
    the rows it held whose key differs, every other table is as it was, a
    key that was not stored leaves the rows (and their count) unchanged, a
    stored key (keys being unique) leaves one row fewer, and a following
    [_sqlite_replay] delivers no row with that key. *)
Theorem done_removes_row (e : env) (queue : gearman_queue_sqlite_st)
    (k f : bytes) (rows : list row) :
  plan e = [] -> queue_ok queue -> in_step e queue ->
  table_ok (table queue) 204 ->
  find_table (table queue) (tables e) = Some rows ->
  within_limit k -> readable rows ->
  exists e1 q1 e2 q2 delivered,
    _sqlite_done e queue k f = (GEARMAN_SUCCESS, e1, q1) /\
    tables e1 = update_table (table queue) (remove_key k) (tables e) /\
    find_table (table queue) (tables e1) = Some (remove_key k rows) /\
    (forall r, In r (remove_key k rows) <-> In r rows /\ unique_key r <> k) /\
    (has_key k rows = false ->
     remove_key k rows = rows /\ tables e1 = tables e) /\
    (has_key k rows = true -> NoDup (map unique_key rows) ->
     S (List.length (remove_key k rows)) = List.length rows) /\
    _sqlite_replay e1 q1 record_row [] = Some (GEARMAN_SUCCESS, e2, q2, delivered) /\
    Permutation delivered (remove_key k rows) /\
    (forall r, In r delivered -> unique_key r <> k).
Proof.
  intros Hp Hq Hs Ht Hfind Hk _.
  pose proof (within_limit_fits_key k Hk) as Hfit.
  destruct (done_quiet e queue k f rows Hp Hq Hs) as
    (e1 & q1 & Hdone & Hp1 & Ht1 & Hj1 & Hq1 & Htab & Hi1 & _); trivial.
  { apply (table_ok_weaken _ 204); [lia|exact Ht]. }
  assert (Hfind1 : find_table (table queue) (tables e1) = Some (remove_key k rows)).
  { rewrite Ht1, find_table_update, Hfind. reflexivity. }
  destruct (replay_quiet record_row [] e1 q1 (remove_key k rows) Hp1 Hq1)
    as (q2 & Hrep & _); try (rewrite Htab; trivial).
  rewrite deliver_record in Hrep. simpl in Hrep.
  exists e1, q1, (log_statement (select_text (table q1)) e1), q2,
    (scan (remove_key k rows)).
  split; [exact Hdone|]. split; [exact Ht1|]. split; [exact Hfind1|].
  split; [intros r; apply remove_key_In|].
  split.
  { intros H. split; [now apply remove_key_absent|].
    rewrite Ht1. clear - H Hfind. revert Hfind.
    induction (tables e) as [|[n rs] c IH]; simpl; [reflexivity|].
    destruct (strcaseeq n (table queue)).
    - intros [= ->]. now rewrite remove_key_absent.
    - intros Hf. now rewrite IH. }
  split; [intros H1 H2; now apply remove_key_one|].
  split; [exact Hrep|]. split; [apply scan_perm|].
  intros r Hin. apply (Permutation_in _ (scan_perm _)) in Hin.
  now apply remove_key_In in Hin.
Qed.

(** ** The driver under any plan *)

Lemma next_outcome_frame (e e' : env) (f : option driver_error) :
  next_outcome e = (f, e') ->
  tables e' = tables e /\ journal e' = journal e /\ issued e' = issued e /\
  (plan e = [] -> plan e' = [] /\ f = None).
Proof.
  unfold next_outcome. destruct (plan e) as [|x l] eqn:Hp; intros [= <- <-]; simpl.
  - now repeat split.
  - repeat split; discriminate.
Qed.

Ltac pop :=
  match goal with
  | |- context [next_outcome ?e] =>
      let f := fresh "f" in
      let e' := fresh "e" in
      let E := fresh "E" in
      destruct (next_outcome e) as [f e'] eqn:E;
      apply next_outcome_frame in E;
      destruct E as (? & ? & ? & ?)
  end.

Lemma rc_eqb_eq (a b : sqlite_rc) : rc_eqb a b = true <-> a = b.
Proof. destruct a, b; simpl; split; intros H; try reflexivity; discriminate. Qed.

Lemma rc_eqb_neq (a b : sqlite_rc) : rc_eqb a b = false <-> a <> b.
Proof.
  destruct a, b; simpl; split; intros H; try reflexivity; try discriminate;
    try (now elim H).
Qed.

Lemma compile_plain (c : catalog) (s : sql) (x : sqlite3_stmt) :
  compile c s = Some x -> sth_sql x = s /\ sth_bound x = [] /\ sth_rc x = SQLITE_OK.
Proof.
  destruct s; simpl; try (intros [= <-]; now repeat split);
    try (destruct (has_table t c); [|discriminate]; intros [= <-]; now repeat split);
    try (destruct (has_table t c); [discriminate|]; intros [= <-]; now repeat split).
  destruct (find_table t c); [|discriminate]. intros [= <-]. now repeat split.
Qed.

Lemma query_spec (e e' : env) (queue : gearman_queue_sqlite_st) (text : option string)
    (n : Z) (rc : sqlite_rc) (sth : option sqlite3_stmt) :
  _sqlite_query e queue text n = (rc, sth, e') ->
  tables e' = tables e /\ journal e' = journal e /\
  issued e'
  = (issued e ++ match text with Some s => [cut_text n s] | None => [] end)%list /\
  (plan e = [] -> plan e' = []) /\
  (rc <> SQLITE_OK -> sth = None) /\
  (forall x, sth = Some x ->
     rc = SQLITE_OK /\
     exists s, text = Some s /\
       sqlite3_parse (cut_text n s) = Some (sth_sql x) /\
       compile (tables e) (sth_sql x) = Some x).
Proof.
  unfold _sqlite_query, sqlite3_prepare. destruct text as [s|].
  2:{ simpl. intros [= <- <- <-]. rewrite app_nil_r.
      repeat split; trivial; discriminate. }
  fold (cut_text n s). destruct (db queue); simpl negb; cbv iota.
  2:{ simpl. intros [= <- <- <-]. repeat split; trivial; discriminate. }
  pop. destruct f as [x|].
  { destruct x; simpl; intros [= <- <- <-]; autorewrite with drv in *;
      repeat split; trivial; try discriminate; try (now apply H2). }
  destruct (String.eqb (cut_text n s) "").
  { simpl. intros [= <- <- <-]. autorewrite with drv in *.
    repeat split; trivial; try discriminate; try (now apply H2). }
  destruct (sqlite3_parse (cut_text n s)) as [st|] eqn:Hparse.
  2:{ simpl. intros [= <- <- <-]. autorewrite with drv in *.
      repeat split; trivial; try discriminate; try (now apply H2). }
  destruct (compile (tables e0) st) as [x|] eqn:Hc.
  2:{ simpl. intros [= <- <- <-]. autorewrite with drv in *.
      repeat split; trivial; try discriminate; try (now apply H2). }
  simpl. intros [= <- <- <-]. autorewrite with drv in *.
  repeat split; trivial; try discriminate; try (now apply H2); try congruence.
  injection H3 as <-. exists s.
  destruct (compile_plain _ _ _ Hc) as (-> & _). rewrite <- H. auto.
Qed.

Lemma rc_of_error_not_ok (d : driver_error) : rc_of_error d <> SQLITE_OK.
Proof. destruct d; discriminate. Qed.

Ltac step_case :=
  intros [= <- <- <-]; simpl;
  split; [trivial|];
  split; [intros Hp0;
          match goal with
          | H : plan _ = [] -> _ /\ _ |- _ => now destruct (H Hp0)
          end|];
  split; [intros Hrc; try (now elim Hrc); split; congruence|];
  split; [discriminate|];
  split; [first [discriminate | apply rc_of_error_not_ok]|];
  intros ? [= <-].

Lemma step_spec (e e' : env) (sth sth' : option sqlite3_stmt) (rc : sqlite_rc) :
  sqlite3_step e sth = (rc, sth', e') ->
  issued e' = issued e /\
  (plan e = [] -> plan e' = []) /\
  (rc <> SQLITE_DONE -> tables e' = tables e /\ journal e' = journal e) /\
  (sth = None -> rc = SQLITE_MISUSE) /\
  rc <> SQLITE_OK /\
  (forall x, sth = Some x ->
     match sth_sql x with
     | Sql_begin =>
         tables e' = tables e /\
         (rc = SQLITE_DONE -> journal e = None /\ journal e' = Some (tables e))
     | Sql_commit =>
         tables e' = tables e /\
         (rc = SQLITE_DONE -> journal e <> None /\ journal e' = None)
     | Sql_select _ | Sql_select_tables =>
         tables e' = tables e /\ journal e' = journal e
     | Sql_insert t =>
         forall rows,
           find_table t (tables e) = Some rows ->
           has_key (value_bytes (bound 2 (sth_bound x))) rows = true ->
           rc <> SQLITE_DONE
     | _ => True
     end).
Proof.
  unfold sqlite3_step. destruct sth as [x|].
  2:{ intros [= <- <- <-]. repeat split; trivial; discriminate. }
  pop. destruct f as [d|].
  { step_case. destruct (sth_sql x); trivial; repeat split; trivial;
      try (now destruct d); intros; now destruct d. }
  unfold execute.
  destruct (sth_sql x) eqn:Hsql; simpl.
  - destruct (journal e0) eqn:Hj; step_case; rewrite Hsql; split; trivial;
      try discriminate. intros _. split; congruence.
  - destruct (journal e0) eqn:Hj; step_case; rewrite Hsql; split; trivial;
      try discriminate. intros _. split; congruence.
  - destruct (journal e0) eqn:Hj; step_case; rewrite Hsql; trivial.
  - destruct (sth_pending x); step_case; rewrite Hsql; auto.
  - destruct (has_table t (tables e0)); step_case; rewrite Hsql; trivial.
  - destruct (find_table t (tables e0)) as [rows|] eqn:Hf;
      [destruct (has_key _ rows) eqn:Hk|]; step_case; rewrite Hsql;
      intros rows' Hf' Hk'; try discriminate.
    rewrite H in Hf. rewrite Hf in Hf'. injection Hf' as <-.
    simpl in Hk. congruence.
  - destruct (bound 1 (sth_bound x)); step_case; rewrite Hsql; trivial.
  - step_case; rewrite Hsql; trivial.
  - step_case; rewrite Hsql; trivial.
  - destruct (sth_pending x); step_case; rewrite Hsql; auto.
Qed.

(** ** The transaction flag *)

Lemma lock_spec (e e' : env) (queue queue' : gearman_queue_sqlite_st) (rc : sqlite_rc) :
  _sqlite_lock e queue = (rc, e', queue') ->
  tables e' = tables e /\
  (plan e = [] -> plan e' = []) /\
  (in_trans queue <> 0 -> rc = SQLITE_OK /\ e' = e /\ queue' = queue) /\
  (in_trans queue = 0 ->
   issued e' = (issued e ++ ["BEGIN TRANSACTION"])%list /\
   ((rc = SQLITE_OK /\ queue' = set_in_trans queue 1 /\
     journal e = None /\ journal e' = Some (tables e)) \/
    (rc <> SQLITE_OK /\ queue' = queue /\ journal e' = journal e))).
Proof.
  unfold _sqlite_lock. destruct (in_trans queue =? 0) eqn:Hi; simpl negb; cbv iota.
  2:{ apply Z.eqb_neq in Hi. intros [= <- <- <-]. repeat split; trivial; contradiction. }
  apply Z.eqb_eq in Hi.
  destruct (_sqlite_query e queue (Some "BEGIN TRANSACTION") (-1)) as [[r1 sth] e1] eqn:Hq.
  apply query_spec in Hq. destruct Hq as (Ht1 & Hj1 & Hi1 & Hp1 & Hfail & Hok).
  destruct (rc_eqb r1 SQLITE_OK) eqn:Hr1; simpl negb; cbv iota.
  2:{ apply rc_eqb_neq in Hr1. intros [= <- <- <-].
      repeat split; trivial; try contradiction. right. repeat split; trivial. }
  apply rc_eqb_eq in Hr1. subst r1.
  destruct (sqlite3_step e1 sth) as [[r2 sth2] e2] eqn:Hst.
  apply step_spec in Hst. destruct Hst as (Hi2 & Hp2 & Hfail2 & Hnull & Hnok & Hkind).
  destruct sth as [x|].
  - specialize (Hkind x eq_refl).
    destruct (Hok x eq_refl) as (_ & s & [= <-] & Hparse & _).
    simpl in Hparse. injection Hparse as Hsql. rewrite <- Hsql in Hkind.
    destruct Hkind as [Ht2 Hj2].
    destruct (rc_eqb r2 SQLITE_DONE) eqn:E; simpl negb; cbv iota; intros [= <- <- <-].
    + apply rc_eqb_eq in E. destruct (Hj2 E) as [Hn Hs]. rewrite Hi.
      split; [congruence|]. split; [auto|]. split; [intros H; now elim H|].
      intros _. split; [rewrite Hi2, Hi1; reflexivity|].
      left. repeat split; congruence.
    + apply rc_eqb_neq in E. destruct (Hfail2 E) as [_ Hj3].
      split; [congruence|]. split; [auto|]. split; [intros H; now elim H|].
      intros _. split; [rewrite Hi2, Hi1; reflexivity|].
      right. repeat split; congruence.
  - rewrite (Hnull eq_refl). simpl. intros [= <- <- <-].
    destruct Hfail2 as [Ht2 Hj2]; [rewrite (Hnull eq_refl); discriminate|].
    split; [congruence|]. split; [auto|]. split; [intros H; now elim H|].
    intros _. split; [rewrite Hi2, Hi1; reflexivity|].
    right. repeat split; congruence.
Qed.

Lemma commit_spec (e e' : env) (queue queue' : gearman_queue_sqlite_st) (rc : sqlite_rc) :
  _sqlite_commit e queue = (rc, e', queue') ->
  tables e' = tables e /\
  (plan e = [] -> plan e' = []) /\
  (in_trans queue = 0 -> rc = SQLITE_OK /\ e' = e /\ queue' = queue) /\
  (in_trans queue <> 0 ->
   issued e' = (issued e ++ ["COMMIT"])%list /\
   ((rc = SQLITE_OK /\ queue' = set_in_trans queue 0 /\
     journal e <> None /\ journal e' = None) \/
    (rc <> SQLITE_OK /\ queue' = queue /\ journal e' = journal e))).
Proof.
  unfold _sqlite_commit. destruct (in_trans queue =? 0) eqn:Hi.
  { apply Z.eqb_eq in Hi. intros [= <- <- <-]. repeat split; trivial; contradiction. }
  apply Z.eqb_neq in Hi.
  destruct (_sqlite_query e queue (Some "COMMIT") (-1)) as [[r1 sth] e1] eqn:Hq.
  apply query_spec in Hq. destruct Hq as (Ht1 & Hj1 & Hi1 & Hp1 & Hfail & Hok).
  destruct (rc_eqb r1 SQLITE_OK) eqn:Hr1; simpl negb; cbv iota.
  2:{ apply rc_eqb_neq in Hr1. intros [= <- <- <-].
      repeat split; trivial; try contradiction. right. repeat split; trivial. }
  apply rc_eqb_eq in Hr1. subst r1.
  destruct (sqlite3_step e1 sth) as [[r2 sth2] e2] eqn:Hst.
  apply step_spec in Hst. destruct Hst as (Hi2 & Hp2 & Hfail2 & Hnull & Hnok & Hkind).
  destruct sth as [x|].
  - specialize (Hkind x eq_refl).
    destruct (Hok x eq_refl) as (_ & s & [= <-] & Hparse & _).
    simpl in Hparse. injection Hparse as Hsql. rewrite <- Hsql in Hkind.
    destruct Hkind as [Ht2 Hj2].
    destruct (rc_eqb r2 SQLITE_DONE) eqn:E; simpl negb; cbv iota; intros [= <- <- <-].
    + apply rc_eqb_eq in E. destruct (Hj2 E) as [Hn Hs].
      split; [congruence|]. split; [auto|]. split; [intros H; now elim Hi|].
      intros _. split; [rewrite Hi2, Hi1; reflexivity|].
      left. repeat split; congruence.
    + apply rc_eqb_neq in E. destruct (Hfail2 E) as [_ Hj3].
      split; [congruence|]. split; [auto|]. split; [intros H; now elim Hi|].
      intros _. split; [rewrite Hi2, Hi1; reflexivity|].
      right. repeat split; congruence.
  - rewrite (Hnull eq_refl). simpl. intros [= <- <- <-].
    destruct Hfail2 as [Ht2 Hj2]; [rewrite (Hnull eq_refl); discriminate|].
    split; [congruence|]. split; [auto|]. split; [intros H; now elim Hi|].
    intros _. split; [rewrite Hi2, Hi1; reflexivity|].
    right. repeat split; congruence.
Qed.

(** What the driver makes of the BEGIN of a lock on an Idle flag and of the
    COMMIT of a commit on an Open flag: the code returned and the driver's
    transaction, by what the driver answers to the prepare and to the
    step. *)
Lemma lock_driver (e : env) (queue : gearman_queue_sqlite_st) :
  in_trans queue = 0 -> db queue = true ->
  let '(rc, e', queue') := _sqlite_lock e queue in
  match outcome_at 0 e, outcome_at 1 e, journal e with
  | Some x, _, _ | None, Some x, _ => rc = rc_of_error x /\ journal e' = journal e
  | None, None, None => rc = SQLITE_OK /\ journal e' = Some (tables e)
  | None, None, Some _ => rc = SQLITE_ERROR /\ journal e' = journal e
  end.
Proof.
  intros Hi Hdb.
  unfold _sqlite_lock, _sqlite_query, sqlite3_prepare, sqlite3_step, next_outcome,
    outcome_at, log_statement, execute.
  rewrite Hi, Hdb. simpl.
  destruct (plan e) as [|[x|] [|[y|] pl]]; simpl;
    try (destruct x; simpl; now split);
    try (destruct y; simpl; now split);
    destruct (journal e); simpl; now split.
Qed.

Lemma commit_driver (e : env) (queue : gearman_queue_sqlite_st) :
  in_trans queue <> 0 -> db queue = true ->
  let '(rc, e', queue') := _sqlite_commit e queue in
  match outcome_at 0 e, outcome_at 1 e, journal e with
  | Some x, _, _ | None, Some x, _ => rc = rc_of_error x /\ journal e' = journal e
  | None, None, Some _ => rc = SQLITE_OK /\ journal e' = None
  | None, None, None => rc = SQLITE_ERROR /\ journal e' = journal e
  end.
Proof.
  intros Hi Hdb. apply Z.eqb_neq in Hi.
  unfold _sqlite_commit, _sqlite_query, sqlite3_prepare, sqlite3_step, next_outcome,
    outcome_at, log_statement, execute.
  rewrite Hi, Hdb. simpl.
  destruct (plan e) as [|[x|] [|[y|] pl]]; simpl;
    try (destruct x; simpl; now split);
    try (destruct y; simpl; now split);
    destruct (journal e); simpl; now split.
Qed.

Lemma lock_closed (e : env) (queue : gearman_queue_sqlite_st) :
  in_trans queue = 0 -> db queue = false ->
  fst (fst (_sqlite_lock e queue)) = SQLITE_MISUSE.
Proof.
  intros Hi Hdb. unfold _sqlite_lock, _sqlite_query, sqlite3_prepare.
  rewrite Hi, Hdb. reflexivity.
Qed.

Lemma commit_closed (e : env) (queue : gearman_queue_sqlite_st) :
  in_trans queue <> 0 -> db queue = false ->
  fst (fst (_sqlite_commit e queue)) = SQLITE_MISUSE.
Proof.
  intros Hi Hdb. apply Z.eqb_neq in Hi.
  unfold _sqlite_commit, _sqlite_query, sqlite3_prepare.
  rewrite Hi, Hdb. reflexivity.
Qed.

(** C4. [_sqlite_lock] on an Open flag returns SQLITE_OK and changes nothing;
    on an Idle flag it hands BEGIN TRANSACTION to the driver, and the flag is
    Open with SQLITE_OK returned when that went through, Idle (the handle
    untouched) with the driver's code returned when it did not.
    [_sqlite_commit] on an Idle flag returns SQLITE_OK and changes nothing;
    on an Open flag it hands COMMIT to the driver, and the flag is Idle with
    SQLITE_OK returned when that went through, Open (the handle untouched)
    when it did not.  Going through is the driver's doing: on a connection
    that is set, a BEGIN whose prepare and step the driver does not refuse,
    with no transaction open, returns SQLITE_OK and leaves the driver's
    transaction open; a COMMIT whose prepare and step the driver does not
    refuse, with a transaction open, returns SQLITE_OK and leaves none
    open; a refused prepare or step returns the driver's code for the
    refusal, and a BEGIN inside a transaction or a COMMIT outside one
    SQLITE_ERROR, with the driver's transaction as it was; on a connection
    that is not set the code is SQLITE_MISUSE.  No table changes.  The
    counter behind the flag goes from 0 to 1 and back and never beyond, and
    a flag in step with the driver stays in step. *)
Theorem transaction_flag_transitions (e : env) (queue : gearman_queue_sqlite_st) :
  (let '(rc, e', queue') := _sqlite_lock e queue in
   flag_of queue' = lock_flag (flag_of queue) (rc_eqb rc SQLITE_OK) /\
   match flag_of queue with
   | Open => rc = SQLITE_OK /\ e' = e /\ queue' = queue
   | Idle =>
       issued e' = (issued e ++ ["BEGIN TRANSACTION"])%list /\
       (if rc_eqb rc SQLITE_OK then queue' = set_in_trans queue 1 else queue' = queue) /\
       (if db queue then
          match outcome_at 0 e, outcome_at 1 e, journal e with
          | Some x, _, _ | None, Some x, _ =>
              rc = rc_of_error x /\ journal e' = journal e
          | None, None, None => rc = SQLITE_OK /\ journal e' = Some (tables e)
          | None, None, Some _ => rc = SQLITE_ERROR /\ journal e' = journal e
          end
        else rc = SQLITE_MISUSE)
   end /\
   tables e' = tables e /\
   (in_trans queue = 0 \/ in_trans queue = 1 ->
    in_trans queue' = 0 \/ in_trans queue' = 1) /\
   (in_step e queue -> in_step e' queue')) /\
  (let '(rc, e', queue') := _sqlite_commit e queue in
   flag_of queue' = commit_flag (flag_of queue) (rc_eqb rc SQLITE_OK) /\
   match flag_of queue with
   | Idle => rc = SQLITE_OK /\ e' = e /\ queue' = queue
   | Open =>
       issued e' = (issued e ++ ["COMMIT"])%list /\
       (if rc_eqb rc SQLITE_OK then queue' = set_in_trans queue 0 else queue' = queue) /\
       (if db queue then
          match outcome_at 0 e, outcome_at 1 e, journal e with
          | Some x, _, _ | None, Some x, _ =>
              rc = rc_of_error x /\ journal e' = journal e
          | None, None, Some _ => rc = SQLITE_OK /\ journal e' = None
          | None, None, None => rc = SQLITE_ERROR /\ journal e' = journal e
          end
        else rc = SQLITE_MISUSE)
   end /\
   tables e' = tables e /\
   (in_trans queue = 0 \/ in_trans queue = 1 ->
    in_trans queue' = 0 \/ in_trans queue' = 1) /\
   (in_step e queue -> in_step e' queue')).
Proof.
  split.
  - pose proof (lock_driver e queue) as Hdrv.
    pose proof (lock_closed e queue) as Hcl.
    destruct (_sqlite_lock e queue) as [[rc e'] queue'] eqn:H.
    apply lock_spec in H. destruct H as (Ht & _ & Hopen & Hidle).
    unfold flag_of, in_step. destruct (in_trans queue =? 0) eqn:Hi.
    + apply Z.eqb_eq in Hi.
      assert (Hd : if db queue then
                     match outcome_at 0 e, outcome_at 1 e, journal e with
                     | Some x, _, _ | None, Some x, _ =>
                         rc = rc_of_error x /\ journal e' = journal e
                     | None, None, None => rc = SQLITE_OK /\ journal e' = Some (tables e)
                     | None, None, Some _ => rc = SQLITE_ERROR /\ journal e' = journal e
                     end
                   else rc = SQLITE_MISUSE).
      { destruct (db queue); [now apply Hdrv|now apply Hcl]. }
      destruct (Hidle Hi) as [Hiss [(-> & -> & Hj & Hj')|(Hrc & -> & Hj)]]; simpl.
      * split; [reflexivity|]. split; [now repeat split|]. split; [exact Ht|].
        split; [intros _; now right|]. intros _. split; intros; try discriminate; try lia.
        rewrite Hj' in *. discriminate.
      * apply rc_eqb_neq in Hrc. rewrite Hrc, Hi. rewrite Hj in *. simpl.
        split; [reflexivity|]. split; [now repeat split|]. split; [exact Ht|].
        split; tauto.
    + apply Z.eqb_neq in Hi. destruct (Hopen Hi) as (-> & -> & ->). simpl.
      apply Z.eqb_neq in Hi. rewrite Hi. tauto.
  - pose proof (commit_driver e queue) as Hdrv.
    pose proof (commit_closed e queue) as Hcl.
    destruct (_sqlite_commit e queue) as [[rc e'] queue'] eqn:H.
    apply commit_spec in H. destruct H as (Ht & _ & Hidle & Hopen).
    unfold flag_of, in_step. destruct (in_trans queue =? 0) eqn:Hi.
    + apply Z.eqb_eq in Hi. destruct (Hidle Hi) as (-> & -> & ->). simpl.
      rewrite Hi. simpl. tauto.
    + apply Z.eqb_neq in Hi.
      assert (Hd : if db queue then
                     match outcome_at 0 e, outcome_at 1 e, journal e with
                     | Some x, _, _ | None, Some x, _ =>
                         rc = rc_of_error x /\ journal e' = journal e
                     | None, None, Some _ => rc = SQLITE_OK /\ journal e' = None
                     | None, None, None => rc = SQLITE_ERROR /\ journal e' = journal e
                     end
                   else rc = SQLITE_MISUSE).
      { destruct (db queue); [now apply Hdrv|now apply Hcl]. }
      destruct (Hopen Hi) as [Hiss [(-> & -> & Hj & Hj')|(Hrc & -> & Hj)]]; simpl.
      * split; [reflexivity|]. split; [now repeat split|]. split; [exact Ht|].
        split; [intros _; now left|]. intros _. now split.
      * apply rc_eqb_neq in Hrc. rewrite Hrc. rewrite Hj in *. simpl.
        apply Z.eqb_neq in Hi. rewrite Hi.
        split; [reflexivity|]. split; [now repeat split|]. split; [exact Ht|].
        split; tauto.
Qed.

(** ** The buffer and the statement texts under any plan *)

Lemma grow_spec (e e' : env) (queue : gearman_queue_sqlite_st) (needed : Z)
    (r : option (gearman_queue_sqlite_st * option string)) :
  query_buffer e queue needed = (r, e') ->
  tables e' = tables e /\ journal e' = journal e /\ issued e' = issued e /\
  (plan e = [] -> plan e' = [] /\ r <> None) /\
  match r with
  | None => needed > query_size queue
  | Some (queue', buf) =>
      buf = query queue' /\
      db queue' = db queue /\ table queue' = table queue /\
      in_trans queue' = in_trans queue /\
      query_size queue <= query_size queue' /\
      (queue' = queue \/
       (needed > query_size queue /\ buf <> None /\
        queue' = mkQueue (db queue) (table queue) buf needed (in_trans queue)))
  end.
Proof.
  unfold query_buffer, realloc. destruct (needed >? query_size queue) eqn:E.
  - apply Z.gtb_lt in E. pop. destruct f as [x|]; intros [= <- <-].
    + do 3 (split; [trivial|]). split; [|lia].
      intros Hp. now destruct (H2 Hp).
    + simpl. do 3 (split; [trivial|]).
      split; [intros Hp; split; [now apply H2|discriminate]|].
      do 4 (split; [trivial|]). split; [lia|].
      right. repeat split; trivial; try lia. discriminate.
  - rewrite Z.gtb_ltb in E. apply Z.ltb_ge in E. intros [= <- <-].
    repeat split; trivial; try lia; try discriminate. now left.
Qed.

Lemma string_take_starts (c : ascii) (n : nat) (s : string) :
  starts_with c s -> starts_with c (string_take n s).
Proof. destruct n, s; simpl; trivial. Qed.

Lemma cut_text_starts (c : ascii) (n : Z) (s : string) :
  starts_with c s -> starts_with c (cut_text n s).
Proof.
  intros H. unfold cut_text. destruct (n <? 0); [exact H|].
  now apply string_take_starts.
Qed.


Lemma cut_text_take (n : nat) (s : string) :
  cut_text (Z.of_nat (String.length s)) (string_take n s) = string_take n s.
Proof.
  unfold cut_text. destruct (Z.of_nat (String.length s) <? 0) eqn:E; [reflexivity|].
  rewrite Nat2Z.id. apply string_take_idem.
Qed.

(** What is left of the SELECT of [_sqlite_replay] in its 256-byte buffer is
    still a SELECT of the four columns, of the table whose name is the part
    of the table name that fits, or no statement at all. *)
Lemma parse_select_cut (t : string) (st : sql) :
  sqlite3_parse (string_take 255 (select_text t)) = Some st ->
  exists t', st = Sql_select t' /\ fst (span_ident (string_take 204 t)) = t'.
Proof.
  unfold select_text.
  change 255%nat with (String.length select_columns + 204)%nat.
  rewrite string_take_append. generalize (string_take 204 t) as u. intros u.
  unfold sqlite3_parse, parse_form. simpl.
  destruct (span_ident u) as [t1 rest]. destruct (name_ok t1); [|discriminate].
  destruct (String.eqb rest ""); [|discriminate].
  intros [= <-]. now exists t1.
Qed.

(** A cut INSERT of [_sqlite_add] is the whole INSERT into the configured
    table or no statement at all. *)
Lemma parse_insert_cut (t : string) (m : nat) (st : sql) :
  all_ident t = true ->
  sqlite3_parse (string_take m (insert_text t)) = Some st -> st = Sql_insert t.
Proof.
  intros Hid. unfold insert_text.
  do 12 (destruct m as [|m]; [simpl; discriminate|]).
  change (S (S (S (S (S (S (S (S (S (S (S (S m))))))))))))
    with (String.length "INSERT INTO " + m)%nat.
  rewrite string_take_append.
  unfold sqlite3_parse, parse_form. simpl.
  destruct (span_ident_cut t insert_columns m Hid) as [[j Hj]|Hj]; [reflexivity| |].
  - rewrite Hj. destruct (name_ok t); [|discriminate].
    destruct (String.eqb (string_take j insert_columns) insert_columns); [|discriminate].
    now intros [= <-].
  - destruct (span_ident (string_take m (t ++ insert_columns))) as [t1 rest].
    simpl in Hj. subst rest. destruct (name_ok t1); discriminate.
Qed.

(** ** Replay under any plan *)

Lemma step_select (e e' : env) (x : sqlite3_stmt) (t : string) (rc : sqlite_rc)
    (sth' : option sqlite3_stmt) :
  sth_sql x = Sql_select t ->
  sqlite3_step e (Some x) = (rc, sth', e') ->
  tables e' = tables e /\ journal e' = journal e /\ issued e' = issued e /\
  (rc = SQLITE_ROW ->
   exists x', sth' = Some x' /\ sth_sql x' = Sql_select t /\
              S (List.length (sth_pending x')) = List.length (sth_pending x)).
Proof.
  intros Hsql. unfold sqlite3_step. pop. destruct f as [d|].
  - intros [= <- <- <-]. repeat split; trivial. now destruct d.
  - unfold execute. rewrite Hsql. destruct (sth_pending x) as [|r rest] eqn:Hp;
      intros [= <- <- <-]; repeat split; trivial; try discriminate.
    intros _. eexists. split; [reflexivity|]. simpl. now split.
Qed.

Lemma replay_rows_spec {A : Type} (add_fn : gearman_queue_add_fn A) (t : string)
    (fuel : nat) :
  forall (e : env) (x : sqlite3_stmt) (a : A),
    sth_sql x = Sql_select t ->
    (List.length (sth_pending x) < fuel)%nat ->
    exists r e' a',
      replay_rows fuel add_fn e (Some x) a = Some (r, e', a') /\
      tables e' = tables e /\ journal e' = journal e /\ issued e' = issued e.
Proof.
  induction fuel as [|fuel IH]; intros e x a Hsql Hlen; [lia|].
  cbn [replay_rows].
  destruct (sqlite3_step e (Some x)) as [[rc sth'] e1] eqn:Hst.
  destruct (step_select _ _ _ _ _ _ Hsql Hst) as (Ht & Hj & Hi & Hrow).
  destruct (rc_eqb rc SQLITE_ROW) eqn:E; simpl negb; cbv iota.
  2:{ eexists _, _, _. split; [reflexivity|]. now repeat split. }
  apply rc_eqb_eq in E. destruct (Hrow E) as (x' & -> & Hsql' & Hlen').
  destruct (add_fn a _ _ _ _) as [g a1].
  destruct (gearman_return_eqb g GEARMAN_SUCCESS); simpl negb; cbv iota.
  2:{ eexists _, _, _. split; [reflexivity|]. now repeat split. }
  destruct (IH e1 x' a1 Hsql') as (r & e2 & a2 & Hr & Ht2 & Hj2 & Hi2); [lia|].
  exists r, e2, a2. rewrite Hr. repeat split; congruence.
Qed.

(** What [_sqlite_replay] does whatever the driver refuses: it returns, the
    store and the driver's transaction are as before, the only statement
    handed to the driver is (a cut of) its SELECT, the flag is untouched, and
    the buffer is as [query_buffer] left it. *)
Lemma replay_spec {A : Type} (add_fn : gearman_queue_add_fn A) (a : A)
    (e : env) (queue : gearman_queue_sqlite_st) :
  exists r e' queue' a',
    _sqlite_replay e queue add_fn a = Some (r, e', queue', a') /\
    tables e' = tables e /\ journal e' = journal e /\
    (issued e' = issued e \/
     issued e' = (issued e ++ [string_take 255 (select_text (table queue))])%list) /\
    in_trans queue' = in_trans queue /\ table queue' = table queue /\
    db queue' = db queue /\
    query_size queue <= query_size queue' /\
    (query_size queue' <> query_size queue ->
     query_size queue' = GEARMAN_QUEUE_QUERY_BUFFER /\
     GEARMAN_QUEUE_QUERY_BUFFER > query_size queue) /\
    (fst (query_buffer e queue GEARMAN_QUEUE_QUERY_BUFFER) = None ->
     r = GEARMAN_MEMORY_ALLOCATION_FAILURE /\ queue' = queue /\ a' = a).
Proof.
  unfold _sqlite_replay.
  set (txt := string_take 255 (select_text (table queue))).
  destruct (query_buffer e queue GEARMAN_QUEUE_QUERY_BUFFER) as [[[q1 buf]|] e1] eqn:Hg;
    apply grow_spec in Hg; destruct Hg as (Ht1 & Hj1 & Hi1 & _ & Hg).
  2:{ eexists _, _, _, _. split; [reflexivity|]. simpl.
      do 2 (split; [trivial|]). split; [now left|].
      do 3 (split; [trivial|]). split; [lia|]. split; [intros H; now elim H|].
      intros _. now repeat split. }
  destruct Hg as (Hbuf & Hdb & Htab & Hit & Hsz & Hq1).
  assert (Hgrow : query_size q1 <> query_size queue ->
                  query_size q1 = GEARMAN_QUEUE_QUERY_BUFFER /\
                  GEARMAN_QUEUE_QUERY_BUFFER > query_size queue).
  { destruct Hq1 as [->|(H1 & _ & ->)]; simpl; [intros H; now elim H|now split]. }
  unfold snprintf. change (GEARMAN_QUEUE_QUERY_BUFFER <=? 0) with false. cbv iota.
  change (Z.to_nat (GEARMAN_QUEUE_QUERY_BUFFER - 1)) with 255%nat.
  destruct buf as [old|].
  2:{ unfold _sqlite_query, sqlite3_prepare. simpl.
      eexists _, _, _, _. split; [reflexivity|]. simpl.
      do 2 (split; [congruence|]). split; [left; congruence|].
      do 4 (split; [trivial|]). split; [exact Hgrow|discriminate]. }
  destruct (_sqlite_query e1 _ _ _) as [[rc sth] e2] eqn:Hq.
  apply query_spec in Hq. destruct Hq as (Ht2 & Hj2 & Hi2 & _ & Hfail & Hok).
  rewrite Htab, cut_text_take in Hi2. fold txt in Hi2.
  destruct (rc_eqb rc SQLITE_OK) eqn:E; simpl negb; cbv iota.
  2:{ eexists _, _, _, _. split; [reflexivity|]. simpl.
      do 2 (split; [congruence|]). split; [right; congruence|].
      do 4 (split; [trivial|]). split; [exact Hgrow|discriminate]. }
  destruct sth as [x|].
  - destruct (Hok x eq_refl) as (_ & s & Hs & Hparse & _).
    assert (s = string_take 255 (select_text (table q1))) as -> by congruence.
    rewrite cut_text_take in Hparse. apply parse_select_cut in Hparse.
    destruct Hparse as (t' & Hsql & _).
    destruct (replay_rows_spec add_fn t' (S (rows_left (Some x))) e2 x a Hsql)
      as (r & e3 & a3 & -> & Ht3 & Hj3 & Hi3); [simpl; lia|].
    eexists _, _, _, _. split; [reflexivity|]. simpl.
    do 2 (split; [congruence|]). split; [right; congruence|].
    do 4 (split; [trivial|]). split; [exact Hgrow|discriminate].
  - simpl. unfold sqlite3_step. simpl.
    eexists _, _, _, _. split; [reflexivity|]. simpl.
    do 2 (split; [congruence|]). split; [right; congruence|].
    do 4 (split; [trivial|]). split; [exact Hgrow|discriminate].
Qed.

Lemma gearman_return_eqb_eq (a b : gearman_return_t) :
  gearman_return_eqb a b = true <-> a = b.
Proof.
  destruct a, b; simpl; split; intros H; try reflexivity; try discriminate.
  - apply Z.eqb_eq in H. now subst.
  - injection H as ->. apply Z.eqb_refl.
Qed.

Lemma deliver_visiting_stops {A : Type} (add_fn : gearman_queue_add_fn A)
    (pre post : list row) (r : row) :
  forall (a a1 a2 : A) (seen : list row) (g : gearman_return_t),
    deliver add_fn a pre = (GEARMAN_SUCCESS, a1) ->
    add_fn a1 (unique_key r) (function_name r) (data r) (priority r) = (g, a2) ->
    g <> GEARMAN_SUCCESS ->
    deliver (visiting add_fn) (a, seen) (pre ++ r :: post)
    = (g, (a2, (seen ++ pre ++ [r])%list)).
Proof.
  induction pre as [|x pre IH]; intros a a1 a2 seen g Hpre Hr Hg; simpl in *.
  - injection Hpre as <-. unfold visiting. simpl. rewrite Hr.
    destruct (gearman_return_eqb g GEARMAN_SUCCESS) eqn:E.
    + apply gearman_return_eqb_eq in E. contradiction.
    + now destruct r.
  - unfold visiting at 1. simpl.
    destruct (add_fn a (unique_key x) (function_name x) (data x) (priority x))
      as [gx ax].
    destruct (gearman_return_eqb gx GEARMAN_SUCCESS) eqn:E.
    + rewrite (IH ax a1 a2 _ g Hpre Hr Hg). rewrite <- app_assoc. now destruct x.
    + injection Hpre as -> _. discriminate.
Qed.

(** ** Replay *)

(** C9. [_sqlite_replay] returns with the store and the driver's transaction
    exactly as they were, whatever the driver refuses and whatever the
    callback answers; and when, the driver refusing nothing, the callback
    accepts the rows [pre] and answers [g], not GEARMAN_SUCCESS, on the next
    row [r], [_sqlite_replay] returns [g], the callback has been handed
    [pre] and [r] and none of the rows after [r], and its state is the one
    it left at [r]. *)
Theorem replay_stops_and_keeps {A : Type} (add_fn : gearman_queue_add_fn A) (a : A)
    (e : env) (queue : gearman_queue_sqlite_st) :
  (exists r e' queue' a',
     _sqlite_replay e queue add_fn a = Some (r, e', queue', a') /\
     tables e' = tables e /\ journal e' = journal e) /\
  (forall (rows pre post : list row) (r : row) (a1 a2 : A) (g : gearman_return_t),
     plan e = [] -> queue_ok queue -> table_ok (table queue) 204 ->
     find_table (table queue) (tables e) = Some rows ->
     scan rows = (pre ++ r :: post)%list ->
     deliver add_fn a pre = (GEARMAN_SUCCESS, a1) ->
     add_fn a1 (unique_key r) (function_name r) (data r) (priority r) = (g, a2) ->
     g <> GEARMAN_SUCCESS ->
     exists e' queue',
       _sqlite_replay e queue (visiting add_fn) (a, [])
       = Some (g, e', queue', (a2, (pre ++ [r])%list)) /\
       tables e' = tables e).
Proof.
  split.
  - destruct (replay_spec add_fn a e queue) as (r & e' & q' & a' & H & Ht & Hj & _).
    now exists r, e', q', a'.
  - intros rows pre post r a1 a2 g Hp Hq Htab Hfind Hscan Hpre Hr Hg.
    destruct (replay_quiet (visiting add_fn) (a, []) e queue rows Hp Hq Htab Hfind)
      as (q1 & Hrep & _).
    rewrite Hscan, (deliver_visiting_stops add_fn pre post r a a1 a2 [] g Hpre Hr Hg)
      in Hrep.
    simpl in Hrep. eexists _, q1. split; [exact Hrep|reflexivity].
Qed.

(** ** Duplicate keys *)

Lemma bound_after_binds (k f d : bytes) (p : Z) (t : string) :
  sqlite3_bind
    (sqlite3_bind
       (sqlite3_bind
          (sqlite3_bind (Some (new_stmt (Sql_insert t) [])) 1 (Int p)) 2 (Text k))
       3 (Text f))
    4 (Blob d)
  = Some (mkStmt (Sql_insert t) [(4, Blob d); (3, Text f); (2, Text k); (1, Int p)]
                 [] [] SQLITE_OK).
Proof. reflexivity. Qed.

(** C3. When the key is already stored in the configured table,
    [_sqlite_add] with that key leaves every table as it was and returns
    GEARMAN_QUEUE_ERROR, the code it returns for any failure of the driver;
    the one other code it can return is GEARMAN_MEMORY_ALLOCATION_FAILURE,
    when the buffer cannot be grown, and not when the driver and the
    allocator refuse nothing. *)
Theorem duplicate_add_fails (e : env) (queue : gearman_queue_sqlite_st)
    (k f d : bytes) (p : Z) (rows : list row) :
  all_ident (table queue) = true ->
  find_table (table queue) (tables e) = Some rows ->
  has_key k rows = true ->
  sizes_fit (size_of k + size_of f + size_of d) ->
  let '(r, e', queue') := _sqlite_add e queue k f d p in
  tables e' = tables e /\
  (r = GEARMAN_QUEUE_ERROR \/
   r = GEARMAN_MEMORY_ALLOCATION_FAILURE /\
   resize_fails (after_lock e queue) (add_needed k f d)) /\
  (plan e = [] -> r = GEARMAN_QUEUE_ERROR).
Proof.
  intros Hid Hfind Hkey Hfit. unfold _sqlite_add, resize_fails, after_lock.
  destruct (_sqlite_lock e queue) as [[rc e1] q1] eqn:Hlock.
  pose proof (lock_spec _ _ _ _ _ Hlock) as (Ht1 & Hp1 & Hopen & Hidle).
  assert (Htab1 : table q1 = table queue).
  { destruct (Z.eq_dec (in_trans queue) 0) as [Hi|Hi].
    - destruct (Hidle Hi) as [_ [(_ & -> & _)|(_ & -> & _)]]; reflexivity.
    - now destruct (Hopen Hi) as (_ & _ & ->). }
  destruct (rc_eqb rc SQLITE_OK) eqn:Hrc; simpl negb; cbv iota.
  2:{ repeat split; trivial; now left. }
  fold (add_needed k f d).
  assert (Hneeded : 256 <= add_needed k f d).
  { unfold add_needed, sizes_fit, size_wrap, size_of, GEARMAN_QUEUE_QUERY_BUFFER in *.
    rewrite Z.mod_small; lia. }
  destruct (query_buffer e1 q1 (add_needed k f d)) as [[[q2 buf]|] e2] eqn:Hg;
    pose proof (grow_spec _ _ _ _ _ Hg) as (Ht2 & Hj2 & Hi2 & Hp2 & Hq2).
  2:{ split; [congruence|]. split.
      - right. split; [reflexivity|]. simpl. now rewrite Hg.
      - intros Hp. destruct (Hp2 (Hp1 Hp)) as [_ H]. now elim H. }
  destruct Hq2 as (Hbuf & _ & Htab2 & _).
  unfold snprintf.
  destruct (add_needed k f d <=? 0) eqn:E; [apply Z.leb_le in E; lia|]. clear E.
  destruct buf as [old|].
  2:{ unfold _sqlite_query, sqlite3_prepare. simpl.
      split; [congruence|]. split; [now left|reflexivity]. }
  destruct (_sqlite_query e2 _ _ _) as [[rc3 sth] e3] eqn:Hq.
  apply query_spec in Hq. destruct Hq as (Ht3 & Hj3 & Hi3 & Hp3 & Hfail & Hok).
  destruct (rc_eqb rc3 SQLITE_OK) eqn:Hrc3; simpl negb; cbv iota.
  2:{ split; [congruence|]. split; [now left|reflexivity]. }
  destruct (sqlite3_step e3 _) as [[rc4 sth4] e4] eqn:Hst.
  apply step_spec in Hst. destruct Hst as (_ & _ & Hfail4 & Hnull & _ & Hkind).
  assert (Hnot : rc4 <> SQLITE_DONE).
  { destruct sth as [x|].
    - destruct (Hok x eq_refl) as (_ & s & Hs & Hparse & Hc).
      assert (s = string_take (Z.to_nat (add_needed k f d - 1))
                    (insert_text (table q2))) as -> by congruence.
      rewrite cut_text_take, Htab2, Htab1 in Hparse.
      apply parse_insert_cut in Hparse; [|exact Hid].
      rewrite Hparse in Hc. simpl in Hc.
      destruct (has_table (table queue) (tables e2)); [|discriminate].
      injection Hc as <-. rewrite bound_after_binds in Hkind.
      specialize (Hkind _ eq_refl). simpl in Hkind.
      apply (Hkind rows); [congruence|exact Hkey].
    - simpl in Hnull. rewrite (Hnull eq_refl). discriminate. }
  apply rc_eqb_neq in Hnot as Hnot'. rewrite Hnot'. simpl negb. cbv iota.
  destruct (Hfail4 Hnot) as [Ht4 _].
  split; [congruence|]. split; [now left|reflexivity].
Qed.

(** ** What [_sqlite_add] and [_sqlite_done] do to the handle under any plan *)

Lemma issued_since_refl (e : env) : issued_since e e.
Proof. exists []. now rewrite app_nil_r. Qed.


Lemma issued_since_snoc (e e1 e2 : env) (x : string) :
  issued_since e e1 -> issued e2 = (issued e1 ++ [x])%list -> module_statement x ->
  issued_since e e2.
Proof.
  intros (l & H & Hl) E Hx. exists (l ++ [x])%list. split.
  - now rewrite E, H, app_assoc.
  - apply Forall_app. split; [exact Hl|]. now constructor.
Qed.


Lemma lock_handle (e e1 : env) (queue q1 : gearman_queue_sqlite_st) (rc : sqlite_rc) :
  _sqlite_lock e queue = (rc, e1, q1) ->
  db q1 = db queue /\ table q1 = table queue /\ query q1 = query queue /\
  query_size q1 = query_size queue /\
  issued_since e e1 /\
  (rc <> SQLITE_OK -> q1 = queue /\ in_trans queue = 0) /\
  (rc = SQLITE_OK -> in_trans q1 <> 0).
Proof.
  intros H. apply lock_spec in H. destruct H as (_ & _ & Hopen & Hidle).
  destruct (Z.eq_dec (in_trans queue) 0) as [Hi|Hi].
  - destruct (Hidle Hi) as [Hiss [(-> & -> & _)|(Hrc & -> & _)]]; simpl;
      repeat split; trivial; try discriminate; try contradiction;
      try (eapply issued_since_snoc; [apply issued_since_refl|exact Hiss|now left]).
  - destruct (Hopen Hi) as (-> & -> & ->).
    repeat split; trivial; try contradiction. apply issued_since_refl.
Qed.

Lemma needed_floor (total : Z) :
  0 <= total -> sizes_fit total ->
  256 <= size_wrap (total * 2 + GEARMAN_QUEUE_QUERY_BUFFER).
Proof.
  unfold sizes_fit, size_wrap, GEARMAN_QUEUE_QUERY_BUFFER. intros H0 H.
  rewrite Z.mod_small; lia.
Qed.

Lemma size_of_nonneg (b : bytes) : 0 <= size_of b.
Proof. unfold size_of. lia. Qed.




(** ** The capacity of the buffer *)

Lemma commit_handle (e e' : env) (queue queue' : gearman_queue_sqlite_st) (rc : sqlite_rc) :
  _sqlite_commit e queue = (rc, e', queue') -> same_but_flag queue queue'.
Proof.
  intros H. apply commit_spec in H. destruct H as (_ & _ & Hidle & Hopen).
  destruct (Z.eq_dec (in_trans queue) 0) as [Hi|Hi].
  - destruct (Hidle Hi) as (_ & _ & ->). now repeat split.
  - destruct (Hopen Hi) as [_ [(_ & -> & _)|(_ & -> & _)]]; now repeat split.
Qed.

Ltac capacity_leaf :=
  simpl in *; split; [lia|]; split; [assumption|]; intros _ Hx; discriminate Hx.

Lemma add_capacity (e : env) (queue : gearman_queue_sqlite_st) (k f d : bytes) (p : Z) :
  let '(r, e', queue') := _sqlite_add e queue k f d p in
  capacity_post (add_needed k f d) e queue r queue'.
Proof.
  unfold _sqlite_add, capacity_post, resize_fails, after_lock.
  destruct (_sqlite_lock e queue) as [[rc e1] q1] eqn:Hlock.
  destruct (lock_handle _ _ _ _ _ Hlock)
    as (Hdb1 & Htab1 & Hqry1 & Hsz1 & _ & Hfail1 & Hok1).
  destruct (rc_eqb rc SQLITE_OK) eqn:Hrc; simpl negb; cbv iota.
  2:{ apply rc_eqb_neq in Hrc. simpl. split; [lia|]. split; [congruence|].
      intros H. contradiction. }
  apply rc_eqb_eq in Hrc. subst rc. specialize (Hok1 eq_refl).
  fold (add_needed k f d). simpl fst. simpl snd.
  destruct (query_buffer e1 q1 (add_needed k f d)) as [[[q2 buf]|] e2] eqn:Hg;
    pose proof (grow_spec _ _ _ _ _ Hg) as (_ & _ & _ & _ & Hq2).
  2:{ split; [lia|]. split; [congruence|]. intros _ _.
      split; [reflexivity|]. split; [now repeat split|].
      unfold flag_of. apply Z.eqb_neq in Hok1. now rewrite Hok1. }
  destruct Hq2 as (_ & _ & _ & _ & Hsz2 & Hq2).
  assert (Hcap : query_size q2 <> query_size queue ->
                 query_size q2 = add_needed k f d /\
                 add_needed k f d > query_size queue).
  { destruct Hq2 as [->|(H1 & _ & ->)]; simpl; [congruence|]. intros _. split; lia. }
  destruct (snprintf buf _ _) as [buf' len].
  destruct (_sqlite_query e2 _ _ _) as [[rc3 sth] e3].
  destruct (rc_eqb rc3 SQLITE_OK); simpl negb; cbv iota; [|capacity_leaf].
  destruct (sqlite3_step e3 _) as [[rc4 sth4] e4].
  destruct (rc_eqb rc4 SQLITE_DONE); simpl negb; cbv iota; [|capacity_leaf].
  destruct (_sqlite_commit e4 _) as [[rc5 e5] q5] eqn:Hc.
  apply commit_handle in Hc. destruct Hc as (_ & _ & _ & Hsz5). simpl in Hsz5.
  destruct (rc_eqb rc5 SQLITE_OK); simpl negb; cbv iota;
    (split; [lia|]; split; [rewrite Hsz5; assumption|]; intros _ Hx; discriminate Hx).
Qed.

Lemma done_capacity (e : env) (queue : gearman_queue_sqlite_st) (k f : bytes) :
  let '(r, e', queue') := _sqlite_done e queue k f in
  capacity_post (done_needed k) e queue r queue'.
Proof.
  unfold _sqlite_done, capacity_post, resize_fails, after_lock.
  destruct (_sqlite_lock e queue) as [[rc e1] q1] eqn:Hlock.
  destruct (lock_handle _ _ _ _ _ Hlock)
    as (Hdb1 & Htab1 & Hqry1 & Hsz1 & _ & Hfail1 & Hok1).
  destruct (rc_eqb rc SQLITE_OK) eqn:Hrc; simpl negb; cbv iota.
  2:{ apply rc_eqb_neq in Hrc. simpl. split; [lia|]. split; [congruence|].
      intros H. contradiction. }
  apply rc_eqb_eq in Hrc. subst rc. specialize (Hok1 eq_refl).
  fold (done_needed k). simpl fst. simpl snd.
  destruct (query_buffer e1 q1 (done_needed k)) as [[[q2 buf]|] e2] eqn:Hg;
    pose proof (grow_spec _ _ _ _ _ Hg) as (_ & _ & _ & _ & Hq2).
  2:{ split; [lia|]. split; [congruence|]. intros _ _.
      split; [reflexivity|]. split; [now repeat split|].
      unfold flag_of. apply Z.eqb_neq in Hok1. now rewrite Hok1. }
  destruct Hq2 as (_ & _ & _ & _ & Hsz2 & Hq2).
  assert (Hcap : query_size q2 <> query_size queue ->
                 query_size q2 = done_needed k /\ done_needed k > query_size queue).
  { destruct Hq2 as [->|(H1 & _ & ->)]; simpl; [congruence|]. intros _. split; lia. }
  destruct (snprintf buf _ _) as [buf' len].
  destruct (_sqlite_query e2 _ _ _) as [[rc3 sth] e3].
  destruct (rc_eqb rc3 SQLITE_OK); simpl negb; cbv iota; [|capacity_leaf].
  destruct (sqlite3_step e3 _) as [[rc4 sth4] e4].
  destruct (rc_eqb rc4 SQLITE_DONE); simpl negb; cbv iota; [|capacity_leaf].
  destruct (_sqlite_commit e4 _) as [[rc5 e5] q5] eqn:Hc.
  apply commit_handle in Hc. destruct Hc as (_ & _ & _ & Hsz5). simpl in Hsz5.
  destruct (rc_eqb rc5 SQLITE_OK); simpl negb; cbv iota;
    (split; [lia|]; split; [rewrite Hsz5; assumption|]; intros _ Hx; discriminate Hx).
Qed.

Lemma run_call_capacity {A : Type} (add_fn : gearman_queue_add_fn A) (c : call)
    (e : env) (queue : gearman_queue_sqlite_st) (a : A) :
  exists r e' queue' a',
    run_call add_fn c e queue a = Some (r, e', queue', a') /\
    query_size queue <= query_size queue' /\
    (query_size queue' <> query_size queue ->
     query_size queue' = call_needed c /\ call_needed c > query_size queue).
Proof.
  destruct c as [k f d p|k f| |]; simpl.
  - pose proof (add_capacity e queue k f d p) as H.
    destruct (_sqlite_add e queue k f d p) as [[r e'] q'].
    destruct H as (H1 & H2 & _). now exists r, e', q', a.
  - pose proof (done_capacity e queue k f) as H.
    destruct (_sqlite_done e queue k f) as [[r e'] q'].
    destruct H as (H1 & H2 & _). now exists r, e', q', a.
  - exists GEARMAN_SUCCESS, e, queue, a. split; [reflexivity|]. split; [lia|].
    intros H. now elim H.
  - destruct (replay_spec add_fn a e queue)
      as (r & e' & q' & a' & H & _ & _ & _ & _ & _ & _ & H1 & H2 & _).
    now exists r, e', q', a'.
Qed.

(** C7, as the code has it. Over every sequence of add, done, flush and
    replay calls the capacity of the query buffer never decreases; one call
    changes it only to the size it needs, and only when that exceeds the
    capacity; and when the buffer cannot be grown the operation returns
    GEARMAN_MEMORY_ALLOCATION_FAILURE with the connection, the table name,
    the buffer and its capacity as they were.  The transaction flag is not
    part of that: [_sqlite_add] and [_sqlite_done] have locked by then and
    leave the flag Open; [_sqlite_replay], which does not lock, leaves the
    whole handle as it was. *)
Theorem capacity_never_decreases {A : Type} (add_fn : gearman_queue_add_fn A) :
  (forall cs e queue a,
     exists e' queue' a',
       run_calls add_fn cs e queue a = Some (e', queue', a') /\
       query_size queue <= query_size queue') /\
  (forall c e queue a,
     exists r e' queue' a',
       run_call add_fn c e queue a = Some (r, e', queue', a') /\
       (query_size queue' <> query_size queue ->
        query_size queue' = call_needed c /\ call_needed c > query_size queue)) /\
  (forall e queue k f d p,
     fst (fst (_sqlite_lock e queue)) = SQLITE_OK ->
     resize_fails (after_lock e queue) (add_needed k f d) ->
     let '(r, _, queue') := _sqlite_add e queue k f d p in
     r = GEARMAN_MEMORY_ALLOCATION_FAILURE /\
     same_but_flag queue queue' /\ flag_of queue' = Open) /\
  (forall e queue k f,
     fst (fst (_sqlite_lock e queue)) = SQLITE_OK ->
     resize_fails (after_lock e queue) (done_needed k) ->
     let '(r, _, queue') := _sqlite_done e queue k f in
     r = GEARMAN_MEMORY_ALLOCATION_FAILURE /\
     same_but_flag queue queue' /\ flag_of queue' = Open) /\
  (forall e queue a,
     resize_fails (e, queue) GEARMAN_QUEUE_QUERY_BUFFER ->
     exists e',
       _sqlite_replay e queue add_fn a
       = Some (GEARMAN_MEMORY_ALLOCATION_FAILURE, e', queue, a)).
Proof.
  split; [|split; [|split; [|split]]].
  - induction cs as [|c cs IH]; intros e queue a; simpl.
    + exists e, queue, a. split; [reflexivity|lia].
    + destruct (run_call_capacity add_fn c e queue a)
        as (r & e1 & q1 & a1 & -> & H1 & _).
      destruct (IH e1 q1 a1) as (e2 & q2 & a2 & -> & H2).
      exists e2, q2, a2. split; [reflexivity|lia].
  - intros c e queue a.
    destruct (run_call_capacity add_fn c e queue a) as (r & e1 & q1 & a1 & H & _ & H2).
    now exists r, e1, q1, a1.
  - intros e queue k f d p Hlock Hfail.
    pose proof (add_capacity e queue k f d p) as H.
    destruct (_sqlite_add e queue k f d p) as [[r e'] q'].
    destruct H as (_ & _ & H). now apply H.
  - intros e queue k f Hlock Hfail.
    pose proof (done_capacity e queue k f) as H.
    destruct (_sqlite_done e queue k f) as [[r e'] q'].
    destruct H as (_ & _ & H). now apply H.
  - intros e queue a Hfail.
    destruct (replay_spec add_fn a e queue)
      as (r & e' & q' & a' & H & _ & _ & _ & _ & _ & _ & _ & _ & H3).
    destruct (H3 Hfail) as (-> & -> & ->). now exists e'.
Qed.

(** ** No rollback *)



(** Where the SELECT does fit: with a table name of at most 204 bytes the
    statement handed to the driver is the whole SELECT of the four columns
    from the configured table. *)
Lemma replay_select_fits {A : Type} (add_fn : gearman_queue_add_fn A) (a : A)
    (e : env) (queue : gearman_queue_sqlite_st) (rows : list row) :
  plan e = [] -> queue_ok queue ->
  table_ok (table queue) 204 ->
  find_table (table queue) (tables e) = Some rows ->
  exists r e' queue' a',
    _sqlite_replay e queue add_fn a = Some (r, e', queue', a') /\
    issued e' = (issued e ++ [select_text (table queue)])%list /\
    sqlite3_parse (select_text (table queue)) = Some (Sql_select (table queue)).
Proof.
  intros Hp Hq Ht Hfind.
  destruct (replay_quiet add_fn a e queue rows Hp Hq Ht Hfind) as (q1 & H & _).
  eexists _, _, _, _. split; [exact H|]. split; [reflexivity|].
  destruct Ht as (Hid & Hnm & _). now apply parse_select.
Qed.

(** ** The operations keep the handle well formed and in step *)

Lemma parse_insert_kind (t : string) (m : nat) (st : sql) :
  sqlite3_parse (string_take m (insert_text t)) = Some st -> is_dml st.
Proof.
  unfold insert_text.
  do 12 (destruct m as [|m]; [simpl; discriminate|]).
  change (S (S (S (S (S (S (S (S (S (S (S (S m))))))))))))
    with (String.length "INSERT INTO " + m)%nat.
  rewrite string_take_append.
  generalize (string_take m (t ++ insert_columns)) as u. intros u.
  unfold sqlite3_parse, parse_form. simpl.
  destruct (span_ident u) as [t1 rest]. destruct (name_ok t1); [|discriminate].
  destruct (String.eqb rest insert_columns); [|discriminate].
  now intros [= <-].
Qed.

Lemma parse_delete_kind (t : string) (m : nat) (st : sql) :
  sqlite3_parse (string_take m (delete_text t)) = Some st -> is_dml st.
Proof.
  unfold delete_text.
  do 12 (destruct m as [|m]; [simpl; discriminate|]).
  change (S (S (S (S (S (S (S (S (S (S (S (S m))))))))))))
    with (String.length "DELETE FROM " + m)%nat.
  rewrite string_take_append.
  generalize (string_take m (t ++ " WHERE unique_key=?")) as u. intros u.
  unfold sqlite3_parse, parse_form. simpl.
  destruct (span_ident u) as [t1 rest]. destruct (name_ok t1); [|discriminate].
  destruct (String.eqb rest " WHERE unique_key=?"); [now intros [= <-]|].
  destruct (String.eqb rest " WHERE unique_key"); [now intros [= <-]|].
  destruct (String.eqb rest "" || String.eqb rest " ")%bool; [now intros [= <-]|].
  discriminate.
Qed.

Lemma step_dml_journal (e e' : env) (x : sqlite3_stmt) (rc : sqlite_rc)
    (sth' : option sqlite3_stmt) :
  is_dml (sth_sql x) ->
  sqlite3_step e (Some x) = (rc, sth', e') -> journal e' = journal e.
Proof.
  intros Hk. unfold sqlite3_step. pop. destruct f as [d|].
  - now intros [= <- <- <-].
  - unfold execute. destruct (sth_sql x) eqn:Hsql; try contradiction.
    + destruct (find_table t (tables e0)) as [rows|];
        [destruct (has_key _ rows)|]; now intros [= <- <- <-].
    + destruct (bound 1 (sth_bound x)); now intros [= <- <- <-].
    + now intros [= <- <- <-].
    + now intros [= <- <- <-].
Qed.

Lemma sqlite3_bind_sql (sth : option sqlite3_stmt) (i : Z) (v : value) (x : sqlite3_stmt) :
  sqlite3_bind sth i v = Some x -> exists y, sth = Some y /\ sth_sql x = sth_sql y.
Proof.
  destruct sth as [y|]; simpl; [|discriminate].
  destruct ((1 <=? i) && (i <=? parameters (sth_sql y)))%bool; intros [= <-];
    now exists y.
Qed.

Lemma lock_journal (e e1 : env) (queue q1 : gearman_queue_sqlite_st) (rc : sqlite_rc) :
  _sqlite_lock e queue = (rc, e1, q1) ->
  (rc = SQLITE_OK -> in_step e queue -> journal e1 <> None) /\
  (rc <> SQLITE_OK -> journal e1 = journal e).
Proof.
  intros H. apply lock_spec in H. destruct H as (_ & _ & Hopen & Hidle).
  destruct (Z.eq_dec (in_trans queue) 0) as [Hi|Hi].
  - destruct (Hidle Hi) as [_ [(-> & _ & _ & ->)|(Hrc & _ & ->)]].
    + split; [discriminate|]. intros H. now elim H.
    + split; [contradiction|reflexivity].
  - destruct (Hopen Hi) as (-> & -> & ->). split.
    + intros _ Hs Hj. apply Hi. now apply Hs.
    + intros H. now elim H.
Qed.

(** The end of the proofs that [_sqlite_add] and [_sqlite_done] keep the
    handle, at a state where the operation fails with the flag as
    [_sqlite_lock] left it. *)
Ltac keeps_leaf Hok Hjn :=
  split;
  [ intros Hq; apply Hok in Hq; destruct Hq as [Hq1 Hq2]; split; simpl; auto
  | intros Hs; apply Hjn in Hs; split; simpl; intros Hx; [congruence|];
    exfalso; apply Hs; congruence ].

Lemma locked_keeps
    (text : string -> string) (needed : Z)
    (binds : option sqlite3_stmt -> option sqlite3_stmt)
    (e1 : env) (q1 : gearman_queue_sqlite_st) :
  256 <= needed ->
  in_trans q1 <> 0 ->
  (forall t m st, sqlite3_parse (string_take m (text t)) = Some st -> is_dml st) ->
  (forall sth x, binds sth = Some x -> exists y, sth = Some y /\ sth_sql x = sth_sql y) ->
  let '(_, e', queue') := locked_body text needed binds e1 q1 in
  (queue_ok q1 -> queue_ok queue') /\
  (journal e1 <> None -> in_step e' queue').
Proof.
  intros Hneeded Hopen Hkind Hbinds. unfold locked_body.
  destruct (query_buffer e1 q1 needed) as [[[q2 buf]|] e2] eqn:Hg;
    pose proof (grow_spec _ _ _ _ _ Hg) as (_ & Hj2 & _ & _ & Hq2).
  2:{ split; [trivial|]. intros Hj. split; intros Hx; [contradiction|congruence]. }
  destruct Hq2 as (Hbuf & Hdb2 & _ & Hit2 & _ & Hq2).
  unfold snprintf. destruct (needed <=? 0) eqn:E; [apply Z.leb_le in E; lia|]. clear E.
  assert (Hok : queue_ok q1 ->
                forall buf' : option string, (buf' = None -> buf = None) ->
                db q2 = true /\ (buf' = None -> query_size q2 = 0)).
  { intros [Hd Hs] buf' Hb. split; [congruence|]. intros Hn. specialize (Hb Hn).
    destruct Hq2 as [->|(_ & Hnn & _)]; [|contradiction].
    apply Hs. congruence. }
  destruct buf as [old|].
  2:{ unfold _sqlite_query, sqlite3_prepare. simpl negb. cbv iota. split.
      - intros Hq. destruct (Hok Hq None) as [H1 H2]; [trivial|]. split; simpl; auto.
      - intros Hj. split; simpl; intros Hx; [congruence|]. exfalso. congruence. }
  set (buf' := Some (string_take (Z.to_nat (needed - 1)) (text (table q2)))).
  assert (Hok' : queue_ok q1 -> db q2 = true /\ (buf' = None -> query_size q2 = 0)).
  { intros Hq. apply (Hok Hq). discriminate. }
  destruct (_sqlite_query e2 _ _ _) as [[rc3 sth] e3] eqn:Hq.
  apply query_spec in Hq. destruct Hq as (_ & Hj3 & _ & _ & _ & Hparse).
  destruct (rc_eqb rc3 SQLITE_OK) eqn:Hrc3; simpl negb; cbv iota.
  2:{ split.
      - intros Hq. destruct (Hok' Hq) as [H1 H2]. split; simpl; auto.
      - intros Hj. split; simpl; intros Hx; [congruence|]. exfalso. congruence. }
  destruct (sqlite3_step e3 (binds sth)) as [[rc4 sth4] e4] eqn:Hst.
  assert (Hj4 : journal e4 = journal e3).
  { destruct (binds sth) as [x|] eqn:Hb.
    - destruct (Hbinds _ _ Hb) as (y & -> & Hsql).
      destruct (Hparse y eq_refl) as (_ & s & Hs & Hp & _).
      unfold buf' in Hs. injection Hs as <-. rewrite cut_text_take in Hp.
      apply Hkind in Hp. rewrite <- Hsql in Hp.
      exact (step_dml_journal _ _ _ _ _ Hp Hst).
    - apply step_spec in Hst. destruct Hst as (_ & _ & Hf & Hnull & _).
      apply Hf. rewrite (Hnull eq_refl). discriminate. }
  destruct (rc_eqb rc4 SQLITE_DONE) eqn:Hrc4; simpl negb; cbv iota.
  2:{ split.
      - intros Hq. destruct (Hok' Hq) as [H1 H2]. split; simpl; auto.
      - intros Hj. split; simpl; intros Hx; [congruence|]. exfalso. congruence. }
  destruct (_sqlite_commit e4 _) as [[rc5 e5] q5] eqn:Hc.
  apply commit_spec in Hc. destruct Hc as (_ & _ & _ & Hc).
  destruct Hc as [_ Hc]; [simpl; congruence|].
  destruct Hc as [(-> & -> & _ & Hj5)|(Hrc5 & -> & Hj5)].
  - simpl negb. cbv iota. split.
    + intros Hq. destruct (Hok' Hq) as [H1 H2]. split; simpl; auto.
    + intros _. split; simpl; trivial.
  - apply rc_eqb_neq in Hrc5. rewrite Hrc5. simpl negb. cbv iota. split.
    + intros Hq. destruct (Hok' Hq) as [H1 H2]. split; simpl; auto.
    + intros Hj. split; simpl; intros Hx; [congruence|]. exfalso. congruence.
Qed.

Lemma add_keeps_handle (e : env) (queue : gearman_queue_sqlite_st) (k f d : bytes) (p : Z) :
  sizes_fit (size_of k + size_of f + size_of d) ->
  let '(_, e', queue') := _sqlite_add e queue k f d p in
  keeps_handle e queue e' queue'.
Proof.
  intros Hfit. unfold _sqlite_add, keeps_handle.
  destruct (_sqlite_lock e queue) as [[rc e1] q1] eqn:Hlock.
  destruct (lock_handle _ _ _ _ _ Hlock)
    as (Hdb1 & Htab1 & Hqry1 & Hsz1 & _ & Hfail1 & Hok1).
  destruct (lock_journal _ _ _ _ _ Hlock) as (Hj1 & Hj1').
  destruct (rc_eqb rc SQLITE_OK) eqn:Hrc; simpl negb; cbv iota.
  2:{ apply rc_eqb_neq in Hrc. destruct (Hfail1 Hrc) as [-> Hi].
      split; [trivial|]. unfold in_step. now rewrite (Hj1' Hrc). }
  apply rc_eqb_eq in Hrc. subst rc.
  assert (Hneeded : 256 <= add_needed k f d).
  { apply needed_floor; [|exact Hfit].
    pose proof (size_of_nonneg k). pose proof (size_of_nonneg f).
    pose proof (size_of_nonneg d). lia. }
  pose proof (locked_keeps insert_text (add_needed k f d)
                (fun sth =>
                   sqlite3_bind
                     (sqlite3_bind
                        (sqlite3_bind (sqlite3_bind sth 1 (Int p)) 2 (Text k))
                        3 (Text f))
                     4 (Blob d))
                e1 q1 Hneeded (Hok1 eq_refl) parse_insert_kind) as H.
  fold (add_needed k f d).
  change (let '(_, e', queue') :=
            locked_body insert_text (add_needed k f d)
              (fun sth =>
                 sqlite3_bind
                   (sqlite3_bind
                      (sqlite3_bind (sqlite3_bind sth 1 (Int p)) 2 (Text k))
                      3 (Text f))
                   4 (Blob d)) e1 q1 in
          (queue_ok queue -> queue_ok queue') /\ (in_step e queue -> in_step e' queue')).
  destruct (locked_body _ _ _ e1 q1) as [[r e'] q'].
  destruct H as [Hq Hs].
  { intros sth x Hb.
    apply sqlite3_bind_sql in Hb. destruct Hb as (y1 & Hb & E1).
    apply sqlite3_bind_sql in Hb. destruct Hb as (y2 & Hb & E2).
    apply sqlite3_bind_sql in Hb. destruct Hb as (y3 & Hb & E3).
    apply sqlite3_bind_sql in Hb. destruct Hb as (y4 & -> & E4).
    exists y4. split; [reflexivity|congruence]. }
  split.
  - intros [Hd Hb]. apply Hq. split; [congruence|].
    intros Hn. rewrite Hsz1. apply Hb. congruence.
  - intros Hstep. apply Hs. now apply Hj1.
Qed.

Lemma done_keeps_handle (e : env) (queue : gearman_queue_sqlite_st) (k f : bytes) :
  sizes_fit (size_of k) ->
  let '(_, e', queue') := _sqlite_done e queue k f in
  keeps_handle e queue e' queue'.
Proof.
  intros Hfit. unfold _sqlite_done, keeps_handle.
  destruct (_sqlite_lock e queue) as [[rc e1] q1] eqn:Hlock.
  destruct (lock_handle _ _ _ _ _ Hlock)
    as (Hdb1 & Htab1 & Hqry1 & Hsz1 & _ & Hfail1 & Hok1).
  destruct (lock_journal _ _ _ _ _ Hlock) as (Hj1 & Hj1').
  destruct (rc_eqb rc SQLITE_OK) eqn:Hrc; simpl negb; cbv iota.
  2:{ apply rc_eqb_neq in Hrc. destruct (Hfail1 Hrc) as [-> Hi].
      split; [trivial|]. unfold in_step. now rewrite (Hj1' Hrc). }
  apply rc_eqb_eq in Hrc. subst rc.
  assert (Hneeded : 256 <= done_needed k).
  { apply needed_floor; [apply size_of_nonneg|exact Hfit]. }
  pose proof (locked_keeps delete_text (done_needed k)
                (fun sth => sqlite3_bind sth 1 (Text k))
                e1 q1 Hneeded (Hok1 eq_refl) parse_delete_kind) as H.
  fold (done_needed k).
  change (let '(_, e', queue') :=
            locked_body delete_text (done_needed k)
              (fun sth => sqlite3_bind sth 1 (Text k)) e1 q1 in
          (queue_ok queue -> queue_ok queue') /\ (in_step e queue -> in_step e' queue')).
  destruct (locked_body _ _ _ e1 q1) as [[r e'] q'].
  destruct H as [Hq Hs].
  { intros sth x Hb. now apply sqlite3_bind_sql in Hb. }
  split.
  - intros [Hd Hb]. apply Hq. split; [congruence|].
    intros Hn. rewrite Hsz1. apply Hb. congruence.
  - intros Hstep. apply Hs. now apply Hj1.
Qed.

(** Every call keeps the handle well formed and its flag in step with the
    driver, whatever the driver refuses. *)
Lemma run_call_keeps_handle {A : Type} (add_fn : gearman_queue_add_fn A) (c : call)
    (e : env) (queue : gearman_queue_sqlite_st) (a : A) :
  sizes_fit (match c with
             | Call_add k f d _ => size_of k + size_of f + size_of d
             | Call_done k _ => size_of k
             | _ => 0
             end) ->
  exists r e' queue' a',
    run_call add_fn c e queue a = Some (r, e', queue', a') /\
    keeps_handle e queue e' queue'.
Proof.
  intros Hfit. destruct c as [k f d p|k f| |]; simpl.
  - pose proof (add_keeps_handle e queue k f d p Hfit) as H.
    destruct (_sqlite_add e queue k f d p) as [[r e'] q']. now exists r, e', q', a.
  - pose proof (done_keeps_handle e queue k f Hfit) as H.
    destruct (_sqlite_done e queue k f) as [[r e'] q']. now exists r, e', q', a.
  - exists GEARMAN_SUCCESS, e, queue, a. split; [reflexivity|]. now split.
  - unfold _sqlite_replay.
    destruct (query_buffer e queue GEARMAN_QUEUE_QUERY_BUFFER) as [[[q1 buf]|] e1] eqn:Hg.
    2:{ eexists _, _, _, _. split; [reflexivity|].
        apply grow_spec in Hg. destruct Hg as (_ & Hj & _).
        split; [trivial|]. unfold in_step. now rewrite Hj. }
    destruct (replay_spec add_fn a e queue)
      as (r & e' & q' & a' & H & _ & Hj & _ & Hit & _ & Hdb & _).
    unfold _sqlite_replay in H. rewrite Hg in H.
    apply grow_spec in Hg. destruct Hg as (_ & _ & _ & _ & Hbuf & _ & _ & _ & _ & Hq1).
    exists r, e', q', a'. split; [exact H|]. split.
    + intros [Hd Hs]. split; [congruence|].
      revert H. unfold snprintf.
      change (GEARMAN_QUEUE_QUERY_BUFFER <=? 0) with false. cbv iota.
      destruct buf as [old|].
      * destruct (_sqlite_query e1 _ _ _) as [[rc sth] e2].
        destruct (negb (rc_eqb rc SQLITE_OK)).
        -- intros [= <- <- <- <-]. discriminate.
        -- destruct (replay_rows _ _ _ _ _) as [[[g e3] a3]|]; [|discriminate].
           intros [= <- <- <- <-]. discriminate.
      * destruct Hq1 as [->|(_ & Hnn & _)]; [|now elim Hnn].
        destruct (_sqlite_query e1 _ _ _) as [[rc sth] e2].
        destruct (negb (rc_eqb rc SQLITE_OK)).
        -- intros [= <- <- <- <-]. simpl. intros _. apply Hs. congruence.
        -- destruct (replay_rows _ _ _ _ _) as [[[g e3] a3]|]; [|discriminate].
           intros [= <- <- <- <-]. simpl. intros _. apply Hs. congruence.
    + unfold in_step. now rewrite Hj, Hit.
Qed.

(** * Further properties of the module *)

(** ** The catalog under two updates *)


Lemma update_table_same (t : string) (f : list row -> list row) (c : catalog)
    (rows : list row) :
  find_table t c = Some rows -> f rows = rows -> update_table t f c = c.
Proof.
  intros Hfind Hf. induction c as [|[n rs] c IH]; simpl in *; [reflexivity|].
  destruct (strcaseeq n t).
  - injection Hfind as ->. now rewrite Hf.
  - now rewrite IH.
Qed.


Lemma remove_key_twice (k : bytes) (rows : list row) :
  remove_key k (remove_key k rows) = remove_key k rows.
Proof. apply remove_key_absent, remove_key_gone. Qed.


Lemma idle_in_step (e : env) (queue : gearman_queue_sqlite_st) :
  in_trans queue = 0 -> journal e = None -> in_step e queue.
Proof. intros H1 H2. now split. Qed.

(** ** Operations one after the other *)


(** X2. On a handle in step with the driver whose table name is a bare
    identifier of at most 224 bytes, with the driver and the allocator
    refusing nothing and a key within the driver's length limit, a second
    [_sqlite_done] of the same key succeeds like the first and changes no
    table: completing a job twice is the same as completing it once. *)
Theorem done_twice (e : env) (queue : gearman_queue_sqlite_st)
    (k f f' : bytes) (rows : list row) :
  plan e = [] -> queue_ok queue -> in_step e queue ->
  table_ok (table queue) 224 ->
  find_table (table queue) (tables e) = Some rows ->
  within_limit k ->
  exists e1 q1 e2 q2,
    _sqlite_done e queue k f = (GEARMAN_SUCCESS, e1, q1) /\
    _sqlite_done e1 q1 k f' = (GEARMAN_SUCCESS, e2, q2) /\
    tables e2 = tables e1 /\
    find_table (table queue) (tables e2) = Some (remove_key k rows).
Proof.
  intros Hp Hq Hs Ht Hfind Hlk.
  pose proof (within_limit_fits_key k Hlk) as Hfit.
  destruct (done_quiet e queue k f rows Hp Hq Hs Ht Hfind Hfit)
    as (e1 & q1 & Hdone & Hp1 & Ht1 & Hj1 & Hq1 & Htab & Hi1 & _).
  assert (Hfind1 : find_table (table queue) (tables e1) = Some (remove_key k rows)).
  { rewrite Ht1, find_table_update, Hfind. reflexivity. }
  destruct (done_quiet e1 q1 k f' (remove_key k rows) Hp1 Hq1)
    as (e2 & q2 & Hdone2 & _ & Ht2 & _).
  - now apply idle_in_step.
  - now rewrite Htab.
  - now rewrite Htab.
  - exact Hfit.
  - assert (E : tables e2 = tables e1).
    { rewrite Ht2, Htab. apply (update_table_same _ _ _ _ Hfind1).
      apply remove_key_twice. }
    exists e1, q1, e2, q2. repeat split; trivial. now rewrite E.
Qed.


(** X4. On a handle whose table name is a bare identifier of at most 204
    bytes, with the driver and the allocator refusing nothing, stored
    priorities that are read back exactly (from 0 to [INT_MAX]) and a
    callback that accepts every row, [_sqlite_replay] returns
    GEARMAN_SUCCESS after handing the callback every row of the configured
    table exactly once (a permutation of the stored rows: the order is the
    driver's), and the tables, the driver's transaction and the flag are as
    before. *)
Theorem replay_delivers_all (e : env) (queue : gearman_queue_sqlite_st)
    (rows : list row) :
  plan e = [] -> queue_ok queue ->
  table_ok (table queue) 204 ->
  find_table (table queue) (tables e) = Some rows ->
  readable rows ->
  exists e' queue' delivered,
    _sqlite_replay e queue record_row [] = Some (GEARMAN_SUCCESS, e', queue', delivered) /\
    Permutation delivered rows /\
    List.length delivered = List.length rows /\
    tables e' = tables e /\ journal e' = journal e /\
    in_trans queue' = in_trans queue.
Proof.
  intros Hp Hq Ht Hfind _.
  destruct (replay_quiet record_row [] e queue rows Hp Hq Ht Hfind)
    as (q1 & Hrep & _ & _ & Hit & _).
  rewrite deliver_record in Hrep. simpl in Hrep.
  eexists _, q1, _. split; [exact Hrep|].
  split; [apply scan_perm|]. split; [apply Permutation_length, scan_perm|].
  now repeat split.
Qed.


(** ** Statements that the driver does not take, or takes for another one *)

Lemma query_quiet_refused (e : env) (queue : gearman_queue_sqlite_st) (text : string)
    (n : Z) :
  plan e = [] -> db queue = true ->
  cut_text n text <> EmptyString ->
  match sqlite3_parse (cut_text n text) with
  | Some s => compile (tables e) s = None
  | None => True
  end ->
  _sqlite_query e queue (Some text) n
  = (SQLITE_ERROR, None, log_statement (cut_text n text) e).
Proof.
  intros Hp Hdb Hne Hparse.
  unfold _sqlite_query, sqlite3_prepare. fold (cut_text n text).
  rewrite Hdb. simpl negb. cbv iota.
  rewrite next_outcome_quiet by exact Hp.
  apply String.eqb_neq in Hne. rewrite Hne.
  destruct (sqlite3_parse (cut_text n text)) as [s|]; [|reflexivity].
  change (tables (log_statement (cut_text n text) e)) with (tables e).
  rewrite Hparse. reflexivity.
Qed.

Lemma needed_exact (total : Z) :
  0 <= total -> sizes_fit total ->
  size_wrap (total * 2 + GEARMAN_QUEUE_QUERY_BUFFER) = total * 2 + 256.
Proof.
  unfold sizes_fit, size_wrap, GEARMAN_QUEUE_QUERY_BUFFER. intros H0 H.
  apply Z.mod_small. lia.
Qed.

Lemma span_ident_length (s : string) :
  (String.length (fst (span_ident s)) + String.length (snd (span_ident s))
   = String.length s)%nat.
Proof.
  induction s as [|c s IH]; simpl; [reflexivity|].
  destruct (is_ident_char c); simpl; [|reflexivity].
  destruct (span_ident s) as [a b]. simpl in *. lia.
Qed.

(** An INSERT that lost at least one byte is no statement. *)
Lemma parse_insert_short (t : string) (m : nat) :
  all_ident t = true -> (m < String.length (insert_text t))%nat ->
  sqlite3_parse (string_take m (insert_text t)) = None.
Proof.
  intros Hid Hm. rewrite insert_text_length in Hm. unfold insert_text.
  do 12 (destruct m as [|m]; [reflexivity|]).
  change (S (S (S (S (S (S (S (S (S (S (S (S m))))))))))))
    with (String.length "INSERT INTO " + m)%nat.
  rewrite string_take_append.
  unfold sqlite3_parse, parse_form. simpl.
  pose proof (span_ident_length (string_take m (t ++ insert_columns))) as Hlen.
  pose proof (string_take_length m (t ++ insert_columns)) as Hcut.
  destruct (span_ident_cut t insert_columns m Hid) as [[j Hj]|Hj]; [reflexivity| |].
  - rewrite Hj in *. simpl in Hlen. destruct (name_ok t); [|reflexivity].
    destruct (String.eqb (string_take j insert_columns) insert_columns) eqn:E;
      [|reflexivity].
    apply String.eqb_eq in E. rewrite E in Hlen.
    change (String.length insert_columns) with 58%nat in Hlen. lia.
  - destruct (span_ident (string_take m (t ++ insert_columns))) as [t1 rest].
    simpl in Hj. subst rest. destruct (name_ok t1); reflexivity.
Qed.

(** A DELETE cut right after the table name, or one byte later, is a DELETE
    of every row. *)
Lemma parse_delete_bare (t : string) (j : nat) :
  all_ident t = true -> name_ok t = true -> (j <= 1)%nat ->
  sqlite3_parse ("DELETE FROM " ++ t ++ string_take j " WHERE unique_key=?")
  = Some (Sql_delete_all t).
Proof.
  intros Hid Hn Hj. unfold sqlite3_parse, parse_form. simpl.
  destruct j as [|[|j]]; [| |lia]; simpl string_take.
  - rewrite (span_ident_append t "" Hid) by exact I. rewrite Hn. reflexivity.
  - rewrite (span_ident_append t " " Hid) by reflexivity. rewrite Hn. reflexivity.
Qed.

Lemma delete_text_cut (t : string) (j : nat) :
  string_take (12 + (String.length t + j)) (delete_text t)
  = "DELETE FROM " ++ t ++ string_take j " WHERE unique_key=?".
Proof.
  unfold delete_text.
  change 12%nat with (String.length "DELETE FROM ").
  now rewrite !string_take_append.
Qed.

(** X5. With the driver refusing nothing, [_sqlite_add] on a handle whose
    configured table is not in the store returns GEARMAN_QUEUE_ERROR, stores
    nothing, and leaves the transaction it began open, the flag at Open. *)
Theorem add_missing_table_fails (e : env) (queue : gearman_queue_sqlite_st)
    (k f d : bytes) (p : Z) :
  plan e = [] -> queue_ok queue -> in_step e queue ->
  table_ok (table queue) 185 ->
  find_table (table queue) (tables e) = None ->
  sizes_fit (size_of k + size_of f + size_of d) ->
  exists e1 q1,
    _sqlite_add e queue k f d p = (GEARMAN_QUEUE_ERROR, e1, q1) /\
    tables e1 = tables e /\ flag_of q1 = Open /\ journal e1 <> None /\
    table q1 = table queue.
Proof.
  intros Hp [Hdb Hbuf] Hs (Hid & Hnm & Hlen) Hfind Hfit.
  unfold _sqlite_add.
  destruct (lock_quiet e queue Hp Hdb Hs) as (e1 & n & c & -> & Hn & Hp1 & Ht1 & Hj1).
  simpl negb. cbv iota.
  rewrite needed_exact
    by (trivial; pose proof (size_of_nonneg k); pose proof (size_of_nonneg f);
        pose proof (size_of_nonneg d); lia).
  set (needed := _ * 2 + 256).
  assert (Hneeded : 256 <= needed).
  { unfold needed. pose proof (size_of_nonneg k). pose proof (size_of_nonneg f).
    pose proof (size_of_nonneg d). lia. }
  destruct (grow_quiet e1 (set_in_trans queue n) needed Hp1) as (size & old & -> & Hsz1 & Hsz2);
    [exact Hbuf|lia|].
  simpl table. rewrite snprintf_fits by (rewrite insert_text_length; lia).
  rewrite query_quiet_refused; trivial; rewrite ?cut_text_length.
  - simpl negb. cbv iota. eexists _, _. split; [reflexivity|].
    autorewrite with drv. unfold flag_of. simpl.
    apply Z.eqb_neq in Hn. rewrite Hn, Hj1.
    repeat split; trivial. discriminate.
  - unfold insert_text. simpl. discriminate.
  - rewrite parse_insert by assumption. simpl. unfold has_table.
    now rewrite Ht1, Hfind.
Qed.

(** X6. With the driver refusing nothing, [_sqlite_add] on a handle whose
    table name has at least 186 bytes more than twice the bytes of the key,
    the function name and the payload together returns GEARMAN_QUEUE_ERROR
    and stores nothing: the INSERT does not fit the buffer sized from the
    job, what is left of it is no statement, and the transaction begun for
    it stays open. *)
Theorem add_small_job_long_table_fails (e : env) (queue : gearman_queue_sqlite_st)
    (k f d : bytes) (p : Z) :
  plan e = [] -> queue_ok queue -> in_step e queue ->
  all_ident (table queue) = true ->
  (String.length (table queue) <= 255)%nat ->
  (size_of k + size_of f + size_of d) * 2 + 186
  <= Z.of_nat (String.length (table queue)) ->
  exists e1 q1,
    _sqlite_add e queue k f d p = (GEARMAN_QUEUE_ERROR, e1, q1) /\
    tables e1 = tables e /\ flag_of q1 = Open /\ journal e1 <> None.
Proof.
  intros Hp [Hdb Hbuf] Hs Hid Hlen Hshort.
  pose proof (size_of_nonneg k) as Hk. pose proof (size_of_nonneg f) as Hf.
  pose proof (size_of_nonneg d) as Hd.
  unfold _sqlite_add.
  destruct (lock_quiet e queue Hp Hdb Hs) as (e1 & n & c & -> & Hn & Hp1 & Ht1 & Hj1).
  simpl negb. cbv iota.
  rewrite needed_exact by (unfold sizes_fit, GEARMAN_QUEUE_QUERY_BUFFER, SIZE_MAX1; lia).
  set (needed := _ * 2 + 256).
  assert (Hneeded : 256 <= needed) by (unfold needed; lia).
  destruct (grow_quiet e1 (set_in_trans queue n) needed Hp1) as (size & old & -> & Hsz1 & Hsz2);
    [exact Hbuf|lia|].
  simpl table. unfold snprintf.
  destruct (needed <=? 0) eqn:E; [apply Z.leb_le in E; lia|]. clear E.
  set (m := Z.to_nat (needed - 1)).
  assert (Hm : (m < String.length (insert_text (table queue)))%nat).
  { rewrite insert_text_length. unfold m, needed. lia. }
  rewrite query_quiet_refused; trivial; rewrite ?cut_text_take.
  - simpl negb. cbv iota. eexists _, _. split; [reflexivity|].
    autorewrite with drv. unfold flag_of. simpl.
    apply Z.eqb_neq in Hn. rewrite Hn, Hj1.
    repeat split; trivial. discriminate.
  - assert (exists m', m = S m') as [m' ->] by (exists (pred m); unfold m; lia).
    unfold insert_text. simpl. discriminate.
  - now rewrite parse_insert_short.
Qed.

(** X7. With the driver refusing nothing, [_sqlite_done] on a handle whose
    table name is 242 or 243 bytes longer than twice the key returns
    GEARMAN_SUCCESS after deleting every row of the table: what the buffer
    sized from the key keeps of the DELETE ends with the table name (or the
    space after it), which the driver reads as a DELETE without a
    condition. *)
Theorem done_long_table_deletes_all (e : env) (queue : gearman_queue_sqlite_st)
    (k f : bytes) (rows : list row) :
  plan e = [] -> queue_ok queue -> in_step e queue ->
  table_ok (table queue) 255 ->
  find_table (table queue) (tables e) = Some rows ->
  size_of k * 2 + 242 <= Z.of_nat (String.length (table queue))
  <= size_of k * 2 + 243 ->
  exists e1 q1,
    _sqlite_done e queue k f = (GEARMAN_SUCCESS, e1, q1) /\
    tables e1 = update_table (table queue) (fun _ => []) (tables e) /\
    find_table (table queue) (tables e1) = Some [] /\
    journal e1 = None /\ flag_of q1 = Idle.
Proof.
  intros Hp [Hdb Hbuf] Hs (Hid & Hnm & Hlen) Hfind Hcut.
  pose proof (size_of_nonneg k) as Hk.
  unfold _sqlite_done.
  destruct (lock_quiet e queue Hp Hdb Hs) as (e1 & n & c & -> & Hn & Hp1 & Ht1 & Hj1).
  simpl negb. cbv iota.
  rewrite needed_exact by (unfold sizes_fit, GEARMAN_QUEUE_QUERY_BUFFER, SIZE_MAX1; lia).
  set (needed := _ * 2 + 256).
  assert (Hneeded : 256 <= needed) by (unfold needed; lia).
  destruct (grow_quiet e1 (set_in_trans queue n) needed Hp1) as (size & old & -> & Hsz1 & Hsz2);
    [exact Hbuf|lia|].
  simpl table. unfold snprintf.
  destruct (needed <=? 0) eqn:E; [apply Z.leb_le in E; lia|]. clear E.
  assert (exists j, (j <= 1)%nat /\
            Z.to_nat (needed - 1) = (12 + (String.length (table queue) + j))%nat)
    as (j & Hj & ->).
  { exists (Z.to_nat (needed - 1) - 12 - String.length (table queue))%nat.
    unfold needed. lia. }
  rewrite delete_text_cut.
  set (txt := "DELETE FROM " ++ table queue ++ string_take j " WHERE unique_key=?").
  assert (Hcutxt : cut_text (Z.of_nat (String.length (delete_text (table queue)))) txt = txt).
  { unfold txt. rewrite <- delete_text_cut. apply cut_text_take. }
  rewrite (query_quiet e1 _ txt _ (Sql_delete_all (table queue))
             (new_stmt (Sql_delete_all (table queue)) []));
    trivial; rewrite ?Hcutxt.
  2:{ unfold txt. simpl. discriminate. }
  2:{ unfold txt. now apply parse_delete_bare. }
  2:{ simpl. rewrite Ht1, (has_table_found _ _ _ Hfind). reflexivity. }
  simpl. rewrite step_quiet by (now autorewrite with drv).
  unfold execute. simpl. autorewrite with drv. rewrite Ht1.
  simpl. rewrite (commit_open _ _ c); simpl; autorewrite with drv; trivial.
  eexists _, _. split; [reflexivity|]. simpl.
  split; [reflexivity|]. split; [|now split].
  rewrite find_table_update, Hfind. reflexivity.
Qed.


(** ** Replay when the driver refuses a step *)

Lemma query_accept (e : env) (queue : gearman_queue_sqlite_st) (text : string) (n : Z)
    (s : sql) (sth : sqlite3_stmt) (pl : list (option driver_error)) :
  plan e = None :: pl -> db queue = true ->
  cut_text n text <> EmptyString ->
  sqlite3_parse (cut_text n text) = Some s ->
  compile (tables e) s = Some sth ->
  _sqlite_query e queue (Some text) n
  = (SQLITE_OK, Some sth,
     mkEnv (tables e) (journal e) (issued e ++ [cut_text n text])%list pl).
Proof.
  intros Hp Hdb Hne Hparse Hc.
  unfold _sqlite_query, sqlite3_prepare. fold (cut_text n text).
  rewrite Hdb. simpl negb. cbv iota.
  unfold next_outcome. autorewrite with drv. rewrite Hp.
  apply String.eqb_neq in Hne. rewrite Hne, Hparse.
  unfold log_statement. simpl. rewrite Hc. reflexivity.
Qed.

Lemma rc_of_error_not_row (x : driver_error) : rc_eqb (rc_of_error x) SQLITE_ROW = false.
Proof. now destruct x. Qed.

Lemma replay_rows_refused (t : string) (x : driver_error)
    (rest : list (option driver_error)) (n : nat) :
  forall (rows : list row) (e : env) (extra : nat) (acc : list row)
         (b : list (Z * value)) (cur : list value) (rc : sqlite_rc),
    (n <= List.length rows)%nat ->
    plan e = (repeat None n ++ Some x :: rest)%list ->
    replay_rows (S n + extra) record_row e
      (Some (mkStmt (Sql_select t) b (map row_values rows) cur rc)) acc
    = Some (GEARMAN_SUCCESS, mkEnv (tables e) (journal e) (issued e) rest,
            (acc ++ firstn n rows)%list).
Proof.
  induction n as [|n IH]; intros rows e extra acc b cur rc Hn Hp.
  - simpl in Hp. cbn [replay_rows Nat.add]. unfold sqlite3_step, next_outcome.
    rewrite Hp, rc_of_error_not_row. simpl. now rewrite app_nil_r.
  - destruct rows as [|r rows]; [simpl in Hn; lia|].
    simpl in Hp, Hn. change (S (S n) + extra)%nat with (S (S n + extra)).
    cbn [replay_rows]. remember (S n + extra)%nat as fuel eqn:Hfuel.
    unfold sqlite3_step, next_outcome. rewrite Hp.
    unfold execute. simpl.
    unfold sqlite3_column_bytes, sqlite3_column_blob, sqlite3_column_text,
      sqlite3_column_int64, priority_of_int64, size_of. simpl.
    rewrite Nat2Z.id, firstn_all. unfold set_rc. simpl. subst fuel.
    rewrite IH by (simpl; trivial; lia). simpl.
    rewrite <- app_assoc. now destruct r.
Qed.

(** X8. When the driver refuses a step of the SELECT ([x] is any of its
    errors) after [n] rows were read, [_sqlite_replay] returns
    GEARMAN_SUCCESS all the same: the callback has been handed the first
    [n] rows of the scan and no other, and nothing tells the caller that
    rows are missing.  The buffer was grown by an earlier call. *)
Theorem replay_step_refused_reports_success (e : env) (queue : gearman_queue_sqlite_st)
    (rows : list row) (n : nat) (x : driver_error) (rest : list (option driver_error)) :
  plan e = (None :: repeat None n ++ Some x :: rest)%list ->
  (n <= List.length rows)%nat ->
  queue_ok queue -> GEARMAN_QUEUE_QUERY_BUFFER <= query_size queue ->
  table_ok (table queue) 204 ->
  find_table (table queue) (tables e) = Some rows ->
  exists e' queue',
    _sqlite_replay e queue record_row []
    = Some (GEARMAN_SUCCESS, e', queue', firstn n (scan rows)) /\
    List.length (firstn n (scan rows)) = n /\
    plan e' = rest /\ tables e' = tables e.
Proof.
  intros Hp Hn [Hdb Hbuf] Hsize (Hid & Hnm & Hlen) Hfind.
  assert (Hscan : List.length (scan rows) = List.length rows)
    by apply Permutation_length, scan_perm.
  unfold _sqlite_replay, query_buffer.
  destruct (GEARMAN_QUEUE_QUERY_BUFFER >? query_size queue) eqn:E.
  { apply Z.gtb_lt in E. lia. }
  destruct (query queue) as [old|] eqn:Hq.
  2:{ specialize (Hbuf eq_refl). unfold GEARMAN_QUEUE_QUERY_BUFFER in Hsize. lia. }
  rewrite snprintf_fits
    by (rewrite select_text_length; unfold GEARMAN_QUEUE_QUERY_BUFFER; lia).
  rewrite (query_accept e _ (select_text (table queue)) _ (Sql_select (table queue))
             (new_stmt (Sql_select (table queue)) (map row_values (scan rows)))
             (repeat None n ++ Some x :: rest)%list);
    trivial; rewrite ?cut_text_length; try (now apply parse_select).
  2:{ unfold select_text. simpl. discriminate. }
  2:{ simpl. now rewrite Hfind. }
  simpl negb. cbv iota. unfold new_stmt, rows_left. simpl sth_pending.
  rewrite length_map, Hscan.
  replace (S (List.length rows)) with (S n + (List.length rows - n))%nat by lia.
  rewrite (replay_rows_refused _ x rest n) by (simpl; trivial; lia).
  eexists _, _. split; [reflexivity|]. simpl.
  split; [apply firstn_length_le; lia|]. now split.
Qed.


(** ** Any sequence of calls *)

(** X9. Whatever the driver refuses and whether or not realloc gives the
    buffer, every sequence of add, done and flush calls (with fields whose
    doubled sizes fit [size_t]) runs to its end and leaves a handle that was
    well formed (connection set, no size without a buffer) well formed. *)
Theorem calls_keep_handle {A : Type} (add_fn : gearman_queue_add_fn A) (cs : list call) :
  forall (e : env) (queue : gearman_queue_sqlite_st) (a : A),
    Forall (fun c => c <> Call_replay /\ sizes_fit (call_bytes c)) cs ->
    queue_ok queue ->
    exists e' queue' a',
      run_calls add_fn cs e queue a = Some (e', queue', a') /\
      queue_ok queue'.
Proof.
  induction cs as [|c cs IH]; intros e queue a Hfit Hq.
  - exists e, queue, a. now split.
  - inversion Hfit as [|c' cs' [_ Hc] Hcs]; subst.
    destruct (run_call_keeps_handle add_fn c e queue a Hc)
      as (r & e1 & q1 & a1 & Hrun & Hq1 & _).
    destruct (IH e1 q1 a1 Hcs (Hq1 Hq)) as (e2 & q2 & a2 & Hrest & Hq2).
    exists e2, q2, a2. cbn [run_calls]. rewrite Hrun. now split.
Qed.


(** ** A COMMIT that the driver refuses *)





(** ** Initialisation when the driver refuses nothing *)

Lemma configured_table_length (options : list (string * string)) :
  forall t : string,
    (String.length t <= 255)%nat ->
    (String.length (configured_table options t) <= 255)%nat.
Proof.
  induction options as [|o options IH]; intros t Ht; simpl; [exact Ht|].
  apply IH. destruct (is_db o); [exact Ht|].
  destruct (is_table o); [apply string_take_length|exact Ht].
Qed.

Lemma opens_db (o : string * string) (options : list (string * string)) :
  is_db o = true -> opens (o :: options) = 1 + opens options.
Proof.
  intros H. unfold opens. cbn [filter]. rewrite H. cbn [List.length].
  rewrite Nat2Z.inj_succ. lia.
Qed.

Lemma opens_other (o : string * string) (options : list (string * string)) :
  is_db o = false -> opens (o :: options) = opens options.
Proof. intros H. unfold opens. simpl. now rewrite H. Qed.

Lemma init_options_quiet (options : list (string * string)) :
  forall (g : gearman_st) (queue : gearman_queue_sqlite_st),
    plan (driver g) = [] -> known_options options = true ->
    init_options options g queue
    = (None,
       set_connections g (connections g + opens options),
       mkQueue (db queue || has_db options) (configured_table options (table queue))
               (query queue) (query_size queue) (in_trans queue)).
Proof.
  induction options as [|[name value] options IH]; intros g queue Hp Hk.
  - destruct g, queue. unfold opens, set_connections. simpl.
    now rewrite Z.add_0_r, orb_false_r.
  - simpl in Hk. apply andb_prop in Hk as [Ho Hk].
    cbn [init_options configured_table has_db existsb].
    change (String.eqb name "db") with (is_db (name, value)).
    change (String.eqb name "table") with (is_table (name, value)).
    destruct (is_db (name, value)) eqn:Edb.
    + rewrite (opens_db _ _ Edb). unfold sqlite3_open.
      rewrite next_outcome_quiet by exact Hp.
      simpl negb. cbv iota. rewrite IH by (trivial; exact Hp).
      destruct g, queue. unfold set_connections, set_driver.
      cbn [connections driver queue_fn_arg queue_callbacks queue_block undefined
           db table query query_size in_trans orb].
      rewrite orb_true_r, Z.add_assoc. reflexivity.
    + rewrite (opens_other _ _ Edb). simpl in Ho. rewrite Ho.
      rewrite IH by trivial. destruct g, queue. reflexivity.
Qed.

Lemma scan_catalog_quiet (e : env) (queue : gearman_queue_sqlite_st) :
  plan e = [] ->
  forall (c : catalog) (extra : nat) (last : option string)
         (b : list (Z * value)) (cur : list value) (rc : sqlite_rc),
  exists found s',
    scan_catalog (S (List.length c) + extra) e
      (Some (mkStmt Sql_select_tables b
               (map (fun nr : string * list row => [Text (list_byte_of_string (fst nr))]) c)
               cur rc))
      queue last
    = Some (found, Some s', e) /\
    is_error (sth_rc s') = false /\
    (found = None <-> c = [] /\ last = None).
Proof.
  intros Hp. induction c as [|nr c IH]; intros extra last b cur rc.
  - cbn [scan_catalog List.length Nat.add]. rewrite step_quiet by exact Hp.
    unfold execute. simpl. eexists _, _. split; [reflexivity|].
    split; [reflexivity|]. split; [now intros ->|now intros [_ ->]].
  - change (S (List.length (nr :: c)) + extra)%nat with (S (S (List.length c) + extra)).
    cbn [scan_catalog]. remember (S (List.length c) + extra)%nat as fuel eqn:Hfuel.
    rewrite step_quiet by exact Hp.
    unfold execute. simpl. unfold set_rc. simpl.
    destruct (strcaseeq (table queue) _).
    + eexists _, _. split; [reflexivity|]. split; [reflexivity|].
      split; [discriminate|now intros [H _]].
    + subst fuel.
      destruct (IH extra (Some (string_of_list_byte (sqlite3_column_text
                   (Some (mkStmt Sql_select_tables b
                      (map (fun nr : string * list row =>
                              [Text (list_byte_of_string (fst nr))]) c)
                      [Text (list_byte_of_string (fst nr))] SQLITE_ROW)) 0)))
                  b [Text (list_byte_of_string (fst nr))] SQLITE_ROW)
        as (found & s' & H & Hrc & Hfound).
      exists found, s'. split; [exact H|]. split; [exact Hrc|].
      split; [intros Hn; apply Hfound in Hn; destruct Hn; discriminate|now intros [H' _]].
Qed.

Arguments scan_catalog : simpl never.

Lemma create_text_length (t : string) :
  String.length (create_text t) = (88 + String.length t)%nat.
Proof. unfold create_text. rewrite !length_append. simpl. lia. Qed.

(** What [gearman_queue_libsqlite3_init] comes to when nothing is refused and
    the options are all known and name a store. *)
Lemma init_quiet (g : gearman_st) (options : list (string * string)) :
  plan (driver g) = [] ->
  known_options options = true -> has_db options = true ->
  (tables (driver g) = [] ->
   all_ident (configured_table options GEARMAN_QUEUE_SQLITE_DEFAULT_TABLE) = true /\
   name_ok (configured_table options GEARMAN_QUEUE_SQLITE_DEFAULT_TABLE) = true) ->
  gearman_queue_libsqlite3_init g (Some options)
  = Some (GEARMAN_SUCCESS,
          mkGearman true true
            (Some (mkQueue true (configured_table options GEARMAN_QUEUE_SQLITE_DEFAULT_TABLE)
                           None 0 0))
            (connections g + opens options) (undefined g)
            (mkEnv
               (match tables (driver g) with
                | [] => [(configured_table options GEARMAN_QUEUE_SQLITE_DEFAULT_TABLE, [])]
                | c => c
                end)
               (journal (driver g))
               (issued (driver g) ++
                select_tables ::
                match tables (driver g) with
                | [] => [create_text
                           (configured_table options GEARMAN_QUEUE_SQLITE_DEFAULT_TABLE)]
                | _ => []
                end)%list
               [])).
Proof.
  intros Hp Hk Hdb Hname.
  set (T := configured_table options GEARMAN_QUEUE_SQLITE_DEFAULT_TABLE) in *.
  assert (HT : (String.length T <= 255)%nat)
    by (apply configured_table_length; simpl; lia).
  destruct g as [fa cb bl cn un e]. simpl in Hp, Hname |- *.
  unfold gearman_queue_libsqlite3_init. simpl driver.
  rewrite next_outcome_quiet by exact Hp.
  change (string_take (Z.to_nat (SQLITE_MAX_TABLE_SIZE - 1)) GEARMAN_QUEUE_SQLITE_DEFAULT_TABLE)
    with GEARMAN_QUEUE_SQLITE_DEFAULT_TABLE.
  rewrite init_options_quiet by (trivial; exact Hp).
  rewrite Hdb. cbv beta iota zeta. cbn [db table query query_size in_trans orb negb driver set_driver set_block].
  fold T.
  rewrite (query_quiet e _ select_tables (-1) Sql_select_tables
             (new_stmt Sql_select_tables
                (map (fun nr : string * list row => [Text (list_byte_of_string (fst nr))])
                     (tables e))));
    try reflexivity; try assumption; try discriminate.
  simpl negb. cbv iota. unfold new_stmt, rows_left. simpl sth_pending.
  rewrite length_map, <- (Nat.add_0_r (S (List.length (tables e)))).
  destruct (scan_catalog_quiet (log_statement (cut_text (-1) select_tables) e)
              (mkQueue true T None 0 0) Hp (tables e) 0%nat None [] [] SQLITE_OK)
    as (found & s' & -> & Hrc & Hfound).
  simpl sqlite3_finalize. rewrite Hrc. simpl negb. cbv iota.
  destruct found as [name|].
  - destruct (tables e) as [|nr c] eqn:Ht.
    + destruct Hfound as [_ H]. now specialize (H (conj eq_refl eq_refl)).
    + unfold set_callbacks, log_statement. simpl. rewrite Ht, Hp. reflexivity.
  - destruct Hfound as [H _]. destruct (H eq_refl) as [Ht _]. rewrite Ht in *.
    destruct (Hname eq_refl) as [Hid Hnm].
    rewrite snprintf_fits by (rewrite create_text_length; lia).
    rewrite (query_quiet _ _ (create_text T) _ (Sql_create T) (new_stmt (Sql_create T) []));
      trivial; rewrite ?cut_text_length; try (now apply parse_create).
    2:{ unfold create_text. simpl. discriminate. }
    2:{ simpl. now rewrite Ht. }
    simpl negb. cbv iota. simpl driver.
    rewrite step_quiet by (now autorewrite with drv).
    unfold execute. simpl. rewrite Ht. simpl.
    unfold set_callbacks, set_store, log_statement. simpl.
    rewrite Hp, <- app_assoc. reflexivity.
Qed.



(** X11. With the driver and the allocator refusing nothing, initialisation
    against a store that has no table, with options that are all "db" or
    "table" and name a store, and whose configured table name (the last
    "table" value cut to 255 bytes, or the default name) is a bare
    identifier the driver takes as a table name (letters, digits and
    underscores, not empty, not starting with a digit, not a reserved
    word), succeeds: it creates that table with no row in it, registers the
    callbacks, and leaves a handle with the connection set, no buffer and
    the flag Idle.  Every "db" option opens a connection. *)
Theorem init_empty_store_creates_table (g : gearman_st)
    (options : list (string * string)) :
  plan (driver g) = [] -> tables (driver g) = [] ->
  known_options options = true -> has_db options = true ->
  all_ident (configured_table options GEARMAN_QUEUE_SQLITE_DEFAULT_TABLE) = true ->
  name_ok (configured_table options GEARMAN_QUEUE_SQLITE_DEFAULT_TABLE) = true ->
  exists g',
    gearman_queue_libsqlite3_init g (Some options) = Some (GEARMAN_SUCCESS, g') /\
    queue_fn_arg g' = true /\ queue_callbacks g' = true /\
    queue_block g'
    = Some (mkQueue true (configured_table options GEARMAN_QUEUE_SQLITE_DEFAULT_TABLE)
                    None 0 0) /\
    tables (driver g')
    = [(configured_table options GEARMAN_QUEUE_SQLITE_DEFAULT_TABLE, [])] /\
    journal (driver g') = journal (driver g) /\
    connections g' = connections g + opens options /\
    undefined g' = undefined g.
Proof.
  intros Hp Ht Hk Hdb Hid Hnm.
  rewrite (init_quiet g options Hp Hk Hdb) by (intros _; now split).
  eexists. split; [reflexivity|]. simpl. rewrite Ht. now repeat split.
Qed.

(** X12. With the driver refusing nothing, initialisation against a store
    that has at least one table succeeds without issuing a CREATE TABLE and
    leaves the tables as they are, whether or not the configured table is
    one of them: the only statement handed to the driver is the SELECT over
    the catalog. *)
Theorem init_nonempty_store_never_creates (g : gearman_st)
    (options : list (string * string)) :
  plan (driver g) = [] -> tables (driver g) <> [] ->
  known_options options = true -> has_db options = true ->
  exists g',
    gearman_queue_libsqlite3_init g (Some options) = Some (GEARMAN_SUCCESS, g') /\
    queue_callbacks g' = true /\
    queue_block g'
    = Some (mkQueue true (configured_table options GEARMAN_QUEUE_SQLITE_DEFAULT_TABLE)
                    None 0 0) /\
    tables (driver g') = tables (driver g) /\
    issued (driver g') = (issued (driver g) ++ [select_tables])%list.
Proof.
  intros Hp Ht Hk Hdb.
  rewrite (init_quiet g options Hp Hk Hdb) by (intros H; contradiction).
  eexists. split; [reflexivity|]. simpl.
  destruct (tables (driver g)); [contradiction|]. now repeat split.
Qed.

(** X13. With the driver refusing nothing, a successful initialisation
    followed by [gearman_queue_libsqlite3_deinit] unregisters the callback
    argument and frees the handle, and leaves one connection fewer than the
    "db" options opened: none is left open when the store was named once,
    and one for every further "db" option.  A second deinit reads and frees
    what is gone. *)
Theorem init_then_deinit (g : gearman_st) (options : list (string * string)) :
  plan (driver g) = [] ->
  known_options options = true -> has_db options = true ->
  (tables (driver g) = [] ->
   all_ident (configured_table options GEARMAN_QUEUE_SQLITE_DEFAULT_TABLE) = true /\
   name_ok (configured_table options GEARMAN_QUEUE_SQLITE_DEFAULT_TABLE) = true) ->
  exists g1 g2,
    gearman_queue_libsqlite3_init g (Some options) = Some (GEARMAN_SUCCESS, g1) /\
    gearman_queue_libsqlite3_deinit g1 = (GEARMAN_SUCCESS, g2) /\
    queue_fn_arg g2 = false /\ queue_block g2 = None /\
    connections g2 = connections g + opens options - 1 /\
    undefined g2 = undefined g /\
    undefined (snd (gearman_queue_libsqlite3_deinit g2)) = true.
Proof.
  intros Hp Hk Hdb Hname.
  rewrite (init_quiet g options Hp Hk Hdb Hname).
  eexists _, _. split; [reflexivity|]. split; [reflexivity|]. now repeat split.
Qed.


Lemma init_options_tables (pre : list (string * string)) :
  forall (l : list (string * string)) (g : gearman_st) (queue : gearman_queue_sqlite_st),
    known_options pre = true -> has_db pre = false ->
    init_options (pre ++ l) g queue
    = init_options l g
        (mkQueue (db queue) (configured_table pre (table queue))
                 (query queue) (query_size queue) (in_trans queue)).
Proof.
  induction pre as [|[name value] pre IH]; intros l g queue Hk Hdb.
  - now destruct queue.
  - simpl in Hk, Hdb. apply andb_prop in Hk as [Ho Hk].
    apply orb_false_iff in Hdb as [Hd Hdb]. rewrite Hd in Ho. simpl in Ho.
    cbn [app init_options configured_table].
    change (String.eqb name "db") with (is_db (name, value)).
    change (String.eqb name "table") with (is_table (name, value)).
    rewrite Hd, Ho. now rewrite IH.
Qed.

(** X15. When the driver refuses to open the store named by the first "db"
    option ([x] is any of its errors), initialisation returns
    GEARMAN_QUEUE_ERROR after reading the handle that
    [gearman_queue_libsqlite3_deinit] has just freed and freeing it a second
    time: the behaviour of the process is undefined from there.  The
    callback argument is unregistered and no connection is left open. *)
Theorem init_open_failure_undefined (g : gearman_st) (pre rest : list (string * string))
    (v : string) (x : driver_error) (pl : list (option driver_error)) :
  plan (driver g) = None :: Some x :: pl ->
  known_options pre = true -> has_db pre = false ->
  exists g',
    gearman_queue_libsqlite3_init g (Some (pre ++ ("db", v) :: rest)%list)
    = Some (GEARMAN_QUEUE_ERROR, g') /\
    undefined g' = true /\ queue_fn_arg g' = false /\ queue_block g' = None /\
    connections g' = connections g /\ queue_callbacks g' = queue_callbacks g.
Proof.
  intros Hp Hk Hdb. destruct g as [fa cb bl cn un e]. simpl in Hp.
  unfold gearman_queue_libsqlite3_init, next_outcome. simpl driver. rewrite Hp.
  rewrite init_options_tables by assumption.
  cbn [init_options]. change (String.eqb "db" "db") with true. cbv iota.
  unfold sqlite3_open, next_outcome. simpl.
  destruct x; simpl; eexists; (split; [reflexivity|]); simpl;
    repeat split; trivial; lia.
Qed.


(** ** Initialisation under any plan *)

Lemma open_frame (g g' : gearman_st) (queue queue' : gearman_queue_sqlite_st)
    (rc : sqlite_rc) :
  sqlite3_open g queue = (rc, g', queue') ->
  queue_fn_arg g' = queue_fn_arg g /\ queue_callbacks g' = queue_callbacks g /\
  queue_block g' = queue_block g /\ undefined g' = undefined g /\
  journal (driver g') = journal (driver g) /\
  table queue' = table queue /\ query queue' = query queue /\
  query_size queue' = query_size queue /\ in_trans queue' = in_trans queue /\
  (rc = SQLITE_OK -> db queue' = true) /\
  issued (driver g') = issued (driver g).
Proof.
  unfold sqlite3_open. pop. destruct f as [[]|]; intros [= <- <- <-]; simpl;
    repeat split; trivial; discriminate.
Qed.

Lemma deinit_registered (g : gearman_st) (q : gearman_queue_sqlite_st) :
  queue_fn_arg g = true -> queue_block g = Some q ->
  queue_fn_arg (snd (gearman_queue_libsqlite3_deinit g)) = false /\
  queue_block (snd (gearman_queue_libsqlite3_deinit g)) = None /\
  queue_callbacks (snd (gearman_queue_libsqlite3_deinit g)) = queue_callbacks g /\
  driver (snd (gearman_queue_libsqlite3_deinit g)) = driver g /\
  undefined (snd (gearman_queue_libsqlite3_deinit g)) = undefined g.
Proof.
  intros Hfa Hbl. unfold gearman_queue_libsqlite3_deinit. rewrite Hfa. simpl.
  rewrite Hbl. unfold free_queue, sqlite3_close. destruct (db q); simpl; rewrite Hbl;
    now repeat split.
Qed.

Lemma init_options_spec (options : list (string * string)) :
  forall (g g' : gearman_st) (queue queue' : gearman_queue_sqlite_st)
         (ret : option gearman_return_t),
    init_options options g queue = (ret, g', queue') ->
    queue_fn_arg g = true ->
    queue_callbacks g' = queue_callbacks g /\
    journal (driver g') = journal (driver g) /\
    issued (driver g') = issued (driver g) /\
    match ret with
    | Some r =>
        r = GEARMAN_QUEUE_ERROR /\ queue_fn_arg g' = false /\ queue_block g' = None /\
        (undefined g' = undefined g \/ (undefined g' = true /\ has_db options = true))
    | None =>
        queue_fn_arg g' = true /\ undefined g' = undefined g /\
        query queue' = query queue /\ query_size queue' = query_size queue /\
        in_trans queue' = in_trans queue /\
        ((String.length (table queue) <= 255)%nat ->
         (String.length (table queue') <= 255)%nat)
    end.
Proof.
  induction options as [|[name value] options IH]; intros g g' queue queue' ret H Hfa.
  - simpl in H. injection H as <- <- <-. now repeat split.
  - cbn [init_options] in H. cbn [has_db existsb]. unfold is_db at 1. cbn [fst].
    destruct (String.eqb name "db").
    + destruct (sqlite3_open g queue) as [[rc g1] q1] eqn:Hopen.
      apply open_frame in Hopen.
      destruct Hopen
        as (Hfa1 & Hcb1 & Hbl1 & Hun1 & Hj1 & Ht1 & Hq1 & Hs1 & Hi1 & _ & Hiss1).
      destruct (negb (rc_eqb rc SQLITE_OK)).
      * destruct (deinit_registered (set_block g1 (Some q1)) q1)
          as (D1 & D2 & D3 & D4 & D5); [simpl; congruence|reflexivity|].
        destruct (gearman_queue_libsqlite3_deinit (set_block g1 (Some q1))) as [r0 g2].
        simpl in D1, D2, D3, D4, D5. injection H as <- <- <-.
        unfold free_queue. simpl. rewrite D2. simpl.
        split; [congruence|]. split; [congruence|]. split; [congruence|].
        split; [reflexivity|]. split; [exact D1|]. split; [exact D2|].
        right. now split.
      * apply IH in H; [|congruence]. destruct H as (Hcb & Hj & Hiss & H).
        split; [congruence|]. split; [congruence|]. split; [congruence|].
        destruct ret as [r|].
        -- destruct H as (H1 & H2 & H3 & [H4|[H4 _]]).
           ++ do 3 (split; [assumption|]). left. congruence.
           ++ do 3 (split; [assumption|]). right. now split.
        -- destruct H as (H1 & H0 & H2 & H3 & H4 & H5).
           split; [exact H1|]. split; [congruence|]. split; [congruence|].
           split; [congruence|]. split; [congruence|].
           intros Hlen. apply H5. now rewrite Ht1.
    + simpl orb. destruct (String.eqb name "table").
      * apply IH in H; [|exact Hfa]. simpl in H. destruct H as (Hcb & Hj & Hiss & H).
        split; [exact Hcb|]. split; [exact Hj|]. split; [exact Hiss|].
        destruct ret as [r|]; [exact H|].
        destruct H as (H1 & H0 & H2 & H3 & H4 & H5).
        do 5 (split; [assumption|]). intros _. apply H5, string_take_length.
      * destruct (deinit_registered (set_block g (Some queue)) queue)
          as (D1 & D2 & D3 & D4 & D5); [exact Hfa|reflexivity|].
        destruct (gearman_queue_libsqlite3_deinit (set_block g (Some queue))) as [r0 g2].
        simpl in D1, D2, D3, D4, D5. injection H as <- <- <-.
        split; [exact D3|]. split; [now rewrite D4|]. split; [now rewrite D4|].
        split; [reflexivity|]. split; [exact D1|]. split; [exact D2|]. now left.
Qed.

Lemma step_catalog (e e' : env) (x : sqlite3_stmt) (rc : sqlite_rc)
    (sth' : option sqlite3_stmt) :
  sth_sql x = Sql_select_tables ->
  sqlite3_step e (Some x) = (rc, sth', e') ->
  tables e' = tables e /\ journal e' = journal e /\ issued e' = issued e /\
  (rc = SQLITE_ROW ->
   exists x', sth' = Some x' /\ sth_sql x' = Sql_select_tables /\
              S (List.length (sth_pending x')) = List.length (sth_pending x)).
Proof.
  intros Hsql. unfold sqlite3_step. pop. destruct f as [d|].
  - intros [= <- <- <-]. repeat split; trivial. now destruct d.
  - unfold execute. rewrite Hsql. destruct (sth_pending x) as [|r rest] eqn:Hp;
      intros [= <- <- <-]; repeat split; trivial; try discriminate.
    intros _. eexists. split; [reflexivity|]. simpl. now split.
Qed.

Lemma scan_catalog_step (fuel : nat) (e : env) (sth : option sqlite3_stmt)
    (queue : gearman_queue_sqlite_st) (last : option string) :
  scan_catalog (S fuel) e sth queue last
  = (let '(ret, sth, e) := sqlite3_step e sth in
     if negb (rc_eqb ret SQLITE_ROW) then Some (last, sth, e)
     else
       let name := string_of_list_byte (sqlite3_column_text sth 0) in
       if strcaseeq (table queue) name then Some (Some name, sth, e)
       else scan_catalog fuel e sth queue (Some name)).
Proof. reflexivity. Qed.

Lemma scan_catalog_spec (queue : gearman_queue_sqlite_st) (fuel : nat) :
  forall (e : env) (x : sqlite3_stmt) (last : option string),
    sth_sql x = Sql_select_tables ->
    (List.length (sth_pending x) < fuel)%nat ->
    exists found sth' e',
      scan_catalog fuel e (Some x) queue last = Some (found, sth', e') /\
      tables e' = tables e /\ journal e' = journal e /\ issued e' = issued e.
Proof.
  induction fuel as [|fuel IH]; intros e x last Hsql Hlen; [lia|].
  rewrite scan_catalog_step.
  destruct (sqlite3_step e (Some x)) as [[rc sth'] e1] eqn:Hst.
  destruct (step_catalog _ _ _ _ _ Hsql Hst) as (Ht & Hj & Hi & Hrow).
  destruct (rc_eqb rc SQLITE_ROW) eqn:E; simpl negb; cbv iota.
  2:{ eexists _, _, _. split; [reflexivity|]. now repeat split. }
  apply rc_eqb_eq in E. destruct (Hrow E) as (x' & -> & Hsql' & Hlen').
  cbv zeta. destruct (strcaseeq _ _).
  { eexists _, _, _. split; [reflexivity|]. now repeat split. }
  destruct (IH e1 x' (Some (string_of_list_byte (sqlite3_column_text (Some x') 0))) Hsql')
    as (found & sth2 & e2 & Hr & Ht2 & Hj2 & Hi2); [lia|].
  exists found, sth2, e2. rewrite Hr. repeat split; congruence.
Qed.

Lemma step_create (e e' : env) (x : sqlite3_stmt) (t : string) (rc : sqlite_rc)
    (sth' : option sqlite3_stmt) :
  sth_sql x = Sql_create t ->
  sqlite3_step e (Some x) = (rc, sth', e') ->
  journal e' = journal e /\ issued e' = issued e.
Proof.
  intros Hsql. unfold sqlite3_step. pop. destruct f as [d|].
  - now intros [= <- <- <-].
  - unfold execute. rewrite Hsql. destruct (has_table t (tables e0));
      now intros [= <- <- <-].
Qed.


(** The end of an initialisation that fails after
    [gearman_queue_libsqlite3_deinit]. *)
Ltac deinit_leaf q Hfa :=
  match goal with
  | |- context [gearman_queue_libsqlite3_deinit ?gg] =>
      let D1 := fresh "D" in
      let D2 := fresh "D" in
      let D3 := fresh "D" in
      let D4 := fresh "D" in
      let D5 := fresh "D" in
      destruct (deinit_registered gg q) as (D1 & D2 & D3 & D4 & D5);
      [exact Hfa|reflexivity|];
      eexists _, _; split; [reflexivity|];
      cbn [snd fst] in *;
      split; [rewrite D4; simpl; congruence|];
      split; [discriminate|]; intros _;
      split; [rewrite D3; simpl; congruence|];
      left; split; [assumption|]; split; [assumption|];
      rewrite D5; simpl; congruence
  end.

Ltac init_success_leaf :=
  eexists _, _; split; [reflexivity|]; simpl;
  split; [congruence|];
  split;
  [ intros _; split; [reflexivity|]; split; [assumption|];
    split; [congruence|];
    eexists; split; [reflexivity|];
    split; [split; [assumption|intros _; assumption]|];
    split; assumption
  | intros H; now elim H ].

Lemma parse_create_kind (t : string) (st : sql) :
  sqlite3_parse (create_text t) = Some st -> exists t', st = Sql_create t'.
Proof.
  unfold create_text, sqlite3_parse, parse_form. simpl.
  destruct (span_ident (t ++ create_columns)) as [t1 rest].
  destruct (name_ok t1); [|discriminate].
  destruct (String.eqb rest create_columns); [|discriminate].
  intros [= <-]. now exists t1.
Qed.

(** X16. Whatever the driver and the allocator refuse and whatever the
    configuration holds, initialisation of a server that has no queue
    registered ends in one of four ways, the driver's transaction being as
    it was in each.  With GEARMAN_SUCCESS: the callbacks and the callback
    argument are registered and the handle is well formed, with the flag
    Idle and a table name of at most 255 bytes.  With an error after a
    clean teardown: no callback is registered, the callback argument is
    unregistered and the handle freed.  In undefined behaviour: when a
    [sqlite3_open] fails, which is before any statement is handed to the
    driver, the handle is read after
    [gearman_queue_libsqlite3_deinit] has freed it and is freed a second
    time, and nothing can be said of the process from there (the model
    marks it and goes on to GEARMAN_QUEUE_ERROR).  With an error and no
    teardown: when the last statement handed to the driver was the CREATE
    TABLE, the callback argument stays registered, with the handle
    allocated and the connection open. *)
Theorem init_outcome (g : gearman_st) (conf : gearman_conf_st) :
  queue_fn_arg g = false -> queue_block g = None ->
  exists r g',
    gearman_queue_libsqlite3_init g conf = Some (r, g') /\
    journal (driver g') = journal (driver g) /\
    (r = GEARMAN_SUCCESS ->
     queue_callbacks g' = true /\ queue_fn_arg g' = true /\
     undefined g' = undefined g /\
     exists q, queue_block g' = Some q /\ queue_ok q /\ in_trans q = 0 /\
               (String.length (table q) <= 255)%nat) /\
    (r <> GEARMAN_SUCCESS ->
     queue_callbacks g' = queue_callbacks g /\
     ((queue_fn_arg g' = false /\ queue_block g' = None /\
       undefined g' = undefined g) \/
      (undefined g' = true /\ r = GEARMAN_QUEUE_ERROR /\
       issued (driver g') = issued (driver g) /\
       exists options, conf = Some options /\ has_db options = true) \/
      (queue_fn_arg g' = true /\ undefined g' = undefined g /\
       exists q pre, queue_block g' = Some q /\ db q = true /\
                     issued (driver g') = (pre ++ [create_text (table q)])%list))).
Proof.
  intros Hfa Hbl. unfold gearman_queue_libsqlite3_init.
  destruct (next_outcome (driver g)) as [f e0] eqn:E0.
  apply next_outcome_frame in E0. destruct E0 as (Ht0 & Hj0 & Hi0 & _).
  destruct f as [x|].
  { eexists _, _. split; [reflexivity|]. simpl. split; [exact Hj0|].
    split; [discriminate|]. intros _. split; [reflexivity|]. left. now repeat split. }
  change (string_take (Z.to_nat (SQLITE_MAX_TABLE_SIZE - 1))
            GEARMAN_QUEUE_SQLITE_DEFAULT_TABLE)
    with GEARMAN_QUEUE_SQLITE_DEFAULT_TABLE.
  set (q0 := mkQueue false GEARMAN_QUEUE_SQLITE_DEFAULT_TABLE None 0 0).
  destruct conf as [options|].
  2:{ eexists _, _. split; [reflexivity|]. unfold free_queue. simpl.
      split; [exact Hj0|]. split; [discriminate|]. intros _.
      split; [reflexivity|]. left. now repeat split. }
  destruct (init_options options _ q0) as [[ret g1] q1] eqn:Hopt.
  apply init_options_spec in Hopt; [|reflexivity].
  simpl in Hopt. destruct Hopt as (Hcb1 & Hj1 & Hiss1 & Hret).
  destruct ret as [r|].
  { destruct Hret as (-> & Hfa1 & Hbl1 & Hun). eexists _, _. split; [reflexivity|].
    split; [congruence|]. split; [discriminate|]. intros _.
    split; [exact Hcb1|]. destruct Hun as [Hun|[Hun Hdb]].
    - left. now repeat split.
    - right. left. split; [exact Hun|]. split; [reflexivity|].
      split; [congruence|]. now exists options. }
  destruct Hret as (Hfa1 & Hun1 & Hq1 & Hs1 & Hi1 & Hlen1).
  simpl in Hun1.
  assert (Hlen : (String.length (table q1) <= 255)%nat) by (apply Hlen1; simpl; lia).
  clear Hlen1.
  destruct (db q1) eqn:Hdb; simpl negb; cbv iota.
  2:{ deinit_leaf q1 Hfa1. }
  cbn [driver set_block set_driver].
  destruct (_sqlite_query (driver g1) q1 (Some select_tables) (-1)) as [[rc sth] e1] eqn:Hqr.
  apply query_spec in Hqr. destruct Hqr as (_ & Hj2 & Hi2 & _ & _ & Hok).
  destruct (rc_eqb rc SQLITE_OK) eqn:Erc; simpl negb; cbv iota.
  2:{ deinit_leaf q1 Hfa1. }
  assert (Hscan : exists found sth' e2,
             scan_catalog (S (rows_left sth)) e1 sth q1 None = Some (found, sth', e2) /\
             journal e2 = journal e1 /\ issued e2 = issued e1).
  { destruct sth as [x|].
    - destruct (Hok x eq_refl) as (_ & s & Hs & Hparse & _). injection Hs as <-.
      assert (Hsql : sth_sql x = Sql_select_tables)
        by (change (sqlite3_parse (cut_text (-1) select_tables))
              with (Some Sql_select_tables) in Hparse; congruence).
      destruct (scan_catalog_spec q1 (S (rows_left (Some x))) e1 x None Hsql)
        as (found & sth' & e2 & Hr & _ & Hj & Hi); [simpl; lia|].
      exists found, sth', e2. now repeat split.
    - rewrite scan_catalog_step. unfold sqlite3_step. simpl.
      eexists _, _, _. split; [reflexivity|]. now split. }
  destruct Hscan as (found & sth' & e2 & -> & Hj3 & Hi3).
  destruct (rc_eqb (sqlite3_finalize sth') SQLITE_OK); simpl negb; cbv iota.
  2:{ deinit_leaf q1 Hfa1. }
  destruct found as [name|].
  { init_success_leaf. }
  rewrite snprintf_fits by (rewrite create_text_length; lia).
  destruct (_sqlite_query e2 q1 _ _) as [[rc1 sth1] e3] eqn:Hqc.
  apply query_spec in Hqc. destruct Hqc as (_ & Hj4 & Hi4 & _ & _ & Hok1).
  rewrite cut_text_length in Hi4.
  destruct (rc_eqb rc1 SQLITE_OK); simpl negb; cbv iota.
  2:{ deinit_leaf q1 Hfa1. }
  destruct (sqlite3_step e3 sth1) as [[rc2 sth2] e4] eqn:Hst.
  assert (Hstep : journal e4 = journal e3 /\ issued e4 = issued e3).
  { destruct sth1 as [x|].
    - destruct (Hok1 x eq_refl) as (_ & s & Hs & Hparse & _). injection Hs as <-.
      rewrite cut_text_length in Hparse.
      destruct (parse_create_kind _ _ Hparse) as [t' Hsql].
      exact (step_create _ _ _ _ _ _ Hsql Hst).
    - unfold sqlite3_step in Hst. injection Hst as <- <- <-. now split. }
  destruct Hstep as [Hj5 Hi5].
  destruct (rc_eqb rc2 SQLITE_DONE); simpl negb; cbv iota.
  2:{ eexists _, _. split; [reflexivity|]. simpl.
      split; [congruence|]. split; [discriminate|]. intros _.
      split; [exact Hcb1|]. right. right. split; [exact Hfa1|].
      split; [exact Hun1|].
      exists q1, (issued e2). split; [reflexivity|]. split; [exact Hdb|congruence]. }
  destruct (rc_eqb (sqlite3_finalize sth2) SQLITE_OK); simpl negb; cbv iota.
  2:{ deinit_leaf q1 Hfa1. }
  init_success_leaf.
Qed.

(** ** What a success means, whatever the driver does *)










End Queue.

(** * The module on a concrete driver *)

(** A driver that reserves the SQL keywords below, reads a text as true when
    it starts with a digit from 1 to 9, and walks a table in insertion
    order. *)
Definition sqlite_keyword (s : string) : bool :=
  existsb (strcaseeq s)
    ["ADD"; "ALL"; "ALTER"; "AND"; "AS"; "BETWEEN"; "BY"; "CASE"; "CHECK";
     "COLLATE"; "COMMIT"; "CONSTRAINT"; "CREATE"; "DEFAULT"; "DELETE";
     "DISTINCT"; "DROP"; "ELSE"; "EXISTS"; "FROM"; "GROUP"; "HAVING"; "IN";
     "INDEX"; "INSERT"; "INTO"; "IS"; "JOIN"; "LIMIT"; "NOT"; "NULL"; "ON";
     "OR"; "ORDER"; "PRIMARY"; "SELECT"; "SET"; "TABLE"; "THEN"; "TO";
     "TRANSACTION"; "UNION"; "UNIQUE"; "UPDATE"; "USING"; "VALUES"; "WHEN";
     "WHERE"].

Definition leading_digit_truth (b : bytes) : bool :=
  match b with
  | x :: _ => (Nat.leb 49 (Byte.to_nat x) && Nat.leb (Byte.to_nat x) 57)%bool
  | [] => false
  end.

Definition scan_in_order (rows : list row) : list row := rows.

Lemma scan_in_order_perm (rows : list row) : Permutation (scan_in_order rows) rows.
Proof. apply Permutation_refl. Qed.

Definition run_add := _sqlite_add sqlite_keyword leading_digit_truth scan_in_order.
Definition run_done := _sqlite_done sqlite_keyword leading_digit_truth scan_in_order.
Definition run_lock := _sqlite_lock sqlite_keyword leading_digit_truth scan_in_order.
Definition run_replay {A : Type} :=
  @_sqlite_replay sqlite_keyword leading_digit_truth scan_in_order A.
Definition run_init :=
  gearman_queue_libsqlite3_init sqlite_keyword leading_digit_truth scan_in_order.

(** The handle and the store right after a successful initialisation with
    the default table, and the job of the specification's scenario. *)
Definition fresh_queue : gearman_queue_sqlite_st :=
  mkQueue true GEARMAN_QUEUE_SQLITE_DEFAULT_TABLE None 0 0.

Definition store_of (rows : list row) (outcomes : list (option driver_error)) : env :=
  mkEnv [(GEARMAN_QUEUE_SQLITE_DEFAULT_TABLE, rows)] None [] outcomes.

Definition job_1 : bytes := list_byte_of_string "job-1".
Definition reverse : bytes := list_byte_of_string "reverse".
Definition payload : bytes := [x00; x01; xff].
Definition HIGH : Z := 0.
Definition stored_job : row := mkRow job_1 reverse HIGH payload.

Lemma default_table_ok (room : nat) :
  (13 <= room)%nat ->
  table_ok sqlite_keyword GEARMAN_QUEUE_SQLITE_DEFAULT_TABLE room.
Proof. intros H. repeat split; trivial. Qed.

Lemma fresh_queue_ok : queue_ok fresh_queue.
Proof. split; reflexivity. Qed.

Lemma fresh_in_step (rows : list row) (outcomes : list (option driver_error)) :
  in_step (store_of rows outcomes) fresh_queue.
Proof. split; reflexivity. Qed.

(** The scenario of the specification: the job is added, replayed as it was
    given, completed, and gone from the next replay. *)
Example scenario_job_1 :
  let '(r1, e1, q1) := run_add (store_of [] []) fresh_queue job_1 reverse payload HIGH in
  r1 = GEARMAN_SUCCESS /\
  match run_replay e1 q1 record_row [] with
  | Some (r2, e2, q2, delivered) =>
      r2 = GEARMAN_SUCCESS /\ delivered = [stored_job] /\
      let '(r3, e3, q3) := run_done e2 q2 job_1 [] in
      r3 = GEARMAN_SUCCESS /\
      match run_replay e3 q3 record_row [] with
      | Some (r4, _, _, delivered') => r4 = GEARMAN_SUCCESS /\ delivered' = []
      | None => False
      end
  | None => False
  end.
Proof. vm_compute. repeat split. Qed.


(** [done_removes_row] on a table that holds the scenario's job. *)
Lemma done_removes_row_witness :
  exists e1 q1 e2 q2 delivered,
    run_done (store_of [stored_job] []) fresh_queue job_1 reverse
    = (GEARMAN_SUCCESS, e1, q1) /\
    tables e1 = [(GEARMAN_QUEUE_SQLITE_DEFAULT_TABLE, [])] /\
    run_replay e1 q1 record_row [] = Some (GEARMAN_SUCCESS, e2, q2, delivered) /\
    delivered = [].
Proof.
  destruct (done_removes_row sqlite_keyword leading_digit_truth scan_in_order
              scan_in_order_perm (store_of [stored_job] []) fresh_queue job_1 reverse
              [stored_job])
    as (e1 & q1 & e2 & q2 & delivered & Hdone & Ht & _ & _ & _ & _ & Hrep & Hperm & _).
  - reflexivity.
  - exact fresh_queue_ok.
  - apply fresh_in_step.
  - apply default_table_ok. lia.
  - reflexivity.
  - unfold within_limit. vm_compute. discriminate.
  - unfold readable. repeat (constructor; [vm_compute; split; discriminate|]). constructor.
  - exists e1, q1, e2, q2, delivered. repeat split; trivial.
    apply Permutation_sym, Permutation_nil in Hperm. exact Hperm.
Defined.

(** [duplicate_add_fails]: the scenario's job added a second time. *)
Lemma duplicate_add_fails_witness :
  let '(r, e', _) :=
    run_add (store_of [stored_job] []) fresh_queue job_1 reverse payload HIGH in
  tables e' = tables (store_of [stored_job] []) /\
  (r = GEARMAN_QUEUE_ERROR \/
   r = GEARMAN_MEMORY_ALLOCATION_FAILURE /\
   resize_fails
     (after_lock sqlite_keyword leading_digit_truth scan_in_order
        (store_of [stored_job] []) fresh_queue)
     (add_needed job_1 reverse payload)) /\
  (plan (store_of [stored_job] []) = [] -> r = GEARMAN_QUEUE_ERROR).
Proof.
  apply (duplicate_add_fails sqlite_keyword leading_digit_truth scan_in_order
           (store_of [stored_job] []) fresh_queue job_1 reverse payload HIGH
           [stored_job]).
  - reflexivity.
  - reflexivity.
  - reflexivity.
  - unfold sizes_fit. vm_compute. reflexivity.
Defined.

(** The INSERT is refused by the driver after BEGIN went through: the plan
    answers the prepare and the step of BEGIN, the realloc, and the prepare
    of the INSERT, then refuses its step. *)
Definition insert_step_refused : env :=
  store_of [] [None; None; None; None; Some EIOERR].


(** The same case spelled out: GEARMAN_QUEUE_ERROR, the flag Open, the
    driver's transaction open, and BEGIN and the INSERT the only statements
    issued. *)
Example insert_step_refused_leaves_open :
  exists e' queue',
    run_add insert_step_refused fresh_queue job_1 reverse payload HIGH
    = (GEARMAN_QUEUE_ERROR, e', queue') /\
    in_trans queue' = 1 /\ journal e' = Some (tables insert_step_refused) /\
    issued e' = ["BEGIN TRANSACTION"; insert_text GEARMAN_QUEUE_SQLITE_DEFAULT_TABLE].
Proof. vm_compute. eexists _, _. repeat split. Qed.

(** ** The buffer that cannot be grown *)

(** BEGIN goes through and the realloc that follows is refused. *)
Definition realloc_refused : env := store_of [] [None; None; Some ENOMEM].

(** C7, as stated, fails: the buffer cannot be grown, [_sqlite_add] returns
    GEARMAN_MEMORY_ALLOCATION_FAILURE, and the handle is not the handle it
    was given: its flag went from Idle to Open and the driver's transaction
    stays open. *)
Lemma resize_failure_changes_handle :
  exists e' queue',
    run_lock realloc_refused fresh_queue
    = (SQLITE_OK, fst (after_lock sqlite_keyword leading_digit_truth scan_in_order
                         realloc_refused fresh_queue), queue') /\
    resize_fails
      (after_lock sqlite_keyword leading_digit_truth scan_in_order
         realloc_refused fresh_queue)
      (add_needed job_1 reverse payload) /\
    run_add realloc_refused fresh_queue job_1 reverse payload HIGH
    = (GEARMAN_MEMORY_ALLOCATION_FAILURE, e', queue') /\
    queue' <> fresh_queue /\
    flag_of fresh_queue = Idle /\ flag_of queue' = Open /\
    journal e' = Some (tables realloc_refused).
Proof.
  vm_compute. eexists _, _. repeat split. discriminate.
Qed.

(** ** Initialisation that fails *)

Definition fresh_gearman (outcomes : list (option driver_error)) : gearman_st :=
  mkGearman false false None 0 false (mkEnv [] None [] outcomes).

Definition db_option : gearman_conf_st := Some [("db", "/var/lib/gearmand/queue.db")].

(** Nothing of the handle is left: no callback argument, no structure, no
    connection. *)
Definition torn_down (g : gearman_st) : Prop :=
  queue_fn_arg g = false /\ queue_block g = None /\ connections g = 0.

(** C6: the code does not do it.  The store is empty, so the table has to be
    created; the CREATE TABLE statement prepares and its step is refused
    (the plan answers malloc, sqlite3_open, the prepare and the one step of
    the catalog query, and the prepare of CREATE TABLE, then refuses).
    [gearman_queue_libsqlite3_init] returns GEARMAN_QUEUE_ERROR and the
    handle is still there: registered as the callback argument, allocated,
    its connection open. *)
Theorem init_create_step_failure_keeps_handle :
  exists g queue,
    run_init (fresh_gearman [None; None; None; None; None; Some EREADONLY]) db_option
    = Some (GEARMAN_QUEUE_ERROR, g) /\
    queue_fn_arg g = true /\ queue_block g = Some queue /\ db queue = true /\
    connections g = 1 /\ ~ torn_down g /\
    issued (driver g)
    = [select_tables; create_text GEARMAN_QUEUE_SQLITE_DEFAULT_TABLE].
Proof.
  vm_compute. eexists _, _. repeat split. intros (H & _). discriminate H.
Qed.

(** The paths next to it tear the handle down: a CREATE TABLE that does not
    prepare, a catalog query that does not prepare, an unknown option, a
    missing "db" option. *)
Example init_create_prepare_failure_tears_down :
  exists g,
    run_init (fresh_gearman [None; None; None; None; Some EREADONLY]) db_option
    = Some (GEARMAN_QUEUE_ERROR, g) /\ torn_down g.
Proof. vm_compute. eexists. repeat split. Qed.

Example init_catalog_failure_tears_down :
  exists g,
    run_init (fresh_gearman [None; None; Some EIOERR]) db_option
    = Some (GEARMAN_QUEUE_ERROR, g) /\ torn_down g.
Proof. vm_compute. eexists. repeat split. Qed.

Example init_unknown_option_tears_down :
  exists g,
    run_init (fresh_gearman [])
      (Some [("db", "/var/lib/gearmand/queue.db"); ("tabel", "jobs")])
    = Some (GEARMAN_QUEUE_ERROR, g) /\ torn_down g.
Proof. vm_compute. eexists. repeat split. Qed.

Example init_missing_db_tears_down :
  exists g,
    run_init (fresh_gearman []) (Some [("table", "jobs")])
    = Some (GEARMAN_QUEUE_ERROR, g) /\ torn_down g.
Proof. vm_compute. eexists. repeat split. Qed.

Example init_creates_table :
  exists g,
    run_init (fresh_gearman []) db_option = Some (GEARMAN_SUCCESS, g) /\
    queue_block g = Some fresh_queue /\ queue_callbacks g = true /\
    tables (driver g) = [(GEARMAN_QUEUE_SQLITE_DEFAULT_TABLE, [])].
Proof. vm_compute. eexists. repeat split. Qed.

(** ** Long table names *)

(** A table name of 205 bytes, and the 204 bytes of it that fit the buffer
    of [_sqlite_replay] after the 51 bytes of the SELECT. *)
Definition long_table : string := string_of_list_ascii (repeat "a"%char 205).
Definition cut_table : string := string_take 204 long_table.

Definition other_job : row :=
  mkRow (list_byte_of_string "job-2") reverse HIGH [].

(** C8: the code does not do it.  The configured table name has 205 bytes,
    within the 255 the structure keeps, and names a table holding [job-1];
    the store also has a table named by the first 204 bytes of it, holding
    [job-2].  The statement [_sqlite_replay] hands to the driver is the
    first 255 bytes of the SELECT, which name the other table, and the
    callback gets [job-2], a row of a table that is not the configured one. *)
Theorem replay_select_cut_short :
  let queue := mkQueue true long_table None 0 0 in
  let e := mkEnv [(long_table, [stored_job]); (cut_table, [other_job])] None [] [] in
  exists e' queue',
    (String.length (table queue) <= 255)%nat /\
    table_ok sqlite_keyword (table queue) 255 /\
    run_replay e queue record_row [] = Some (GEARMAN_SUCCESS, e', queue', [other_job]) /\
    issued e' = [select_text cut_table] /\
    select_text cut_table <> select_text (table queue) /\
    find_table (table queue) (tables e) = Some [stored_job].
Proof.
  intros queue e.
  assert (Hlen : String.length long_table = 205%nat) by reflexivity.
  destruct (run_replay e queue record_row []) as [[[[r e'] queue'] delivered]|] eqn:H;
    vm_compute in H; [|discriminate H].
  injection H as <- <- <- <-.
  eexists _, _. split; [|split; [|split; [reflexivity|split; [reflexivity|split]]]].
  - simpl table. rewrite Hlen. lia.
  - split; [reflexivity|]. split; [reflexivity|]. simpl table. rewrite Hlen. lia.
  - vm_compute. discriminate.
  - reflexivity.
Qed.

(** ** Replay that is stopped *)

(** A callback that refuses the job [job-2] with the code 40 and counts the
    jobs it accepted. *)
Definition refuse_job_2 : gearman_queue_add_fn nat :=
  fun n unique _ _ _ =>
    if bytes_eqb unique (list_byte_of_string "job-2")
    then (GEARMAN_RETURN_OTHER 40, n)
    else (GEARMAN_SUCCESS, S n).

Definition third_job : row :=
  mkRow (list_byte_of_string "job-3") reverse HIGH payload.

(** Of three stored jobs the second is refused: the first two are handed to
    the callback, the third is not, the callback's code comes back, and the
    table still holds the three. *)
Example replay_stopped_at_job_2 :
  exists e' queue',
    run_replay (store_of [stored_job; other_job; third_job] []) fresh_queue
      (visiting refuse_job_2) (O, [])
    = Some (GEARMAN_RETURN_OTHER 40, e', queue', (1%nat, [stored_job; other_job])) /\
    tables e' = tables (store_of [stored_job; other_job; third_job] []).
Proof. vm_compute. eexists _, _. split; reflexivity. Qed.

(** [replay_stops_and_keeps] on the same three jobs. *)
Lemma replay_stops_and_keeps_witness :
  exists e' queue',
    run_replay (store_of [stored_job; other_job; third_job] []) fresh_queue
      (visiting refuse_job_2) (O, [])
    = Some (GEARMAN_RETURN_OTHER 40, e', queue',
            (1%nat, ([stored_job] ++ [other_job])%list)) /\
    tables e' = tables (store_of [stored_job; other_job; third_job] []).
Proof.
  apply (proj2 (replay_stops_and_keeps sqlite_keyword leading_digit_truth
                  scan_in_order refuse_job_2 O
                  (store_of [stored_job; other_job; third_job] []) fresh_queue)
           [stored_job; other_job; third_job] [stored_job] [third_job] other_job
           1%nat 1%nat (GEARMAN_RETURN_OTHER 40)).
  - reflexivity.
  - exact fresh_queue_ok.
  - apply default_table_ok. lia.
  - reflexivity.
  - reflexivity.
  - reflexivity.
  - reflexivity.
  - discriminate.
Defined.

(** ** The flag on a driver that refuses BEGIN or COMMIT *)

Example lock_refused_stays_idle :
  exists e',
    run_lock (store_of [] [None; Some EBUSY]) fresh_queue
    = (SQLITE_BUSY, e', fresh_queue) /\
    issued e' = ["BEGIN TRANSACTION"] /\ journal e' = None.
Proof. vm_compute. eexists. repeat split. Qed.

Example commit_refused_stays_open :
  exists e' queue',
    run_add (store_of [] [None; None; None; None; None; None; Some EFULL])
      fresh_queue job_1 reverse payload HIGH
    = (GEARMAN_QUEUE_ERROR, e', queue') /\
    flag_of queue' = Open /\ journal e' <> None /\
    last (issued e') EmptyString = "COMMIT".
Proof. vm_compute. eexists _, _. repeat split. discriminate. Qed.

(** * Further properties on the concrete driver *)

Definition job_2 : bytes := list_byte_of_string "job-2".



(** A handle whose buffer an earlier call has grown to 512 bytes. *)
Definition grown_queue : gearman_queue_sqlite_st :=
  mkQueue true GEARMAN_QUEUE_SQLITE_DEFAULT_TABLE (Some EmptyString) 512 0.

Lemma grown_queue_ok : queue_ok grown_queue.
Proof. split; [reflexivity|discriminate]. Qed.


(** [done_twice] on a table that holds the scenario's job and another. *)
Lemma done_twice_witness :
  exists e1 q1 e2 q2,
    run_done (store_of [stored_job; other_job] []) fresh_queue job_1 reverse
    = (GEARMAN_SUCCESS, e1, q1) /\
    run_done e1 q1 job_1 payload = (GEARMAN_SUCCESS, e2, q2) /\
    tables e2 = tables e1 /\
    find_table GEARMAN_QUEUE_SQLITE_DEFAULT_TABLE (tables e2) = Some [other_job].
Proof.
  apply (done_twice sqlite_keyword leading_digit_truth scan_in_order
           (store_of [stored_job; other_job] []) fresh_queue job_1 reverse payload
           [stored_job; other_job]).
  - reflexivity.
  - exact fresh_queue_ok.
  - apply fresh_in_step.
  - apply default_table_ok. lia.
  - reflexivity.
  - unfold within_limit. vm_compute. discriminate.
Defined.


(** [replay_delivers_all] on a table of three jobs. *)
Lemma replay_delivers_all_witness :
  exists e' queue' delivered,
    run_replay (store_of [stored_job; other_job; third_job] []) fresh_queue record_row []
    = Some (GEARMAN_SUCCESS, e', queue', delivered) /\
    Permutation delivered [stored_job; other_job; third_job] /\
    List.length delivered = 3%nat /\
    tables e' = tables (store_of [stored_job; other_job; third_job] []) /\
    journal e' = None /\ in_trans queue' = 0.
Proof.
  apply (replay_delivers_all sqlite_keyword leading_digit_truth scan_in_order
           scan_in_order_perm (store_of [stored_job; other_job; third_job] [])
           fresh_queue [stored_job; other_job; third_job]).
  - reflexivity.
  - exact fresh_queue_ok.
  - apply default_table_ok. lia.
  - reflexivity.
  - unfold readable. repeat (constructor; [vm_compute; split; discriminate|]). constructor.
Defined.

(** A store that has a table, and not the configured one. *)
Definition archive_store : env := mkEnv [("jobs_archive", [])] None [] [].

(** [add_missing_table_fails] on that store. *)
Lemma add_missing_table_fails_witness :
  exists e1 q1,
    run_add archive_store fresh_queue job_1 reverse payload HIGH
    = (GEARMAN_QUEUE_ERROR, e1, q1) /\
    tables e1 = tables archive_store /\ flag_of q1 = Open /\ journal e1 <> None /\
    table q1 = GEARMAN_QUEUE_SQLITE_DEFAULT_TABLE.
Proof.
  apply (add_missing_table_fails sqlite_keyword leading_digit_truth scan_in_order
           archive_store fresh_queue job_1 reverse payload HIGH).
  - reflexivity.
  - exact fresh_queue_ok.
  - split; reflexivity.
  - apply default_table_ok. lia.
  - reflexivity.
  - unfold sizes_fit. vm_compute. reflexivity.
Defined.

(** A handle on the table of 205 bytes, which the store has. *)
Definition long_queue : gearman_queue_sqlite_st := mkQueue true long_table None 0 0.
Definition long_store : env := mkEnv [(long_table, [])] None [] [].

Definition f1 : bytes := list_byte_of_string "f".

(** [add_small_job_long_table_fails]: a job of 9 bytes in all cannot be
    added to the table of 205 bytes. *)
Lemma add_small_job_long_table_fails_witness :
  exists e1 q1,
    run_add long_store long_queue job_1 f1 payload HIGH = (GEARMAN_QUEUE_ERROR, e1, q1) /\
    tables e1 = tables long_store /\ flag_of q1 = Open /\ journal e1 <> None.
Proof.
  apply (add_small_job_long_table_fails sqlite_keyword leading_digit_truth scan_in_order
           long_store long_queue job_1 f1 payload HIGH).
  - reflexivity.
  - split; reflexivity.
  - split; reflexivity.
  - vm_compute. reflexivity.
  - vm_compute. lia.
  - vm_compute. discriminate.
Defined.

(** A table name of 252 bytes, and a handle on it. *)
Definition wide_table : string := string_of_list_ascii (repeat "t"%char 252).
Definition wide_queue : gearman_queue_sqlite_st := mkQueue true wide_table None 0 0.
Definition wide_store : env :=
  mkEnv [(wide_table, [stored_job; other_job; third_job])] None [] [].

(** [done_long_table_deletes_all]: completing [job-1] (5 bytes) on the table
    of 252 bytes deletes the three jobs. *)
Lemma done_long_table_deletes_all_witness :
  exists e1 q1,
    run_done wide_store wide_queue job_1 reverse = (GEARMAN_SUCCESS, e1, q1) /\
    tables e1 = [(wide_table, [])] /\
    find_table wide_table (tables e1) = Some [] /\
    journal e1 = None /\ flag_of q1 = Idle.
Proof.
  apply (done_long_table_deletes_all sqlite_keyword leading_digit_truth scan_in_order
           wide_store wide_queue job_1 reverse [stored_job; other_job; third_job]).
  - reflexivity.
  - split; reflexivity.
  - split; reflexivity.
  - split; [vm_compute; reflexivity|]. split; [vm_compute; reflexivity|].
    vm_compute. lia.
  - vm_compute. reflexivity.
  - vm_compute. split; discriminate.
Defined.

(** [replay_step_refused_reports_success]: of three stored jobs one is
    delivered, the driver is busy at the second step, and the answer is
    GEARMAN_SUCCESS. *)
Lemma replay_step_refused_reports_success_witness :
  exists e' queue',
    run_replay (store_of [stored_job; other_job; third_job] [None; None; Some EBUSY])
      grown_queue record_row []
    = Some (GEARMAN_SUCCESS, e', queue', [stored_job]) /\
    List.length [stored_job] = 1%nat /\
    plan e' = [] /\
    tables e' = tables (store_of [stored_job; other_job; third_job] []).
Proof.
  apply (replay_step_refused_reports_success sqlite_keyword leading_digit_truth
           scan_in_order scan_in_order_perm
           (store_of [stored_job; other_job; third_job] [None; None; Some EBUSY])
           grown_queue [stored_job; other_job; third_job] 1%nat EBUSY []).
  - reflexivity.
  - simpl. lia.
  - exact grown_queue_ok.
  - vm_compute. discriminate.
  - apply default_table_ok. lia.
  - reflexivity.
Defined.

(** [calls_keep_handle] on a driver that is busy at the COMMIT of the first
    call and refuses nothing else. *)
Lemma calls_keep_handle_witness :
  exists e' queue' a',
    run_calls sqlite_keyword leading_digit_truth scan_in_order record_row
      [Call_add job_1 reverse payload HIGH; Call_done job_2 reverse; Call_flush]
      (store_of [] [None; None; None; None; None; None; Some EBUSY]) fresh_queue []
    = Some (e', queue', a') /\
    queue_ok queue'.
Proof.
  apply (calls_keep_handle sqlite_keyword leading_digit_truth scan_in_order record_row
           [Call_add job_1 reverse payload HIGH; Call_done job_2 reverse; Call_flush]
           (store_of [] [None; None; None; None; None; None; Some EBUSY]) fresh_queue []).
  - repeat constructor; try discriminate; unfold sizes_fit; vm_compute; reflexivity.
  - exact fresh_queue_ok.
Defined.


(** Options that name a store and a table. *)
Definition jobs_options : list (string * string) :=
  [("table", "jobs"); ("db", "/var/lib/gearmand/queue.db")].

(** [init_empty_store_creates_table] with those options. *)
Lemma init_empty_store_creates_table_witness :
  exists g',
    run_init (fresh_gearman []) (Some jobs_options) = Some (GEARMAN_SUCCESS, g') /\
    queue_fn_arg g' = true /\ queue_callbacks g' = true /\
    queue_block g' = Some (mkQueue true "jobs" None 0 0) /\
    tables (driver g') = [("jobs", [])] /\
    journal (driver g') = None /\
    connections g' = 1 /\
    undefined g' = false.
Proof.
  apply (init_empty_store_creates_table sqlite_keyword leading_digit_truth scan_in_order
           (fresh_gearman []) jobs_options); reflexivity.
Defined.

(** A server whose store has a table, and not the configured one. *)
Definition archive_gearman : gearman_st :=
  mkGearman false false None 0 false archive_store.

(** [init_nonempty_store_never_creates]: the default table is not in the
    store and is not created. *)
Lemma init_nonempty_store_never_creates_witness :
  exists g',
    run_init archive_gearman db_option = Some (GEARMAN_SUCCESS, g') /\
    queue_callbacks g' = true /\
    queue_block g' = Some fresh_queue /\
    tables (driver g') = [("jobs_archive", [])] /\
    issued (driver g') = [select_tables].
Proof.
  apply (init_nonempty_store_never_creates sqlite_keyword leading_digit_truth
           scan_in_order archive_gearman [("db", "/var/lib/gearmand/queue.db")]).
  - reflexivity.
  - discriminate.
  - reflexivity.
  - reflexivity.
Defined.

(** [init_then_deinit] with the store named twice: one connection stays
    open. *)
Lemma init_then_deinit_witness :
  exists g1 g2,
    run_init (fresh_gearman [])
      (Some [("db", "/tmp/a.db"); ("db", "/var/lib/gearmand/queue.db")])
    = Some (GEARMAN_SUCCESS, g1) /\
    gearman_queue_libsqlite3_deinit g1 = (GEARMAN_SUCCESS, g2) /\
    queue_fn_arg g2 = false /\ queue_block g2 = None /\
    connections g2 = 1 /\
    undefined g2 = false /\
    undefined (snd (gearman_queue_libsqlite3_deinit g2)) = true.
Proof.
  apply (init_then_deinit sqlite_keyword leading_digit_truth scan_in_order
           (fresh_gearman [])
           [("db", "/tmp/a.db"); ("db", "/var/lib/gearmand/queue.db")]).
  - reflexivity.
  - reflexivity.
  - reflexivity.
  - intros _. split; reflexivity.
Defined.


(** [init_open_failure_undefined]: the table is named first, and the store
    cannot be opened. *)
Lemma init_open_failure_undefined_witness :
  exists g',
    run_init (fresh_gearman [None; Some EIOERR]) (Some jobs_options)
    = Some (GEARMAN_QUEUE_ERROR, g') /\
    undefined g' = true /\ queue_fn_arg g' = false /\ queue_block g' = None /\
    connections g' = 0 /\ queue_callbacks g' = false.
Proof.
  apply (init_open_failure_undefined sqlite_keyword leading_digit_truth scan_in_order
           (fresh_gearman [None; Some EIOERR]) [("table", "jobs")] []
           "/var/lib/gearmand/queue.db" EIOERR []); reflexivity.
Defined.

(** [init_outcome] when the driver is full at the step of CREATE TABLE. *)
Lemma init_outcome_witness :
  exists r g',
    run_init (fresh_gearman [None; None; None; None; None; Some EFULL]) db_option
    = Some (r, g') /\
    journal (driver g') = None.
Proof.
  destruct (init_outcome sqlite_keyword leading_digit_truth scan_in_order
              (fresh_gearman [None; None; None; None; None; Some EFULL]) db_option)
    as (r & g' & H & Hj & _).
  - reflexivity.
  - reflexivity.
  - exists r, g'. split; [exact H|exact Hj].
Defined.







(** * Table names that the statement buffer does not cover *)

(** A table name of 200 bytes and one of 236, both within the 255 bytes that
    initialisation keeps, and servers whose store has the tables of 236 and
    of 252 bytes with the jobs of the scenarios in them. *)
Definition table_200 : string := string_of_list_ascii (repeat "q"%char 200).
Definition table_236 : string := string_of_list_ascii (repeat "u"%char 236).

Definition table_option (t : string) : gearman_conf_st :=
  Some [("db", "/var/lib/gearmand/queue.db"); ("table", t)].

Definition gearman_236 : gearman_st :=
  mkGearman false false None 0 false
    (mkEnv [(table_236, [stored_job; other_job])] None [] []).

Definition gearman_252 : gearman_st :=
  mkGearman false false None 0 false wide_store.

(** C1: the code does not do it.  Initialisation with a table name of 200
    bytes succeeds, the driver and the allocator refuse nothing, and the
    tuple is valid: key [job-1], function name [f], priority HIGH and a
    payload of length zero.  [_sqlite_add] sizes its buffer from the tuple
    (2 * 6 + 256 bytes) and the INSERT has 70 + 200 bytes: snprintf keeps
    267 of them, the driver refuses what is left, and [_sqlite_add] returns
    GEARMAN_QUEUE_ERROR with nothing stored.  The [_sqlite_replay] that
    follows succeeds and yields no row where the claim has exactly one. *)
Theorem add_under_long_table_stores_nothing :
  exists g1 q e2 q2 e3 q3,
    run_init (fresh_gearman []) (table_option table_200) = Some (GEARMAN_SUCCESS, g1) /\
    queue_block g1 = Some q /\ table q = table_200 /\
    String.length table_200 = 200%nat /\
    tables (driver g1) = [(table_200, [])] /\
    valid_priority HIGH /\
    run_add (driver g1) q job_1 f1 [] HIGH = (GEARMAN_QUEUE_ERROR, e2, q2) /\
    tables e2 = [(table_200, [])] /\
    run_replay e2 q2 record_row [] = Some (GEARMAN_SUCCESS, e3, q3, []).
Proof.
  destruct (run_init (fresh_gearman []) (table_option table_200)) as [[r g1]|] eqn:Hinit;
    vm_compute in Hinit; [|discriminate].
  injection Hinit as <- <-.
  eexists _, _, _, _, _, _.
  split; [reflexivity|]. split; [reflexivity|]. split; [reflexivity|].
  split; [reflexivity|]. split; [reflexivity|].
  split; [unfold valid_priority, HIGH, GEARMAN_JOB_PRIORITY_MAX; lia|].
  split; [vm_compute; reflexivity|]. split; [reflexivity|].
  vm_compute. reflexivity.
Qed.

(** C2: the code does not do it.  The store has the configured table, whose
    name has 252 bytes, with [job-1], [job-2] and [job-3] in it;
    initialisation reuses it and nothing is refused.  [_sqlite_done] of
    [job-1] sizes its buffer from the key (2 * 5 + 256 bytes) and the
    DELETE has 31 + 252 bytes: snprintf keeps 265 of them, which end with
    the table name and the space after it.  The driver runs a DELETE
    without a condition, and [_sqlite_done] returns GEARMAN_SUCCESS with
    the rows of the other two keys removed as well. *)
Theorem done_under_long_table_removes_other_rows :
  exists g1 q e2 q2,
    run_init gearman_252 (table_option wide_table) = Some (GEARMAN_SUCCESS, g1) /\
    queue_block g1 = Some q /\ table q = wide_table /\
    String.length wide_table = 252%nat /\
    find_table wide_table (tables (driver g1))
    = Some [stored_job; other_job; third_job] /\
    unique_key other_job <> job_1 /\ unique_key third_job <> job_1 /\
    run_done (driver g1) q job_1 reverse = (GEARMAN_SUCCESS, e2, q2) /\
    find_table wide_table (tables e2) = Some [].
Proof.
  destruct (run_init gearman_252 (table_option wide_table)) as [[r g1]|] eqn:Hinit;
    vm_compute in Hinit; [|discriminate].
  injection Hinit as <- <-.
  eexists _, _, _, _.
  split; [reflexivity|]. split; [reflexivity|]. split; [reflexivity|].
  split; [reflexivity|]. split; [reflexivity|].
  split; [discriminate|]. split; [discriminate|].
  split; [vm_compute; reflexivity|]. reflexivity.
Qed.

(** C10: the code does not do it.  The store has the configured table, whose
    name has 236 bytes, with [job-1] (stored for the function [reverse])
    and [job-2] in it; initialisation reuses it and nothing is refused.
    [_sqlite_done] of [job-1] under another function name sizes its buffer
    from the key (2 * 5 + 256 bytes) and the DELETE has 31 + 236 bytes:
    snprintf keeps 265 of them, which end with [WHERE unique_key].  The
    driver deletes the rows whose key reads as a true value, which [job-1]
    does not, and [_sqlite_done] returns GEARMAN_SUCCESS with the row
    matching the key still stored.  It does the same under the row's own
    function name: the argument is not looked at. *)
Theorem done_under_long_table_keeps_the_row :
  exists g1 q e2 q2,
    run_init gearman_236 (table_option table_236) = Some (GEARMAN_SUCCESS, g1) /\
    queue_block g1 = Some q /\ table q = table_236 /\
    String.length table_236 = 236%nat /\
    find_table table_236 (tables (driver g1)) = Some [stored_job; other_job] /\
    unique_key stored_job = job_1 /\ function_name stored_job = reverse /\
    run_done (driver g1) q job_1 f1 = (GEARMAN_SUCCESS, e2, q2) /\
    run_done (driver g1) q job_1 reverse = (GEARMAN_SUCCESS, e2, q2) /\
    find_table table_236 (tables e2) = Some [stored_job; other_job] /\
    In stored_job [stored_job; other_job].
Proof.
  destruct (run_init gearman_236 (table_option table_236)) as [[r g1]|] eqn:Hinit;
    vm_compute in Hinit; [|discriminate].
  injection Hinit as <- <-.
  eexists _, _, _, _.
  split; [reflexivity|]. split; [reflexivity|]. split; [reflexivity|].
  split; [reflexivity|]. split; [reflexivity|].
  split; [reflexivity|]. split; [reflexivity|].
  split; [vm_compute; reflexivity|]. split; [vm_compute; reflexivity|].
  split; [reflexivity|]. now left.
Qed.
